(** * CBR_Parsers: the ingestion store and the scheduler

    A shallow embedding of [storage/local.py], [scheduler.py],
    [master.py], [parsers/record_factory.py] and, of the harvesters under
    [parsers/], the identifier derivation, the shared helpers and the
    [fetch_range] of [parsers/nbkz_kazakhstan.py], together with the
    fragment of the Python 3.11 runtime these call ([str] methods,
    [urllib.parse], UTF-8 coding, [hashlib.sha1], the built-in [hash],
    naive [datetime] arithmetic, [json.dumps]).

    Conventions.
    - A Python [str] is the list of its code points, a [bytes] object the
      list of its bytes; both are lists of [Z].
    - A function that can raise returns a [result]; [Raise e] carries the
      class of the exception.
    - The Unicode tables and the host-literal validation that the runtime
      consults are the fields of the class [Runtime]. *)

From Stdlib Require Import ZArith List Bool Lia Ascii String.
From stdpp Require Import base list gmap sorting.
Import ListNotations.
Open Scope Z_scope.

(** ** Python values *)

Abbreviation char := Z (only parsing).
Abbreviation str := (list Z) (only parsing).
Abbreviation bytes := (list Z) (only parsing).

(** An ASCII literal as a Python [str]. *)
Definition py (s : string) : str :=
  List.map (fun a => Z.of_N (N_of_ascii a)) (list_ascii_of_string s).

(** [Optional[str]]. *)
Inductive optstr : Type :=
| PyNone
| PyStr (s : str).

(** Exception classes that the modelled code can raise. [KeyboardInterrupt]
    derives from [BaseException] only; the others derive from [Exception]. *)
Inductive exn : Type :=
| ValueError
| UnicodeEncodeError
| OverflowError
| OSError
| HarvesterError
| KeyboardInterrupt.

Definition is_Exception (e : exn) : bool :=
  match e with
  | KeyboardInterrupt => false
  | _ => true
  end.

Inductive result (A : Type) : Type :=
| Ok (a : A)
| Raise (e : exn).
Arguments Ok {A} a.
Arguments Raise {A} e.

Definition bind {A B} (r : result A) (k : A -> result B) : result B :=
  match r with
  | Ok a => k a
  | Raise e => Raise e
  end.

Definition rmap {A B} (f : A -> B) (r : result A) : result B :=
  bind r (fun a => Ok (f a)).

Declare Scope py_scope.
Delimit Scope py_scope with py.
Notation "'let*' x ':=' r 'in' k" := (bind r (fun x => k))
  (at level 10, x binder, r at level 100, k at level 200) : py_scope.
Open Scope py_scope.

(** ** [str] methods *)

Definition str_eqb (a b : str) : bool := bool_decide (a = b).

(** [c in s] for a one-character [c]. *)
Definition char_in (c : char) (s : str) : bool := existsb (Z.eqb c) s.

Fixpoint startswith (p s : str) : bool :=
  match p, s with
  | [], _ => true
  | a :: p', b :: s' => (a =? b) && startswith p' s'
  | _ :: _, [] => false
  end.

Definition endswith (p s : str) : bool := startswith (rev p) (rev s).

(** [p in s] for a substring [p]. *)
Fixpoint contains (p s : str) : bool :=
  startswith p s ||
  match s with
  | [] => false
  | _ :: s' => contains p s'
  end.

Fixpoint dropwhile (f : char -> bool) (s : str) : str :=
  match s with
  | [] => []
  | c :: s' => if f c then dropwhile f s' else s
  end.

Definition lstrip_by (f : char -> bool) (s : str) : str := dropwhile f s.
Definition rstrip_by (f : char -> bool) (s : str) : str :=
  rev (dropwhile f (rev s)).
Definition strip_by (f : char -> bool) (s : str) : str :=
  rstrip_by f (lstrip_by f s).

(** [str.isspace] for one character: the code points with bidirectional
    type WS, B or S, or category Zs. Also the class [\s] of [re] on [str]
    patterns. *)
Definition isspace (c : char) : bool :=
  ((9 <=? c) && (c <=? 13)) || ((28 <=? c) && (c <=? 32)) ||
  (c =? 133) || (c =? 160) || (c =? 5760) ||
  ((8192 <=? c) && (c <=? 8202)) || (c =? 8232) || (c =? 8233) ||
  (c =? 8239) || (c =? 8287) || (c =? 12288).

(** [s.strip()] *)
Definition strip (s : str) : str := strip_by isspace s.

(** [s.replace(c, new)] for a one-character [c]. *)
Definition replace_char (c : char) (new : str) (s : str) : str :=
  flat_map (fun x => if x =? c then new else [x]) s.

(** [s.find(c, start)] for a one-character [c]; [None] stands for -1. *)
Fixpoint find_from (c : char) (s : str) (start : nat) : option nat :=
  match start, s with
  | O, [] => None
  | O, x :: s' =>
      if x =? c then Some O else option_map S (find_from c s' O)
  | S _, [] => None
  | S n, _ :: s' => option_map S (find_from c s' n)
  end.

Definition find (c : char) (s : str) : option nat := find_from c s 0.

(** [s.split(c, 1)] for a one-character [c]: the part before the first [c]
    and, when there is one, the part after it. *)
Definition split1 (c : char) (s : str) : str * option str :=
  match find c s with
  | Some i => (firstn i s, Some (skipn (S i) s))
  | None => (s, None)
  end.

(** [s.split(c)] for a one-character [c]. *)
Fixpoint split (c : char) (s : str) : list str :=
  match s with
  | [] => [[]]
  | x :: s' =>
      if x =? c then [] :: split c s'
      else match split c s' with
           | [] => [[x]]
           | w :: ws => (x :: w) :: ws
           end
  end.

(** [s.rsplit(c, 1)] for a one-character [c]: either [[s]] or
    [[before; after]] around the last [c]. *)
Definition rsplit1 (c : char) (s : str) : str * option str :=
  match split1 c (rev s) with
  | (a, Some b) => (rev b, Some (rev a))
  | (_, None) => (s, None)
  end.

(** [sep.join(l)] *)
Fixpoint join (sep : str) (l : list str) : str :=
  match l with
  | [] => []
  | [w] => w
  | w :: ws => w ++ sep ++ join sep ws
  end.

(** [s[:n]] for any integer [n]: a negative [n] counts from the end. *)
Definition slice_to (s : str) (n : Z) : str :=
  if n <? 0 then firstn (Z.to_nat (Z.of_nat (length s) + n)) s
  else firstn (Z.to_nat n) s.

(** [s[n:]] for a negative [n]: the last [-n] characters. *)
Definition slice_last (s : str) (n : nat) : str :=
  skipn (length s - n) s.

Definition is_upper_ascii (c : char) : bool := (65 <=? c) && (c <=? 90).
Definition is_lower_ascii (c : char) : bool := (97 <=? c) && (c <=? 122).
Definition is_digit_ascii (c : char) : bool := (48 <=? c) && (c <=? 57).
Definition is_alpha_ascii (c : char) : bool :=
  is_upper_ascii c || is_lower_ascii c.
Definition is_alnum_ascii (c : char) : bool :=
  is_alpha_ascii c || is_digit_ascii c.
Definition isascii (s : str) : bool := forallb (fun c => c <? 128) s.

(** [s.lower()], as far as a comparison with an ASCII string observes it:
    the ASCII capitals and U+212A KELVIN SIGN are the only code points whose
    lower case is ASCII; the lower case of every other code point contains a
    non-ASCII code point and is represented by the code point itself. *)
Definition lower_char (c : char) : char :=
  if is_upper_ascii c then c + 32
  else if c =? 8490 then 107
  else c.
Definition lower (s : str) : str := List.map lower_char s.

(** Lexicographic order on [str] by code point, the order of [<] on
    strings; and the order of [<] on pairs of strings. *)
Fixpoint str_ltb (a b : str) : bool :=
  match a, b with
  | [], [] => false
  | [], _ :: _ => true
  | _ :: _, [] => false
  | x :: a', y :: b' => (x <? y) || ((x =? y) && str_ltb a' b')
  end.

Definition pair_ltb (p q : str * str) : bool :=
  if str_eqb (fst p) (fst q) then str_ltb (snd p) (snd q)
  else str_ltb (fst p) (fst q).

(** [list.sort()] on a list of pairs of strings. The sort is stable; an
    insertion sort that puts an element before its equals to the right
    computes the same list. *)
Fixpoint insert_sorted (p : str * str) (l : list (str * str))
  : list (str * str) :=
  match l with
  | [] => [p]
  | q :: l' => if pair_ltb q p then q :: insert_sorted p l' else p :: l
  end.

Fixpoint list_sort (l : list (str * str)) : list (str * str) :=
  match l with
  | [] => []
  | p :: l' => insert_sorted p (list_sort l')
  end.

(** ** UTF-8 *)

(** [s.encode("utf-8")] with the default [errors="strict"]: a surrogate
    raises [UnicodeEncodeError]. A code point outside [0, 0x10FFFF] is not a
    Python character; the model rejects it in the same way. *)
Definition utf8_encode_char (c : char) : option bytes :=
  if c <? 0 then None
  else if c <? 128 then Some [c]
  else if c <? 2048 then Some [192 + c / 64; 128 + c mod 64]
  else if c <? 55296 then
    Some [224 + c / 4096; 128 + (c / 64) mod 64; 128 + c mod 64]
  else if c <? 57344 then None
  else if c <? 65536 then
    Some [224 + c / 4096; 128 + (c / 64) mod 64; 128 + c mod 64]
  else if c <? 1114112 then
    Some [240 + c / 262144; 128 + (c / 4096) mod 64;
          128 + (c / 64) mod 64; 128 + c mod 64]
  else None.

Fixpoint utf8_encode (s : str) : result bytes :=
  match s with
  | [] => Ok []
  | c :: s' =>
      match utf8_encode_char c with
      | None => Raise UnicodeEncodeError
      | Some bs => let* rest := utf8_encode s' in Ok (bs ++ rest)
      end
  end.

Definition is_cont (b : Z) : bool := (128 <=? b) && (b <? 192).

(** Whether [b2] is not an acceptable second byte after the lead byte [b]
    of a three- or four-byte sequence (it excludes overlong forms,
    surrogates and code points above U+10FFFF). *)
Definition bad_second (b b2 : Z) : bool :=
  negb (is_cont b2) ||
  (if b <? 240
   then (if b2 <? 160 then b =? 224 else b =? 237)
   else (if b2 <? 144 then b =? 240 else b =? 244)).

Definition REPLACEMENT : char := 65533.

(** [bs.decode("utf-8", "replace")]: every maximal ill-formed prefix of a
    sequence, and a sequence cut short by the end of the input, becomes one
    U+FFFD. *)
Fixpoint utf8_decode (bs : bytes) : str :=
  match bs with
  | [] => []
  | b :: t =>
      if b <? 128 then b :: utf8_decode t
      else if (b <? 194) || (245 <=? b) then REPLACEMENT :: utf8_decode t
      else if b <? 224 then
        match t with
        | [] => [REPLACEMENT]
        | b2 :: t2 =>
            if is_cont b2
            then ((b - 192) * 64 + (b2 - 128)) :: utf8_decode t2
            else REPLACEMENT :: utf8_decode t
        end
      else if b <? 240 then
        match t with
        | [] => [REPLACEMENT]
        | b2 :: t2 =>
            if bad_second b b2 then REPLACEMENT :: utf8_decode t
            else
              match t2 with
              | [] => [REPLACEMENT]
              | b3 :: t3 =>
                  if is_cont b3
                  then ((b - 224) * 4096 + (b2 - 128) * 64 + (b3 - 128))
                         :: utf8_decode t3
                  else REPLACEMENT :: utf8_decode t2
              end
        end
      else
        match t with
        | [] => [REPLACEMENT]
        | b2 :: t2 =>
            if bad_second b b2 then REPLACEMENT :: utf8_decode t
            else
              match t2 with
              | [] => [REPLACEMENT]
              | b3 :: t3 =>
                  if negb (is_cont b3) then REPLACEMENT :: utf8_decode t2
                  else
                    match t3 with
                    | [] => [REPLACEMENT]
                    | b4 :: t4 =>
                        if is_cont b4
                        then ((b - 240) * 262144 + (b2 - 128) * 4096
                              + (b3 - 128) * 64 + (b4 - 128))
                               :: utf8_decode t4
                        else REPLACEMENT :: utf8_decode t3
                    end
              end
        end
  end.

(** ** [urllib.parse]: quoting *)

Definition hexval (c : char) : option Z :=
  if is_digit_ascii c then Some (c - 48)
  else if (65 <=? c) && (c <=? 70) then Some (c - 55)
  else if (97 <=? c) && (c <=? 102) then Some (c - 87)
  else None.

(** [unquote_to_bytes] on an ASCII string: [%XY] with two hex digits is the
    byte [0xXY]; any other [%] stays. *)
Fixpoint unquote_to_bytes (s : str) : bytes :=
  match s with
  | [] => []
  | c :: t =>
      if c =? 37 then
        match t with
        | h1 :: h2 :: t2 =>
            match hexval h1, hexval h2 with
            | Some a, Some b => (a * 16 + b) :: unquote_to_bytes t2
            | _, _ => c :: unquote_to_bytes t
            end
        | _ => c :: unquote_to_bytes t
        end
      else c :: unquote_to_bytes t
  end.

(** The maximal runs of [s] on which [f] is constant, each with its value
    of [f]; [_asciire.split] cuts a string into these for [f] = "is ASCII". *)
Fixpoint runs (f : char -> bool) (s : str) : list (bool * str) :=
  match s with
  | [] => []
  | c :: s' =>
      match runs f s' with
      | (b, r) :: rest =>
          if Bool.eqb b (f c) then (b, c :: r) :: rest
          else (f c, [c]) :: (b, r) :: rest
      | [] => [(f c, [c])]
      end
  end.

(** [unquote(string)]: the ASCII runs are unquoted to bytes and decoded as
    UTF-8 with replacement, the other characters are kept. *)
Definition unquote (s : str) : str :=
  if char_in 37 s then
    flat_map (fun r : bool * str =>
                if fst r then utf8_decode (unquote_to_bytes (snd r))
                else snd r)
             (runs (fun c => c <? 128) s)
  else s.

Definition hexdigit_upper (d : Z) : char :=
  if d <? 10 then 48 + d else 55 + d.

(** [_ALWAYS_SAFE] *)
Definition always_safe (b : Z) : bool :=
  is_alnum_ascii b || (b =? 95) || (b =? 46) || (b =? 45) || (b =? 126).

(** [quote_from_bytes(bs, safe)] *)
Definition quote_from_bytes (bs : bytes) (safe : str) : str :=
  flat_map (fun b =>
              if always_safe b || ((b <? 128) && char_in b safe)
              then [b]
              else [37; hexdigit_upper (b / 16); hexdigit_upper (b mod 16)])
           bs.

(** [quote(string, safe)] on a [str]. *)
Definition quote (s : str) (safe : str) : result str :=
  match s with
  | [] => Ok []
  | _ => let* bs := utf8_encode s in Ok (quote_from_bytes bs safe)
  end.

(** [quote_plus(string)] with the default [safe=''] *)
Definition quote_plus (s : str) : result str :=
  if negb (char_in 32 s) then quote s []
  else let* q := quote s [32] in Ok (replace_char 32 [43] q).

(** [urlencode(query, doseq=True)] on a list of pairs of [str]. *)
Fixpoint urlencode_items (query : list (str * str)) : result (list str) :=
  match query with
  | [] => Ok []
  | (k, v) :: query' =>
      let* k' := quote_plus k in
      let* v' := quote_plus v in
      let* l := urlencode_items query' in
      Ok ((k' ++ [61] ++ v') :: l)
  end.

Definition urlencode (query : list (str * str)) : result str :=
  let* l := urlencode_items query in Ok (join [38] l).

(** One field of [parse_qsl(qs, keep_blank_values=True)]. *)
Definition parse_field (name_value : str) : str * str :=
  let '(n, v) := split1 61 name_value in
  let v := match v with Some v => v | None => [] end in
  (unquote (replace_char 43 [32] n), unquote (replace_char 43 [32] v)).

(** [parse_qsl(qs, keep_blank_values=True)]: the fields are separated by
    [&], an empty field is skipped, a field without [=] has the value [""]. *)
Definition parse_qsl (qs : str) : list (str * str) :=
  match qs with
  | [] => []
  | _ =>
      List.map parse_field
               (List.filter (fun f => negb (str_eqb f [])) (split 38 qs))
  end.

(** ** The runtime's tables *)

(** What the modelled code reads from the interpreter's Unicode database
    and address parser:
    - [isalnum c]: [str.isalnum] on the non-ASCII character [c] (the class
      [\w] of [re] is [isalnum] or [_]);
    - [nfkc s]: [unicodedata.normalize("NFKC", s)];
    - [bracketed_netloc_ok n]: [_check_bracketed_netloc(n)] returns (it
      parses the bracketed host with [ipaddress]) rather than raising
      [ValueError]. *)
Class Runtime : Type := {
  isalnum : char -> bool;
  nfkc : str -> str;
  bracketed_netloc_ok : str -> bool
}.

(** ** [urllib.parse]: splitting and joining *)

Record SplitResult : Type := mkSplit {
  scheme : str;
  netloc : str;
  path : str;
  query : str;
  fragment : str
}.

Definition uses_netloc : list str :=
  List.map py
    [""; "ftp"; "http"; "gopher"; "nntp"; "telnet";
     "imap"; "wais"; "file"; "mms"; "https"; "shttp";
     "snews"; "prospero"; "rtsp"; "rtspu"; "rsync";
     "svn"; "svn+ssh"; "sftp"; "nfs"; "git"; "git+ssh";
     "ws"; "wss"]%string.

Definition str_in (s : str) (l : list str) : bool := existsb (str_eqb s) l.

(** [c in scheme_chars] *)
Definition scheme_char (c : char) : bool :=
  is_alnum_ascii c || (c =? 43) || (c =? 45) || (c =? 46).

(** [c in _WHATWG_C0_CONTROL_OR_SPACE] *)
Definition c0_control_or_space (c : char) : bool := (0 <=? c) && (c <=? 32).

(** [_splitnetloc(url, start)]: the domain ends at the first of [/?#]. *)
Definition _splitnetloc (url : str) (start : nat) : str * str :=
  let delim := length url in
  let delim :=
    fold_left (fun delim c =>
                 match find_from c url start with
                 | Some wdelim => Nat.min delim wdelim
                 | None => delim
                 end)
              [47; 63; 35] delim in
  (skipn start (firstn delim url), skipn delim url).

Section Urllib.
Context {rt : Runtime}.

(** [_checknetloc(netloc)] *)
Definition _checknetloc (netloc : str) : result unit :=
  if str_eqb netloc [] || isascii netloc then Ok tt
  else
    let n := replace_char 64 [] netloc in
    let n := replace_char 58 [] n in
    let n := replace_char 35 [] n in
    let n := replace_char 63 [] n in
    let netloc2 := nfkc n in
    if str_eqb n netloc2 then Ok tt
    else if existsb (fun c => char_in c netloc2) [47; 63; 35; 64; 58]
         then Raise ValueError
         else Ok tt.

(** The stages of [urlsplit(url)] (default [scheme=''],
    [allow_fragments=True]), in program order. First, leading C0 control
    characters and spaces are stripped and every tab, CR and LF is
    removed. *)
Definition urlsplit_clean (url : str) : str :=
  let url := lstrip_by c0_control_or_space url in
  let url := replace_char 9 [] url in
  let url := replace_char 13 [] url in
  replace_char 10 [] url.

(** The test on the text before the first colon, at index [i]. *)
Definition scheme_test (url : str) (i : nat) : bool :=
  (0 <? i)%nat && forallb is_alpha_ascii (firstn 1 url)
  && forallb scheme_char (firstn i url).

Definition urlsplit_scheme (url : str) : str * str :=
  match find 58 url with
  | Some i =>
      if scheme_test url i
      then (lower (firstn i url), skipn (S i) url)
      else ([], url)
  | None => ([], url)
  end.

Definition urlsplit_netloc (url : str) : result (str * str) :=
  if str_eqb (firstn 2 url) [47; 47] then
    let '(netloc, url) := _splitnetloc url 2 in
    if (char_in 91 netloc && negb (char_in 93 netloc))
       || (char_in 93 netloc && negb (char_in 91 netloc))
    then Raise ValueError
    else if char_in 91 netloc && char_in 93 netloc
              && negb (bracketed_netloc_ok netloc)
    then Raise ValueError
    else Ok (netloc, url)
  else Ok ([], url).

(** [url.split(c, 1)] when [c in url], and [(url, '')] otherwise. *)
Definition cut (c : char) (url : str) : str * str :=
  match split1 c url with
  | (u, Some f) => (u, f)
  | (u, None) => (u, [])
  end.

Definition urlsplit (url : str) : result SplitResult :=
  let url := urlsplit_clean url in
  let '(scheme, url) := urlsplit_scheme url in
  let* '(netloc, url) := urlsplit_netloc url in
  let '(url, fragment) := cut 35 url in
  let '(url, query) := cut 63 url in
  let* _ := _checknetloc netloc in
  Ok (mkSplit scheme netloc url query fragment).

End Urllib.

(** [urlunsplit((scheme, netloc, url, query, fragment))] *)
Definition urlunsplit (p : SplitResult) : str :=
  let url := path p in
  let url :=
    if negb (str_eqb (netloc p) [])
       || (negb (str_eqb (scheme p) []) && str_in (scheme p) uses_netloc
           && negb (str_eqb (firstn 2 url) [47; 47]))
    then
      let url :=
        if negb (str_eqb url []) && negb (str_eqb (firstn 1 url) [47])
        then [47] ++ url else url in
      [47; 47] ++ netloc p ++ url
    else url in
  let url :=
    if negb (str_eqb (scheme p) []) then scheme p ++ [58] ++ url else url in
  let url :=
    if negb (str_eqb (query p) []) then url ++ [63] ++ query p else url in
  let url :=
    if negb (str_eqb (fragment p) []) then url ++ [35] ++ fragment p
    else url in
  url.

(** ** [storage/local.py]: the canonicalizer *)

Definition DROP_QUERY_KEYS : list str :=
  List.map py
    ["_"; "ts"; "timestamp"; "t"; "v"; "ver"; "version";
     "cb"; "cachebust"; "cachebuster"; "nocache"; "rnd"; "random";
     "utm_source"; "utm_medium"; "utm_campaign"; "utm_term";
     "utm_content"]%string.

(** The loop of [_normalize_pdf_url] that builds [q2]. *)
Definition drop_tracking (q : list (str * str)) : list (str * str) :=
  List.filter (fun kv => negb (str_in (lower (fst kv)) DROP_QUERY_KEYS)) q.

Definition or_empty (o : optstr) : str :=
  match o with
  | PyNone => []
  | PyStr s => s
  end.

Section Canonicalizer.
Context {rt : Runtime}.

Definition _normalize_pdf_url (pdf_url : optstr) : result str :=
  let u := strip (or_empty pdf_url) in
  match u with
  | [] => Ok u
  | _ =>
      let* parts := urlsplit u in
      let q := parse_qsl (query parts) in
      let q2 := drop_tracking q in
      let q2 := list_sort q2 in
      let* new_query := urlencode q2 in
      Ok (urlunsplit (mkSplit (scheme parts) (netloc parts) (path parts)
                              new_query []))
  end.

End Canonicalizer.

(** ** [hashlib.sha1] *)

Definition w32 (x : Z) : Z := x mod 4294967296.
Definition rotl32 (n : Z) (x : Z) : Z :=
  w32 (Z.lor (Z.shiftl x n) (Z.shiftr x (32 - n))).

(** The message followed by [0x80], zero bytes up to 56 modulo 64, and the
    bit length as eight big-endian bytes. *)
Definition be_bytes (n : nat) (x : Z) : bytes :=
  List.map (fun i => (Z.shiftr x (8 * Z.of_nat i)) mod 256) (rev (seq 0 n)).

Definition sha1_pad (msg : bytes) : bytes :=
  let len := Z.of_nat (length msg) in
  let zeros := Z.to_nat ((55 - len) mod 64) in
  msg ++ [128] ++ repeat 0 zeros ++ be_bytes 8 (8 * len).

Fixpoint be_words (bs : bytes) : list Z :=
  match bs with
  | a :: b :: c :: d :: t =>
      (a * 16777216 + b * 65536 + c * 256 + d) :: be_words t
  | _ => []
  end.

(** The message schedule, most recent word first. *)
Fixpoint sha1_extend (n : nat) (rw : list Z) : list Z :=
  match n with
  | O => rw
  | S n' =>
      let w := rotl32 1 (Z.lxor (Z.lxor (nth 2 rw 0) (nth 7 rw 0))
                                (Z.lxor (nth 13 rw 0) (nth 15 rw 0))) in
      sha1_extend n' (w :: rw)
  end.

Definition sha1_state : Type := Z * Z * Z * Z * Z.

Definition sha1_round (i : nat) (st : sha1_state) (w : Z) : sha1_state :=
  let '(a, b, c, d, e) := st in
  let '(f, k) :=
    if (i <? 20)%nat
    then (Z.lor (Z.land b c) (Z.land (Z.lxor b 4294967295) d), 1518500249)
    else if (i <? 40)%nat
    then (Z.lxor (Z.lxor b c) d, 1859775393)
    else if (i <? 60)%nat
    then (Z.lor (Z.lor (Z.land b c) (Z.land b d)) (Z.land c d), 2400959708)
    else (Z.lxor (Z.lxor b c) d, 3395469782) in
  let temp := w32 (rotl32 5 a + f + e + k + w) in
  (temp, a, rotl32 30 b, c, d).

Fixpoint sha1_rounds (i : nat) (ws : list Z) (st : sha1_state) : sha1_state :=
  match ws with
  | [] => st
  | w :: ws' => sha1_rounds (S i) ws' (sha1_round i st w)
  end.

Definition sha1_block (h : sha1_state) (block : bytes) : sha1_state :=
  let ws := rev (sha1_extend 64 (rev (be_words block))) in
  let '(h0, h1, h2, h3, h4) := h in
  let '(a, b, c, d, e) := sha1_rounds 0 ws h in
  (w32 (h0 + a), w32 (h1 + b), w32 (h2 + c), w32 (h3 + d), w32 (h4 + e)).

Fixpoint sha1_blocks (n : nat) (h : sha1_state) (bs : bytes) : sha1_state :=
  match n with
  | O => h
  | S n' => sha1_blocks n' (sha1_block h (firstn 64 bs)) (skipn 64 bs)
  end.

Definition sha1_init : sha1_state :=
  (1732584193, 4023233417, 2562383102, 271733878, 3285377520).

Definition sha1 (msg : bytes) : sha1_state :=
  let padded := sha1_pad msg in
  sha1_blocks (length padded / 64) sha1_init padded.

Definition hexdigit_lower (d : Z) : char :=
  if d <? 10 then 48 + d else 87 + d.

(** The eight lower-case hex digits of a 32-bit word. *)
Definition hex8 (w : Z) : str :=
  List.map (fun i => hexdigit_lower ((Z.shiftr w (4 * Z.of_nat i)) mod 16))
           (rev (seq 0 8)).

(** [hashlib.sha1(msg).hexdigest()] *)
Definition sha1_hexdigest (msg : bytes) : str :=
  let '(h0, h1, h2, h3, h4) := sha1 msg in
  hex8 h0 ++ hex8 h1 ++ hex8 h2 ++ hex8 h3 ++ hex8 h4.

(** ** The built-in [hash] on [str] *)

(** CPython 3.11 hashes the character buffer of a [str] with SipHash-1-3
    under a 128-bit key that is drawn once per process (unless
    [PYTHONHASHSEED] fixes it). *)
Definition w64 (x : Z) : Z := x mod 18446744073709551616.
Definition rotl64 (n : Z) (x : Z) : Z :=
  w64 (Z.lor (Z.shiftl x n) (Z.shiftr x (64 - n))).

Definition sip_state : Type := Z * Z * Z * Z.

Definition sipround (v : sip_state) : sip_state :=
  let '(v0, v1, v2, v3) := v in
  let v0 := w64 (v0 + v1) in
  let v1 := rotl64 13 v1 in
  let v1 := Z.lxor v1 v0 in
  let v0 := rotl64 32 v0 in
  let v2 := w64 (v2 + v3) in
  let v3 := rotl64 16 v3 in
  let v3 := Z.lxor v3 v2 in
  let v0 := w64 (v0 + v3) in
  let v3 := rotl64 21 v3 in
  let v3 := Z.lxor v3 v0 in
  let v2 := w64 (v2 + v1) in
  let v1 := rotl64 17 v1 in
  let v1 := Z.lxor v1 v2 in
  let v2 := rotl64 32 v2 in
  (v0, v1, v2, v3).

(** A little-endian integer from at most eight bytes. *)
Fixpoint le_int (bs : bytes) : Z :=
  match bs with
  | [] => 0
  | b :: t => b + 256 * le_int t
  end.

Definition sip_absorb (v : sip_state) (m : Z) : sip_state :=
  let '(v0, v1, v2, v3) := v in
  let '(v0, v1, v2, v3) := sipround (v0, v1, v2, Z.lxor v3 m) in
  (Z.lxor v0 m, v1, v2, v3).

Fixpoint sip_words (n : nat) (v : sip_state) (data : bytes)
  : sip_state * bytes :=
  match n with
  | O => (v, data)
  | S n' => sip_words n' (sip_absorb v (le_int (firstn 8 data)))
                      (skipn 8 data)
  end.

Definition siphash13 (k0 k1 : Z) (data : bytes) : Z :=
  let v := (Z.lxor k0 8317987319222330741, Z.lxor k1 7237128888997146477,
            Z.lxor k0 7816392313619706465, Z.lxor k1 8387220255154660723) in
  let len := Z.of_nat (length data) in
  let '(v, tail) := sip_words (length data / 8) v data in
  let b := Z.lor (w64 (Z.shiftl len 56)) (le_int tail) in
  let '(v0, v1, v2, v3) := sip_absorb v b in
  let v2 := Z.lxor v2 255 in
  let '(v0, v1, v2, v3) := sipround (sipround (sipround (v0, v1, v2, v3))) in
  Z.lxor (Z.lxor v0 v1) (Z.lxor v2 v3).

(** The character buffer of a [str]: one, two or four little-endian bytes
    per character, by the largest code point. *)
Definition str_buffer (s : str) : bytes :=
  let m := fold_right Z.max 0 s in
  let kind := if m <? 256 then 1%nat
              else if m <? 65536 then 2%nat else 4%nat in
  flat_map (fun c => rev (be_bytes kind c)) s.

(** The per-process key of the string hash. *)
Definition hash_secret : Type := Z * Z.

(** [hash(s)] for a [str], in the process whose key is [secret]. *)
Definition str_hash (secret : hash_secret) (s : str) : Z :=
  match s with
  | [] => 0
  | _ =>
      let x := siphash13 (fst secret) (snd secret) (str_buffer s) in
      let x := if x <? 9223372036854775808 then x
               else x - 18446744073709551616 in
      if x =? -1 then -2 else x
  end.

(** ** [re.sub] and [re.fullmatch] for the patterns of [local.py] *)

(** [re.sub("[class]+", repl, s)]: every maximal run of characters of the
    class [bad] becomes one [repl]. *)
Fixpoint sub_runs_from (bad : char -> bool) (repl : str) (in_run : bool)
  (s : str) : str :=
  match s with
  | [] => []
  | c :: s' =>
      if bad c
      then (if in_run then [] else repl) ++ sub_runs_from bad repl true s'
      else c :: sub_runs_from bad repl false s'
  end.

Definition sub_runs (bad : char -> bool) (repl : str) (s : str) : str :=
  sub_runs_from bad repl false s.

(** [re.fullmatch(r"[A-Za-z0-9][A-Za-z0-9._\-]{2,}", s)] *)
Definition fullmatch_plain_name (s : str) : bool :=
  match s with
  | [] => false
  | c :: rest =>
      is_alnum_ascii c && (2 <=? length rest)%nat
      && forallb (fun x => is_alnum_ascii x || (x =? 46) || (x =? 95)
                           || (x =? 45)) rest
  end.

(** ** [storage/local.py]: file names *)

Section Filenames.
Context {rt : Runtime}.

(** The class [\w] with [re.UNICODE]. *)
Definition is_word (c : char) : bool :=
  if c <? 128 then is_alnum_ascii c || (c =? 95) else isalnum c.

(** The class [[^\w.\-() ]]. *)
Definition disallowed (c : char) : bool :=
  negb (is_word c || (c =? 46) || (c =? 45) || (c =? 40) || (c =? 41)
        || (c =? 32)).

(** The first five statements of [_safe_filename]. *)
Definition sanitize (name : str) : str :=
  let name := strip name in
  let name := unquote name in
  let name := replace_char 0 [] name in
  let name := sub_runs disallowed [95] name in
  strip (sub_runs isspace [32] name).

(** The truncation of [_safe_filename]. *)
Definition truncate (name : str) (max_len : Z) : str :=
  if max_len <? Z.of_nat (length name) then
    let '(base, ext) :=
      if char_in 46 name then
        match rsplit1 46 name with
        | (base, Some ext) => (base, [46] ++ ext)
        | (base, None) => (base, [])
        end
      else (name, []) in
    let base := slice_to base (max_len - Z.of_nat (length ext)) in
    base ++ ext
  else name.

Definition _safe_filename (name : str) (max_len : Z) : str :=
  truncate (sanitize name) max_len.

Definition BAD_LAST_SEGMENTS : list str :=
  List.map py
    [""; "download"; "file"; "get"; "print"; "view"; "open"; "attachment";
     "document"; "content"; "pdf"; "export"]%string.

(** [_pdf_name_from_url]; an exception inside the [try] gives [None]. *)
Definition _pdf_name_from_url (pdf_url : optstr) : optstr :=
  let u := strip (or_empty pdf_url) in
  match u with
  | [] => PyNone
  | _ =>
      match urlsplit u with
      | Raise _ => PyNone
      | Ok parts =>
          let path := path parts in
          let last := strip (unquote (List.last (split 47 path) [])) in
          if endswith (py ".pdf") (lower last) && (5 <=? length last)%nat
          then PyStr (_safe_filename last 160)
          else if contains (py "/printpdf/") path
                  && negb (str_eqb last [])
                  && negb (str_in (lower last) BAD_LAST_SEGMENTS)
          then PyStr (_safe_filename (last ++ py ".pdf") 160)
          else if negb (str_eqb last [])
                  && negb (str_in (lower last) BAD_LAST_SEGMENTS)
                  && fullmatch_plain_name last
          then PyStr (_safe_filename (last ++ py ".pdf") 160)
          else PyNone
      end
  end.

(** [_pdf_key] *)
Definition _pdf_key (pdf_url : optstr) : result str :=
  let* norm := _normalize_pdf_url pdf_url in
  let* bs := utf8_encode norm in
  Ok (sha1_hexdigest bs).

End Filenames.

(** The extension of a file name: its last dot and what follows it. *)
Definition extension (name : str) : option str :=
  match rsplit1 46 name with
  | (_, Some ext) => Some ([46] ++ ext)
  | (_, None) => None
  end.

(** ** [parsers/base.py] and the store *)

Record DocumentRecord : Type := mkRecord {
  doc_id : str;
  source : str;
  url : str;
  title : str;
  date : optstr;
  language : optstr;
  doc_type : str;
  text : str;
  pdf_urls : list str;
  meta : list (str * str)
}.

(** The persistent state behind a [LocalStorage]: for every source the
    lines of [records.jsonl] (a line is represented by the record that
    [json.dumps] serialized), the tables [seen] and [pdf_seen] of
    [index.sqlite], and the files under the [pdf] directories by path. *)
Record Storage : Type := mkStorage {
  root : str;
  records_jsonl : gmap str (list DocumentRecord);
  seen_table : gmap str (gset str);
  pdf_seen_table : gmap str (gmap str str);
  files : gmap str bytes
}.

Definition LocalStorage (root : str) : Storage :=
  mkStorage root ∅ ∅ ∅ ∅.

Definition lines_of (st : Storage) (src : str) : list DocumentRecord :=
  default [] (records_jsonl st !! src).
Definition seen_of (st : Storage) (src : str) : gset str :=
  default ∅ (seen_table st !! src).
Definition pdf_seen_of (st : Storage) (src : str) : gmap str str :=
  default ∅ (pdf_seen_table st !! src).

(** [exists(source, doc_id)]: [SELECT 1 FROM seen WHERE doc_id = ?]. *)
Definition exists_ (st : Storage) (src id : str) : bool :=
  bool_decide (id ∈ seen_of st src).

(** [mark_seen(source, doc_id)]: [INSERT OR IGNORE INTO seen]. *)
Definition mark_seen (st : Storage) (src id : str) : Storage :=
  mkStorage (root st) (records_jsonl st)
            (<[src := {[id]} ∪ seen_of st src]> (seen_table st))
            (pdf_seen_table st) (files st).

(** The [with out.open("a")] block of [put_record]. *)
Definition append_line (st : Storage) (r : DocumentRecord) : Storage :=
  mkStorage (root st)
            (<[source r := lines_of st (source r) ++ [r]]> (records_jsonl st))
            (seen_table st) (pdf_seen_table st) (files st).

(** The durable effects of [put_record], in program order. *)
Inductive effect : Type :=
| AppendLine (r : DocumentRecord)
| MarkSeen (src id : str).

Definition run_effect (st : Storage) (e : effect) : Storage :=
  match e with
  | AppendLine r => append_line st r
  | MarkSeen src id => mark_seen st src id
  end.

Definition put_record_effects (r : DocumentRecord) : list effect :=
  [AppendLine r; MarkSeen (source r) (doc_id r)].

Definition put_record (st : Storage) (r : DocumentRecord) : Storage :=
  fold_left run_effect (put_record_effects r) st.

(** A run of [put_record] that the process does not survive: only the
    first [k] effects reach the disk. *)
Definition put_record_crash (k : nat) (st : Storage) (r : DocumentRecord)
  : Storage :=
  fold_left run_effect (firstn k (put_record_effects r)) st.

(** The number of lines of the log of [src] that carry the id [id]. *)
Definition entries (st : Storage) (src id : str) : nat :=
  length (List.filter (fun r => str_eqb (doc_id r) id) (lines_of st src)).

(** [Path(p).exists()] for the path of a stored attachment. *)
Definition path_exists (st : Storage) (p : str) : bool :=
  bool_decide (is_Some (files st !! p)).

(** [str(self._source_dir(source) / "pdf" / name)], for a source name and a
    file name that are single path components. *)
Definition pdf_path (st : Storage) (src name : str) : str :=
  root st ++ [47] ++ src ++ py "/pdf/" ++ name.

Section Attachments.
Context {rt : Runtime}.

(** [_pdf_seen_path] *)
Definition _pdf_seen_path (st : Storage) (src : str) (pdf_url : str)
  : result (option str) :=
  let* key := _pdf_key (PyStr pdf_url) in
  Ok (pdf_seen_of st src !! key).

(** [pdf_seen] *)
Definition pdf_seen (st : Storage) (src : str) (pdf_url : str)
  : result bool :=
  let* key := _pdf_key (PyStr pdf_url) in
  Ok (bool_decide (is_Some (pdf_seen_of st src !! key))).

(** [INSERT OR IGNORE INTO pdf_seen(pdf_key, path)] *)
Definition insert_or_ignore (st : Storage) (src key p : str) : Storage :=
  match pdf_seen_of st src !! key with
  | Some _ => st
  | None =>
      mkStorage (root st) (records_jsonl st) (seen_table st)
                (<[src := <[key := p]> (pdf_seen_of st src)]>
                   (pdf_seen_table st))
                (files st)
  end.

Definition write_bytes (st : Storage) (p : str) (content : bytes) : Storage :=
  mkStorage (root st) (records_jsonl st) (seen_table st) (pdf_seen_table st)
            (<[p := content]> (files st)).

Definition put_pdf (st : Storage) (src doc_id pdf_url : str)
  (content : bytes) : result (Storage * str) :=
  let* prev := _pdf_seen_path st src pdf_url in
  let reuse :=
    match prev with
    | Some p => if negb (str_eqb p []) && path_exists st p
                then Some p else None
    | None => None
    end in
  match reuse with
  | Some p => Ok (st, p)
  | None =>
      let name :=
        match _pdf_name_from_url (PyStr pdf_url) with
        | PyStr (c :: n) => c :: n
        | _ => _safe_filename (doc_id ++ py ".pdf") 160
        end in
      let p := pdf_path st src name in
      let st := if path_exists st p then st else write_bytes st p content in
      let* key := _pdf_key (PyStr pdf_url) in
      Ok (insert_or_ignore st src key p, p)
  end.

End Attachments.

(** Every path that the attachment index records names a file on disk:
    what [put_pdf] establishes before it inserts, and what no operation of
    the store undoes (nothing deletes a file or an index row). *)
Definition index_consistent (st : Storage) : Prop :=
  forall src key p : str,
    pdf_seen_of st src !! key = Some p ->
    p <> [] /\ path_exists st p = true.

(** ** Naive [datetime] values *)

(** A naive [datetime]. The calendar date is held as its proleptic
    Gregorian ordinal ([date.toordinal()]), on which [weekday] and the
    addition of a [timedelta] of whole days are defined. *)
Record datetime : Type := mkDatetime {
  ordinal : Z;
  hour : Z;
  minute : Z;
  second : Z;
  microsecond : Z
}.

Definition MAXORDINAL : Z := 3652059.

Definition valid_datetime (d : datetime) : Prop :=
  1 <= ordinal d <= MAXORDINAL /\ 0 <= hour d < 24 /\ 0 <= minute d < 60
  /\ 0 <= second d < 60 /\ 0 <= microsecond d < 1000000.

(** [d.weekday()]: Monday is 0. *)
Definition weekday (d : datetime) : Z := (ordinal d + 6) mod 7.

(** [d.replace(hour=h, minute=m, second=0, microsecond=0)] *)
Definition replace_time (d : datetime) (h m : Z) : result datetime :=
  if (0 <=? h) && (h <? 24) && (0 <=? m) && (m <? 60)
  then Ok (mkDatetime (ordinal d) h m 0 0)
  else Raise ValueError.

(** [d + timedelta(days=n)] *)
Definition add_days (d : datetime) (n : Z) : result datetime :=
  if (1 <=? ordinal d + n) && (ordinal d + n <=? MAXORDINAL)
  then Ok (mkDatetime (ordinal d + n) (hour d) (minute d) (second d)
                      (microsecond d))
  else Raise OverflowError.

(** [a <= b] on naive datetimes: the order of the field tuples. *)
Definition datetime_leb (a b : datetime) : bool :=
  if negb (ordinal a =? ordinal b) then ordinal a <? ordinal b
  else if negb (hour a =? hour b) then hour a <? hour b
  else if negb (minute a =? minute b) then minute a <? minute b
  else if negb (second a =? second b) then second a <? second b
  else microsecond a <=? microsecond b.

(** Microseconds since the start of ordinal 0. *)
Definition to_microseconds (d : datetime) : Z :=
  (((ordinal d * 24 + hour d) * 60 + minute d) * 60 + second d) * 1000000
  + microsecond d.

(** A calendar date, for [isoformat]. *)
Record pydate : Type := mkDate {
  year : Z;
  month : Z;
  day : Z
}.

(** ** [scheduler.py] *)

(** [next_run_at(weekday, hour, minute)], with [datetime.now()] as [now]. *)
Definition next_run_at (now : datetime) (wd h m : Z) : result datetime :=
  let* target := replace_time now h m in
  let days_ahead := (wd - weekday target) mod 7 in
  let days_ahead :=
    if (days_ahead =? 0) && datetime_leb target now then 7 else days_ahead in
  add_days target days_ahead.

Section Scheduler.
(** The scheduler uses its store only through [put_record], which may
    raise after some of its effects; a harvester is an external
    collaborator that reads and writes the store and returns its records
    or raises. *)
Variable Store : Type.
Variable put : Store -> DocumentRecord -> Store * result unit.

Record Harvester : Type := mkHarvester {
  name : str;
  fetch_range : datetime -> datetime -> Store
                -> Store * result (list DocumentRecord)
}.

(** The inner loop of [run_once]: [except Exception] absorbs the failure
    of one record; an exception outside [Exception] ends the pass. *)
Fixpoint save_records (st : Store) (records : list DocumentRecord)
  (saved : Z) : Store * result Z :=
  match records with
  | [] => (st, Ok saved)
  | rec :: records' =>
      match put st rec with
      | (st', Ok _) => save_records st' records' (saved + 1)
      | (st', Raise e) =>
          if is_Exception e then save_records st' records' saved
          else (st', Raise e)
      end
  end.

(** The outer loop of [run_once] over the roster. *)
Fixpoint run_parsers (parsers : list Harvester) (start_dt end_dt : datetime)
  (st : Store) (total_new : Z) : Store * result Z :=
  match parsers with
  | [] => (st, Ok total_new)
  | parser :: parsers' =>
      match fetch_range parser start_dt end_dt st with
      | (st1, Raise e) =>
          if is_Exception e
          then run_parsers parsers' start_dt end_dt st1 total_new
          else (st1, Raise e)
      | (st1, Ok records) =>
          match save_records st1 records 0 with
          | (st2, Ok saved) =>
              run_parsers parsers' start_dt end_dt st2 (total_new + saved)
          | (st2, Raise e) => (st2, Raise e)
          end
      end
  end.

(** [run_once(root, days, logger)] for the roster [PARSERS], the store
    opened at [root] and the clock reading [now]. *)
Definition run_once (PARSERS : list Harvester) (now : datetime) (days : Z)
  (st : Store) : Store * result Z :=
  let end_dt := now in
  match add_days end_dt (- days) with
  | Raise e => (st, Raise e)
  | Ok start_dt => run_parsers PARSERS start_dt end_dt st 0
  end.

End Scheduler.

Arguments name {Store} _.
Arguments fetch_range {Store} _ _ _ _.
Arguments mkHarvester {Store} _ _.
Arguments save_records {Store} _ _ _ _.
Arguments run_parsers {Store} _ _ _ _ _ _.
Arguments run_once {Store} _ _ _ _ _.

(** ** Document identifiers *)

(** [str(n)] for [n >= 0]. *)
Fixpoint decimal_from (fuel : nat) (n : Z) (acc : str) : str :=
  match fuel with
  | O => acc
  | S fuel' =>
      let acc' := (48 + n mod 10) :: acc in
      if n <? 10 then acc' else decimal_from fuel' (n / 10) acc'
  end.

Definition decimal (n : Z) : str :=
  decimal_from (S (Z.to_nat (Z.log2 n))) n [].

(** The format [%0wd] for [n >= 0]. *)
Definition zero_padded (w : nat) (n : Z) : str :=
  let s := decimal n in repeat 48 (w - length s) ++ s.

(** [d.isoformat()] *)
Definition isoformat (d : pydate) : str :=
  zero_padded 4 (year d) ++ [45] ++ zero_padded 2 (month d) ++ [45]
  ++ zero_padded 2 (day d).

(** [parsers/acpr.py]: [_make_doc_id(source, url)]. *)
Definition _make_doc_id (source url : str) : result str :=
  let* bs := utf8_encode (source ++ [124] ++ url) in
  Ok (sha1_hexdigest bs).

(** [parsers/nbkz_kazakhstan.py], [fetch_range]:
    [f"{pub.date().isoformat()}_{abs(hash(url)) % (10**10)}"], in the
    process whose string-hash key is [secret]. *)
Definition nbkz_doc_id (secret : hash_secret) (pub : pydate) (url : str)
  : str :=
  isoformat pub ++ [95]
  ++ decimal (Z.abs (str_hash secret url) mod 10000000000).

(** A string of lower-case hex digits. *)
Definition is_hex_char (c : char) : bool :=
  is_digit_ascii c || ((97 <=? c) && (c <=? 102)).
Definition is_hex (s : str) : bool := forallb is_hex_char s.

(** ** Shapes of strings and of URL components *)

(** [p <= q] on pairs: not [q < p]. *)
Definition pair_le (p q : str * str) : Prop := pair_ltb q p = false.

Definition is_byte (b : Z) : Prop := 0 <= b < 256.

(** The characters of an encoded key or value. *)
Definition encoded_char (c : char) : bool :=
  always_safe c || (c =? 37) || (c =? 43).

(** The characters of an encoded query. *)
Definition encoded_query_char (c : char) : bool :=
  encoded_char c || (c =? 61) || (c =? 38).

(** A string without tab, CR and LF. *)
Definition no_tab_cr_lf (s : str) : Prop :=
  char_in 9 s = false /\ char_in 13 s = false /\ char_in 10 s = false.

(** A string that does not begin with a C0 control character or space. *)
Definition no_c0_head (s : str) : Prop :=
  match s with
  | [] => True
  | c :: _ => c0_control_or_space c = false
  end.

(** A scheme as [urlsplit] returns it: empty, or a lower-case run of
    scheme characters that begins with a letter. *)
Definition scheme_shape (s : str) : Prop :=
  s = [] \/
  (s <> [] /\ forallb is_alpha_ascii (firstn 1 s) = true
   /\ forallb scheme_char s = true /\ lower s = s).

(** The authority as [_splitnetloc] cuts it: free of [/], [?] and [#]; and
    what follows it: nothing, or a string that begins with one of them. *)
Definition netloc_shape (n : str) : Prop :=
  char_in 47 n = false /\ char_in 63 n = false /\ char_in 35 n = false.

Definition after_netloc (w : str) : Prop :=
  match w with
  | [] => True
  | c :: _ => c = 47 \/ c = 63 \/ c = 35
  end.

Section Shapes.
Context {rt : Runtime}.

(** The two bracket tests of [urlsplit] pass on a netloc. *)
Definition brackets_ok (n : str) : Prop :=
  (char_in 91 n && negb (char_in 93 n))
  || (char_in 93 n && negb (char_in 91 n)) = false
  /\ char_in 91 n && char_in 93 n && negb (bracketed_netloc_ok n) = false.

(** The path as the two cuts leave it: free of [?] and [#]. *)
Definition path_shape (p : str) : Prop :=
  char_in 63 p = false /\ char_in 35 p = false.

(** A path that follows an authority: empty or absolute. *)
Definition path_after_netloc (p : str) : Prop :=
  match p with
  | [] => True
  | c :: _ => c = 47
  end.

(** The scheme stage finds no scheme in [p], nor in [p] followed by any
    text without a colon. *)
Definition no_scheme (p : str) : Prop :=
  forall t : str,
    char_in 58 t = false -> urlsplit_scheme (p ++ t) = ([], p ++ t).

(** What holds of the scheme, netloc and path of every [SplitResult] that
    [urlsplit] returns. *)
Record wf_hier (s n p : str) : Prop := mk_wf_hier {
  wf_clean_s : no_tab_cr_lf s;
  wf_clean_n : no_tab_cr_lf n;
  wf_clean_p : no_tab_cr_lf p;
  wf_scheme : scheme_shape s;
  wf_netloc : netloc_shape n;
  wf_path : path_shape p;
  wf_abs : n <> [] -> path_after_netloc p;
  wf_rel : s = [] -> n = [] -> no_c0_head p /\ no_scheme p;
  wf_brackets : brackets_ok n;
  wf_check : _checknetloc n = Ok tt
}.

End Shapes.

(** The query as [urlunsplit] appends it. *)
Definition query_suffix (q : str) : str :=
  if negb (str_eqb q []) then [63] ++ q else [].

(** The scheme as [urlunsplit] prepends it. *)
Definition scheme_prefix (s : str) : str :=
  if negb (str_eqb s []) then s ++ [58] else [].

(** Whether [urlunsplit] writes the [//] of an authority, and the path as
    it writes it then. *)
Definition with_authority (s n p : str) : bool :=
  negb (str_eqb n [])
  || (negb (str_eqb s []) && str_in s uses_netloc
      && negb (str_eqb (firstn 2 p) [47; 47])).

Definition rooted (p : str) : str :=
  if negb (str_eqb p []) && negb (str_eqb (firstn 1 p) [47])
  then [47] ++ p else p.

(** [urlsplit] removes tabs, CR and LF everywhere, also in the fragment. *)
Definition remove_tab_cr_lf (s : str) : str :=
  replace_char 10 [] (replace_char 13 [] (replace_char 9 [] s)).

(** ** The batch of one harvester, on the local store *)

(** [storage.put_record] as the scheduler calls it. *)
Definition local_put (st : Storage) (r : DocumentRecord)
  : Storage * result unit :=
  (put_record st r, Ok tt).

(** The records of a batch that belong to the source [src]. *)
Definition of_source (src : str) (records : list DocumentRecord)
  : list DocumentRecord :=
  List.filter (fun r => str_eqb (source r) src) records.

(** The shape of the file name of a stored attachment: a single path
    component of at most 160 characters that ends in [.pdf], in any case. *)
Definition attachment_name (name : str) : Prop :=
  char_in 47 name = false /\ char_in 92 name = false
  /\ char_in 0 name = false
  /\ (length name <= 160)%nat
  /\ exists pre suf : str, name = pre ++ suf /\ lower suf = py ".pdf".

(** Every path that the attachment index of a source records lies
    directly in the [pdf] directory of that source. *)
Definition index_in_pdf_dir (st : Storage) : Prop :=
  forall src key p : str,
    pdf_seen_of st src !! key = Some p ->
    exists name : str, p = pdf_path st src name /\ attachment_name name.

(** ** [scheduler.py]: the hourly boundary and the print redirection *)

(** [d + timedelta(hours=n)] *)
Definition add_hours (d : datetime) (n : Z) : result datetime :=
  let h := hour d + n in
  let o := ordinal d + h / 24 in
  if (1 <=? o) && (o <=? MAXORDINAL)
  then Ok (mkDatetime o (h mod 24) (minute d) (second d) (microsecond d))
  else Raise OverflowError.

(** [next_hour_boundary()], with [datetime.now()] as [now]. *)
Definition next_hour_boundary (now : datetime) : result datetime :=
  add_hours (mkDatetime (ordinal now) (hour now) 0 0 0) 1.

(** A [_StreamToLogger]: its buffer, and the lines it has passed to
    [logger.log] so far, oldest first. *)
Record _StreamToLogger : Type := mkStream {
  _buf : str;
  logged : list str
}.

(** The [while "\n" in self._buf] loop of [write]; every turn removes a
    newline, so [length buf] turns are enough. *)
Fixpoint drain (fuel : nat) (buf : str) (out : list str) : str * list str :=
  match fuel with
  | O => (buf, out)
  | S fuel' =>
      match split1 10 buf with
      | (line, Some rest) =>
          let line := rstrip_by isspace line in
          drain fuel' rest
                (match line with [] => out | _ => out ++ [line] end)
      | (_, None) => (buf, out)
      end
  end.

(** [_StreamToLogger.write(msg)] *)
Definition stream_write (s : _StreamToLogger) (msg : str) : _StreamToLogger :=
  match msg with
  | [] => s
  | _ =>
      let buf := _buf s ++ msg in
      let '(buf, out) := drain (length buf) buf (logged s) in
      mkStream buf out
  end.

(** [_StreamToLogger.flush()] *)
Definition stream_flush (s : _StreamToLogger) : _StreamToLogger :=
  let tail := strip (_buf s) in
  mkStream [] (match tail with [] => logged s | _ => logged s ++ [tail] end).

(** The complete lines of a text, as [write] logs them: right-stripped,
    the blank ones left out. *)
Definition complete_lines (text : str) : list str :=
  List.filter (fun l => negb (str_eqb l []))
              (List.map (rstrip_by isspace) (removelast (split 10 text))).

(** The text behind the last newline. *)
Definition unfinished_line (text : str) : str := List.last (split 10 text) [].

(** ** [parsers/]: helpers of the harvesters *)

(** [_clean(s)]: [re.sub(r"\s+", " ", (s or "").strip())]. *)
Definition _clean (s : optstr) : str :=
  sub_runs isspace [32] (strip (or_empty s)).

Definition starts_with_space (t : str) : bool :=
  match t with
  | c :: _ => isspace c
  | [] => false
  end.

(** Every whitespace character of [t] is a U+0020 that is not followed by
    another whitespace character. *)
Fixpoint single_spaced (t : str) : bool :=
  match t with
  | [] => true
  | c :: t' =>
      (if isspace c then (c =? 32) && negb (starts_with_space t') else true)
      && single_spaced t'
  end.

Section Dedup.
Context {A : Type}.
Variable url_of : A -> str.

(** The loop that closes [_extract_news_links] and [_parse_listing]:
    an item is kept unless its URL is in [seen].
    [[
    for x in items:
        if x["url"] in seen:
            continue
        out.append(x)
        seen.add(x["url"])
    ]] *)
Fixpoint dedup_from (seen : gset str) (items : list A) : list A :=
  match items with
  | [] => []
  | x :: items' =>
      if bool_decide (url_of x ∈ seen) then dedup_from seen items'
      else x :: dedup_from ({[url_of x]} ∪ seen) items'
  end.

Definition dedup_by_url (items : list A) : list A := dedup_from ∅ items.

End Dedup.

(** ** [json.dumps] as [put_record] calls it *)

(** A naive [datetime] by its calendar fields, for [isoformat]. *)
Record pydatetime : Type := mkPyDatetime {
  dt_date : pydate;
  dt_hour : Z;
  dt_minute : Z;
  dt_second : Z;
  dt_microsecond : Z
}.

(** [d.isoformat()] on a naive [datetime]. *)
Definition datetime_isoformat (d : pydatetime) : str :=
  isoformat (dt_date d) ++ [84] ++ zero_padded 2 (dt_hour d) ++ [58]
  ++ zero_padded 2 (dt_minute d) ++ [58] ++ zero_padded 2 (dt_second d)
  ++ (if dt_microsecond d =? 0 then []
      else [46] ++ zero_padded 6 (dt_microsecond d)).

(** An object that [json] cannot serialize by itself: a [date], a
    [datetime], or any other object, given by its [str()]. *)
Inductive pyobject : Type :=
| ODate (d : pydate)
| ODatetime (d : pydatetime)
| OOther (str_of : str).

(** [_json_default(o)] *)
Definition _json_default (o : pyobject) : str :=
  match o with
  | ODatetime d => datetime_isoformat d
  | ODate d => isoformat d
  | OOther s => s
  end.

(** The values that [json.dumps] is given: [None], [bool], [int], [str],
    lists, dictionaries with [str] keys in insertion order, and objects
    that go through [default]. *)
#[warnings="-register-all"] Inductive json : Type :=
| JNull
| JBool (b : bool)
| JInt (n : Z)
| JStr (s : str)
| JList (l : list json)
| JDict (d : list (str * json))
| JOther (o : pyobject).

(** [ESCAPE_DCT] of [json.encoder]. *)
Definition escape_char (c : char) : str :=
  if c =? 34 then [92; 34]
  else if c =? 92 then [92; 92]
  else if c =? 10 then [92; 110]
  else if c =? 13 then [92; 114]
  else if c =? 9 then [92; 116]
  else if c =? 8 then [92; 98]
  else if c =? 12 then [92; 102]
  else if (0 <=? c) && (c <? 32)
  then [92; 117; 48; 48; hexdigit_lower (c / 16); hexdigit_lower (c mod 16)]
  else [c].

(** [encode_basestring(s)], the string encoder for [ensure_ascii=False]. *)
Definition encode_basestring (s : str) : str :=
  [34] ++ flat_map escape_char s ++ [34].

(** [int.__repr__] *)
Definition int_repr (n : Z) : str :=
  if n <? 0 then [45] ++ decimal (- n) else decimal n.

(** [json.dumps(v, ensure_ascii=False, default=_json_default)], with the
    default separators. *)
Fixpoint json_dumps (v : json) : str :=
  match v with
  | JNull => py "null"
  | JBool true => py "true"
  | JBool false => py "false"
  | JInt n => int_repr n
  | JStr s => encode_basestring s
  | JList l => [91] ++ join (py ", ") (List.map json_dumps l) ++ [93]
  | JDict d =>
      [123]
      ++ join (py ", ")
              (List.map (fun kv => encode_basestring (fst kv) ++ py ": "
                                   ++ json_dumps (snd kv)) d)
      ++ [125]
  | JOther o => encode_basestring (_json_default o)
  end.

Definition json_of_optstr (o : optstr) : json :=
  match o with
  | PyNone => JNull
  | PyStr s => JStr s
  end.

(** [dataclasses.asdict(record)] *)
Definition asdict (r : DocumentRecord) : json :=
  JDict [(py "doc_id", JStr (doc_id r));
         (py "source", JStr (source r));
         (py "url", JStr (url r));
         (py "title", JStr (title r));
         (py "date", json_of_optstr (date r));
         (py "language", json_of_optstr (language r));
         (py "doc_type", JStr (doc_type r));
         (py "text", JStr (text r));
         (py "pdf_urls", JList (List.map JStr (pdf_urls r)));
         (py "meta",
          JDict (List.map (fun kv => (fst kv, JStr (snd kv))) (meta r)))].

(** The text that [put_record] writes to [records.jsonl]. *)
Definition record_line (r : DocumentRecord) : str :=
  json_dumps (asdict r) ++ [10].

(** Not a C0 control character. *)
Definition printable (c : char) : bool := negb ((0 <=? c) && (c <? 32)).

(** ** [parsers/record_factory.py] *)

(** What the harvesters pass as a publication date: [None], a [datetime],
    a [date] or a [str]. *)
Inductive date_arg : Type :=
| DNone
| DDatetime (d : pydatetime)
| DDate (d : pydate)
| DStr (s : str).

(** The truth value of a [date_arg]: [None] and [""] are false. *)
Definition date_arg_truthy (x : date_arg) : bool :=
  match x with
  | DNone => false
  | DStr [] => false
  | _ => true
  end.

(** [a or b] *)
Definition date_arg_or (a b : date_arg) : date_arg :=
  if date_arg_truthy a then a else b.

(** [_to_iso_date(x)] *)
Definition _to_iso_date (x : date_arg) : optstr :=
  match x with
  | DNone => PyNone
  | DDatetime d => PyStr (isoformat (dt_date d))
  | DDate d => PyStr (isoformat d)
  | DStr x =>
      let s := strip x in
      match s with
      | [] => PyNone
      | _ =>
          let s2 := replace_char 47 [45] (replace_char 46 [45] s) in
          if (10 <=? length s2)%nat && (nth 4 s2 0 =? 45)
             && (nth 7 s2 0 =? 45)
          then PyStr (firstn 10 s2)
          else PyStr s
      end
  end.

(** The values that [make_record] hands to the constructor. *)
Inductive value : Type :=
| VNone
| VStr (s : str)
| VList (l : list str)
| VDict (d : list (str * str)).

Definition value_of_optstr (o : optstr) : value :=
  match o with
  | PyNone => VNone
  | PyStr s => VStr s
  end.

(** [kwargs[n] = v] on a dictionary held in insertion order. *)
Fixpoint dict_set (kwargs : list (str * value)) (n : str) (v : value)
  : list (str * value) :=
  match kwargs with
  | [] => [(n, v)]
  | (k, x) :: kwargs' =>
      if str_eqb k n then (k, v) :: kwargs' else (k, x) :: dict_set kwargs' n v
  end.

Definition dict_get (kwargs : list (str * value)) (n : str) : option value :=
  option_map snd (List.find (fun kv => str_eqb (fst kv) n) kwargs).

(** [_set_first(kwargs, params, names, value)] *)
Fixpoint _set_first (kwargs : list (str * value)) (params names : list str)
  (v : value) : list (str * value) :=
  match names with
  | [] => kwargs
  | n :: names' =>
      if str_in n params then dict_set kwargs n v
      else _set_first kwargs params names' v
  end.

(** [inspect.signature(DocumentRecord).parameters]: the fields of the
    dataclass, none of which has a default. *)
Definition DocumentRecord_params : list str :=
  List.map py ["doc_id"; "source"; "url"; "title"; "date"; "language";
               "doc_type"; "text"; "pdf_urls"; "meta"]%string.

(** The call of [DocumentRecord] with [kwargs] as its keyword arguments,
    for values of the kinds that [make_record] passes: [None] stands for
    the [TypeError] of a missing or an unexpected keyword. *)
Definition DocumentRecord_of_kwargs (kwargs : list (str * value))
  : option DocumentRecord :=
  if forallb (fun kv => str_in (fst kv) DocumentRecord_params) kwargs then
    match dict_get kwargs (py "doc_id"), dict_get kwargs (py "source"),
          dict_get kwargs (py "url"), dict_get kwargs (py "title"),
          dict_get kwargs (py "date"), dict_get kwargs (py "language"),
          dict_get kwargs (py "doc_type"), dict_get kwargs (py "text"),
          dict_get kwargs (py "pdf_urls"), dict_get kwargs (py "meta") with
    | Some (VStr doc_id), Some (VStr source), Some (VStr url),
      Some (VStr title), Some date, Some (VStr language),
      Some (VStr doc_type), Some (VStr text), Some (VList pdf_urls),
      Some (VDict meta) =>
        match date with
        | VNone => Some (mkRecord doc_id source url title PyNone
                                  (PyStr language) doc_type text pdf_urls
                                  meta)
        | VStr d => Some (mkRecord doc_id source url title (PyStr d)
                                   (PyStr language) doc_type text pdf_urls
                                   meta)
        | _ => None
        end
    | _, _, _, _, _, _, _, _, _, _ => None
    end
  else None.

(** [make_record(...)]; an argument that is left out is [None]. *)
Definition make_record (source doc_id url title : str)
  (published_dt published_at pub_dt date : date_arg)
  (language doc_type : str) (text text_path : optstr)
  (pdf_urls pdf_paths : option (list str))
  (meta : option (list (str * str))) : option DocumentRecord :=
  let params := DocumentRecord_params in
  let kwargs := [] in
  let kwargs := _set_first kwargs params [py "source"] (VStr source) in
  let kwargs :=
    _set_first kwargs params [py "doc_id"; py "id"] (VStr doc_id) in
  let kwargs :=
    _set_first kwargs params [py "url"; py "doc_url"; py "link"]
               (VStr url) in
  let kwargs := _set_first kwargs params [py "title"] (VStr title) in
  let dt_raw :=
    date_arg_or published_dt
                (date_arg_or published_at (date_arg_or pub_dt date)) in
  let dt_iso := _to_iso_date dt_raw in
  let kwargs :=
    _set_first kwargs params
               (List.map py ["published_at"; "published_dt"; "pub_date";
                             "publish_date"; "date"; "dt"; "published";
                             "created_at"]%string)
               (value_of_optstr dt_iso) in
  let kwargs :=
    _set_first kwargs params [py "language"; py "lang"] (VStr language) in
  let kwargs :=
    _set_first kwargs params [py "doc_type"; py "type"] (VStr doc_type) in
  let pdf_urls := default [] pdf_urls in
  let kwargs :=
    _set_first kwargs params
               [py "pdf_urls"; py "pdf_links"; py "pdf_url_list"]
               (VList pdf_urls) in
  let pdf_paths := default [] pdf_paths in
  let kwargs :=
    if str_in (py "pdf_paths") params
    then _set_first kwargs params [py "pdf_paths"] (VList pdf_paths)
    else _set_first kwargs params [py "file_path"; py "file_paths"]
                    (match pdf_paths with
                     | [] => VNone
                     | _ => VStr (join [59] pdf_paths)
                     end) in
  let kwargs :=
    match text_path with
    | PyStr (c :: p) =>
        let kwargs :=
          _set_first kwargs params [py "text_path"] (VStr (c :: p)) in
        if negb (str_in (py "text_path") params)
        then _set_first kwargs params [py "text"] (VStr (c :: p))
        else kwargs
    | _ => _set_first kwargs params [py "text"] (VStr (or_empty text))
    end in
  let kwargs :=
    _set_first kwargs params [py "meta"; py "extra"]
               (VDict (default [] meta)) in
  DocumentRecord_of_kwargs kwargs.

(** A calendar date with a year of four digits at most. *)
Definition valid_date (d : pydate) : Prop :=
  1 <= year d <= 9999 /\ 1 <= month d <= 12 /\ 1 <= day d <= 31.

(** ** [parsers/nbkz_kazakhstan.py]: [fetch_range] *)

(** An item of the listing, as [_parse_listing] builds it. *)
Record listing_item : Type := mkItem {
  it_date_dt : pydatetime;
  it_date_str : str;
  it_title : str;
  it_description : str;
  it_url : str;
  it_is_pdf : bool;
  it_language : str
}.

(** The order of naive [datetime] values is the order of their field
    tuples. *)
Definition dt_key (d : pydatetime) : list Z :=
  [year (dt_date d); month (dt_date d); day (dt_date d);
   dt_hour d; dt_minute d; dt_second d; dt_microsecond d].
Definition dt_ltb (a b : pydatetime) : bool := str_ltb (dt_key a) (dt_key b).
Definition dt_leb (a b : pydatetime) : bool := negb (dt_ltb b a).

(** [start_dt <= pub < end_dt] *)
Definition in_window (start_dt end_dt pub : pydatetime) : bool :=
  dt_leb start_dt pub && dt_ltb pub end_dt.

(** [LocalStorage.put_text]: nothing is stored, the text is returned. *)
Definition put_text (source doc_id : str) (text : optstr) : str :=
  or_empty text.

(** [a or b] on strings. *)
Definition or_str (a b : str) : str :=
  match a with
  | [] => b
  | _ => a
  end.

Definition nbkz_name : str := py "nbkz".
Definition nbkz_listing_url : str :=
  py "https://www.nationalbank.kz/en/news/grafik-prinyatiya-resheniy-po-bazovoy-stavke/rubrics/2237".

Section NBKZ.
Context {rt : Runtime}.
(** The key of the built-in [hash] in this process, and the answers of the
    network to the download of item [i] of the listing. *)
Variable secret : hash_secret.
Variable _get_binary : nat -> str -> option bytes.
Variable _extract_text_from_html : nat -> str -> str.

(** The body of the loop of [fetch_range] for item [i] of the listing:
    the store as the body leaves it, and the record that it appends to
    [out], if any. A [TypeError] of the record constructor is passed on as
    [HarvesterError]. *)
Definition nbkz_item (start_dt end_dt : pydatetime) (st : Storage) (i : nat)
  (it : listing_item) : result (Storage * option DocumentRecord) :=
  let pub := it_date_dt it in
  if negb (in_window start_dt end_dt pub) then Ok (st, None)
  else
    let url := it_url it in
    let* seen :=
      (if it_is_pdf it then pdf_seen st nbkz_name url else Ok false) in
    if seen then Ok (st, None)
    else
      let doc_id := nbkz_doc_id secret (dt_date pub) url in
      if exists_ st nbkz_name doc_id then Ok (st, None)
      else
        let title := it_title it in
        let doc_type :=
          if it_is_pdf it then py "Press Release (PDF)"
          else py "Press Release" in
        let* fetched :=
          (if it_is_pdf it then
             let* stored :=
               match _get_binary i url with
               | Some (b :: content) =>
                   let* sp :=
                     put_pdf st nbkz_name doc_id url (b :: content) in
                   Ok (fst sp, [snd sp])
               | _ => Ok (st, [])
               end in
             Ok (fst stored, [url], snd stored,
                 or_str (it_description it) title)
           else
             let text := _extract_text_from_html i url in
             Ok (st, [], [],
                 match text with
                 | [] => or_str (it_description it) title
                 | _ => text
                 end)) in
        let '(st, pdf_urls, pdf_paths, text) := fetched in
        let text_path := put_text nbkz_name doc_id (PyStr text) in
        match make_record nbkz_name doc_id url title
                DNone (DStr (datetime_isoformat pub)) DNone DNone
                (or_str (it_language it) (py "en")) doc_type
                PyNone (PyStr text_path)
                (Some pdf_urls) (Some pdf_paths)
                (Some [(py "country", py "Kazakhstan");
                       (py "source_name", py "National Bank of Kazakhstan");
                       (py "source_url", nbkz_listing_url);
                       (py "raw_date", it_date_str it)]) with
        | Some rec => Ok (st, Some rec)
        | None => Raise HarvesterError
        end.

(** [for it in listing: ...] *)
Fixpoint nbkz_loop (start_dt end_dt : pydatetime) (items : list listing_item)
  (i : nat) (st : Storage) (out : list DocumentRecord)
  : Storage * result (list DocumentRecord) :=
  match items with
  | [] => (st, Ok out)
  | it :: items' =>
      match nbkz_item start_dt end_dt st i it with
      | Raise e => (st, Raise e)
      | Ok (st', None) => nbkz_loop start_dt end_dt items' (S i) st' out
      | Ok (st', Some rec) =>
          nbkz_loop start_dt end_dt items' (S i) st' (out ++ [rec])
      end
  end.

(** [NBKZParser.fetch_range(start_dt, end_dt, storage)], for the listing
    that [_parse_listing] returns. *)
Definition nbkz_fetch_range (listing : list listing_item)
  (start_dt end_dt : pydatetime) (st : Storage)
  : Storage * result (list DocumentRecord) :=
  match listing with
  | [] => (st, Ok [])
  | _ => nbkz_loop start_dt end_dt listing 0 st []
  end.

End NBKZ.

(** What the index and the log of the store keep from one state to a later
    one: the log and the document index are the same, and every entry of
    the attachment index is still there. *)
Definition store_grows (st st' : Storage) : Prop :=
  records_jsonl st' = records_jsonl st
  /\ seen_table st' = seen_table st
  /\ forall src key q : str,
       pdf_seen_of st src !! key = Some q ->
       pdf_seen_of st' src !! key = Some q.

(** What [fetch_range] tells of a record that it returns: the item of the
    listing that it was built from. *)
Definition built_from (secret : hash_secret) (it : listing_item)
  (r : DocumentRecord) : Prop :=
  source r = nbkz_name
  /\ url r = it_url it
  /\ doc_id r = nbkz_doc_id secret (dt_date (it_date_dt it)) (it_url it)
  /\ title r = it_title it
  /\ date r = _to_iso_date (DStr (datetime_isoformat (it_date_dt it))).

Section Skipped.
Context {rt : Runtime}.

(** Why the loop passes over an item, in a given state of the store: it
    lies outside the window, or its attachment is in the index, or its id
    is marked seen. *)
Definition skipped (secret : hash_secret) (start_dt end_dt : pydatetime)
  (st : Storage) (it : listing_item) : Prop :=
  in_window start_dt end_dt (it_date_dt it) = false
  \/ (it_is_pdf it = true /\ pdf_seen st nbkz_name (it_url it) = Ok true)
  \/ ((it_is_pdf it = true ->
       exists b : bool, pdf_seen st nbkz_name (it_url it) = Ok b)
      /\ exists_ st nbkz_name
                 (nbkz_doc_id secret (dt_date (it_date_dt it)) (it_url it))
         = true).

End Skipped.

(** What [fetch_range] has done with an item of the listing when it
    returns [out]: passed over it, or appended a record with its id. *)
Definition settled {rt : Runtime} (secret : hash_secret)
  (start_dt end_dt : pydatetime) (st : Storage) (out : list DocumentRecord)
  (it : listing_item) : Prop :=
  skipped secret start_dt end_dt st it
  \/ ((it_is_pdf it = true ->
       exists b : bool, pdf_seen st nbkz_name (it_url it) = Ok b)
      /\ exists r : DocumentRecord,
           In r out /\ source r = nbkz_name
           /\ doc_id r
              = nbkz_doc_id secret (dt_date (it_date_dt it)) (it_url it)).

(** What [fetch_range] guarantees of a record that it returns: it was
    built from an item of the listing that lies in the window, and its id
    was not marked seen when [fetch_range] was called. *)
Definition new_record (secret : hash_secret) (listing : list listing_item)
  (start_dt end_dt : pydatetime) (st : Storage) (r : DocumentRecord) : Prop :=
  exists it : listing_item,
    In it listing /\ built_from secret it r
    /\ in_window start_dt end_dt (it_date_dt it) = true
    /\ exists_ st nbkz_name (doc_id r) = false.

(** ** [master.py] *)

Section Master.
Variable Store : Type.
Variable put : Store -> DocumentRecord -> Store * result unit.

(** [for rec in records: storage.put_record(rec)], without a handler. *)
Fixpoint put_all (st : Store) (records : list DocumentRecord)
  : Store * result unit :=
  match records with
  | [] => (st, Ok tt)
  | rec :: records' =>
      match put st rec with
      | (st', Ok _) => put_all st' records'
      | (st', Raise e) => (st', Raise e)
      end
  end.

(** The loop of [run_last_week] over the roster; the number is [total]. *)
Fixpoint run_roster (parsers : list (Harvester Store))
  (start_dt end_dt : datetime) (st : Store) (total : Z)
  : Store * result Z :=
  match parsers with
  | [] => (st, Ok total)
  | parser :: parsers' =>
      match fetch_range parser start_dt end_dt st with
      | (st1, Raise e) => (st1, Raise e)
      | (st1, Ok records) =>
          match put_all st1 records with
          | (st2, Raise e) => (st2, Raise e)
          | (st2, Ok _) =>
              run_roster parsers' start_dt end_dt st2
                         (total + Z.of_nat (length records))
          end
      end
  end.

(** [run_last_week()] for the roster [PARSERS], the store opened at
    ["data"] and the clock reading [now]; the window is 60 days. The
    function returns [None]: the number is the total that its last
    [print] shows. *)
Definition run_last_week (PARSERS : list (Harvester Store)) (now : datetime)
  (st : Store) : Store * result Z :=
  let end_dt := now in
  match add_days end_dt (- 60) with
  | Raise e => (st, Raise e)
  | Ok start_dt => run_roster PARSERS start_dt end_dt st 0
  end.

End Master.

Arguments put_all {Store} _ _ _.
Arguments run_roster {Store} _ _ _ _ _ _.
Arguments run_last_week {Store} _ _ _ _.

(** ** The pass of [run_once] over the local store *)

(** The record is a line of the log of its source. *)
Definition in_log (st : Storage) (r : DocumentRecord) : Prop :=
  In r (lines_of st (source r)).

(** The log of every source in [st'] begins with its log in [st]. *)
Definition log_extends (st st' : Storage) : Prop :=
  forall src : str,
    exists more : list DocumentRecord,
      lines_of st' src = lines_of st src ++ more.

(** [storage.put_record] as the scheduler meets it on a disk that can fail:
    the call completes, or it raises an [Exception] after the first [k] of
    its effects. *)
Definition put_record_or_raise
  (put : Storage -> DocumentRecord -> Storage * result unit) : Prop :=
  forall (st : Storage) (r : DocumentRecord),
    put st r = (put_record st r, Ok tt)
    \/ exists (k : nat) (e : exn),
         is_Exception e = true
         /\ put st r = (put_record_crash k st r, Raise e).

(** In no state of the store does [put] raise on the record. *)
Definition always_saved
  (put : Storage -> DocumentRecord -> Storage * result unit)
  (r : DocumentRecord) : Prop :=
  forall st : Storage, snd (put st r) = Ok tt.

(** A harvester as the ones under [parsers/]: it uses the store through
    [exists], [pdf_seen], [put_pdf] and [put_text], which leave the record
    log as it is; and what it raises is an [Exception]. *)
Definition keeps_log (B : Harvester Storage) : Prop :=
  forall (start_dt end_dt : datetime) (st : Storage),
    records_jsonl (fst (fetch_range B start_dt end_dt st)) = records_jsonl st
    /\ forall e : exn,
         snd (fetch_range B start_dt end_dt st) = Raise e ->
         is_Exception e = true.

(** ** Example data *)

Definition example_record (id : str) : DocumentRecord :=
  mkRecord id (py "ACPR") (py "https://acpr.example/news/1") (py "News")
           PyNone PyNone (py "news") [] [] [].

Definition example_store : Storage := LocalStorage (py "data").

(** A [put_record] on a disk that fails, after the line is written, for
    the record whose id is ["bad"]. *)
Definition flaky_put (st : Storage) (r : DocumentRecord)
  : Storage * result unit :=
  if str_eqb (doc_id r) (py "bad") then (append_line st r, Raise OSError)
  else (put_record st r, Ok tt).

(** A harvester whose [fetch_range] raises, and one that returns three
    records. *)
Definition crashing_harvester : Harvester Storage :=
  mkHarvester (py "A") (fun _ _ st => (st, Raise HarvesterError)).

Definition healthy_harvester : Harvester Storage :=
  mkHarvester (py "B")
    (fun _ _ st => (st, Ok [example_record (py "r1");
                           example_record (py "bad");
                           example_record (py "r2")])).

Definition example_now : datetime := mkDatetime 738887 10 30 15 0.

(** A runtime for the examples. Its tables are read only for non-ASCII
    characters and for bracketed hosts, which no example contains. *)
Definition plain_runtime : Runtime :=
  {| isalnum := fun _ => false;
     nfkc := fun s => s;
     bracketed_netloc_ok := fun _ => false |}.

(** ** Example data for the harvester *)

(** A listing of three items: a page and an attachment of January 2024,
    and a page of 2023. *)
Definition example_listing : list listing_item :=
  [mkItem (mkPyDatetime (mkDate 2024 1 3) 0 0 0 0) (py "03.01.2024")
          (py "Base rate") (py "Decision") (py "https://nb.example/news/1")
          false (py "en");
   mkItem (mkPyDatetime (mkDate 2024 1 5) 0 0 0 0) (py "05.01.2024")
          (py "Schedule") [] (py "https://nb.example/file/download/7")
          true [];
   mkItem (mkPyDatetime (mkDate 2023 6 1) 0 0 0 0) (py "01.06.2023")
          (py "Old") [] (py "https://nb.example/news/0") false (py "en")].

Definition example_start : pydatetime := mkPyDatetime (mkDate 2024 1 1) 0 0 0 0.
Definition example_end : pydatetime := mkPyDatetime (mkDate 2024 2 1) 9 30 0 0.

(** A network that answers every download, and one that answers none. *)
Definition example_binary : nat -> str -> option bytes :=
  fun _ _ => Some [37; 80; 68; 70].
Definition example_text : nat -> str -> str := fun _ _ => py "The rate stays.".
Definition no_binary : nat -> str -> option bytes := fun _ _ => None.
Definition no_text : nat -> str -> str := fun _ _ => [].

(** The first item of the example listing, and the record that the
    harvester builds from it in a process whose hash key is all zero. *)
Definition example_page : listing_item :=
  mkItem (mkPyDatetime (mkDate 2024 1 3) 0 0 0 0) (py "03.01.2024")
         (py "Base rate") (py "Decision") (py "https://nb.example/news/1")
         false (py "en").

Definition example_page_record : DocumentRecord :=
  mkRecord (py "2024-01-03_9954214499") nbkz_name
           (py "https://nb.example/news/1") (py "Base rate")
           (PyStr (py "2024-01-03")) (PyStr (py "en")) (py "Press Release")
           (py "The rate stays.") []
           [(py "country", py "Kazakhstan");
            (py "source_name", py "National Bank of Kazakhstan");
            (py "source_url", nbkz_listing_url);
            (py "raw_date", py "03.01.2024")].

(** * Properties *)

(** ** The canonicalizer on empty input *)

Section EmptyInput.
Context {rt : Runtime}.

(** C6, as amended. Whenever stripping leaves nothing of the argument (it
    is [None], empty or all whitespace), [_normalize_pdf_url] returns the
    empty string and does not raise. *)
Theorem normalize_blank_is_empty (pdf_url : optstr) :
  strip (or_empty pdf_url) = [] ->
  _normalize_pdf_url pdf_url = Ok [].
Proof.
  intros Hblank. unfold _normalize_pdf_url. rewrite Hblank. reflexivity.
Qed.

End EmptyInput.

(** C6 at [None], at the empty string and at a blank string. *)
Lemma normalize_blank_is_empty_witness :
  @_normalize_pdf_url plain_runtime PyNone = Ok []
  /\ @_normalize_pdf_url plain_runtime (PyStr []) = Ok []
  /\ @_normalize_pdf_url plain_runtime (PyStr (py " ")) = Ok [].
Proof.
  split; [|split]; apply normalize_blank_is_empty; reflexivity.
Defined.

(** C6 as stated fails: for [None] the value returned is the string [""],
    which is not [None]. *)
Lemma normalize_none_is_not_none :
  exists r : str,
    (forall rt : Runtime, _normalize_pdf_url PyNone = Ok r)
    /\ PyStr r <> PyNone.
Proof.
  exists []. split; [reflexivity | discriminate].
Qed.

(** ** The next weekly fire time *)

Lemma datetime_leb_spec (a b : datetime) :
  valid_datetime a -> valid_datetime b ->
  datetime_leb a b = true <-> to_microseconds a <= to_microseconds b.
Proof.
  unfold valid_datetime, datetime_leb, to_microseconds.
  destruct a as [oa ha ma sa ua], b as [ob hb mb sb ub]; simpl.
  intros (Ho & Hh & Hm & Hs & Hu) (Ho' & Hh' & Hm' & Hs' & Hu').
  repeat match goal with
         | |- context [negb (?x =? ?y)] => destruct (Z.eqb_spec x y); simpl
         end;
    rewrite ?Z.ltb_lt, ?Z.leb_le; subst; nia.
Qed.

(** C10. For a weekday in 0..6, an hour in 0..23 and a minute in 0..59,
    [next_run_at] returns a datetime that is strictly later than the
    current time and at most seven days after it, that falls on the
    given weekday at the given hour and minute, with zero seconds and
    microseconds. (The current time is at least seven days before
    [datetime.max], so that the result is a [datetime].) *)
Theorem next_run_at_spec (now : datetime) (wd h m : Z) :
  valid_datetime now ->
  ordinal now + 7 <= MAXORDINAL ->
  0 <= wd < 7 -> 0 <= h < 24 -> 0 <= m < 60 ->
  exists r : datetime,
    next_run_at now wd h m = Ok r
    /\ valid_datetime r
    /\ datetime_leb r now = false
    /\ to_microseconds now < to_microseconds r
       <= to_microseconds now + 7 * 86400 * 1000000
    /\ weekday r = wd /\ hour r = h /\ minute r = m
    /\ second r = 0 /\ microsecond r = 0.
Proof.
  intros Hnow Hmax Hwd Hh Hm.
  pose proof Hnow as (Ho & Hnh & Hnm & Hns & Hnu).
  unfold next_run_at, replace_time.
  replace ((0 <=? h) && (h <? 24) && (0 <=? m) && (m <? 60)) with true
    by (symmetry; rewrite !andb_true_iff, !Z.leb_le, !Z.ltb_lt; lia).
  cbn [bind].
  set (target := mkDatetime (ordinal now) h m 0 0).
  assert (Htarget : valid_datetime target)
    by (unfold valid_datetime, target; simpl; lia).
  set (d0 := (wd - weekday target) mod 7).
  assert (Hd0 : 0 <= d0 < 7) by (apply Z.mod_pos_bound; lia).
  set (days := if (d0 =? 0) && datetime_leb target now then 7 else d0).
  assert (Hdays : 0 <= days <= 7)
    by (unfold days; destruct ((d0 =? 0) && datetime_leb target now); lia).
  assert (Hlate : days = 0 -> to_microseconds now < to_microseconds target).
  { unfold days. destruct (Z.eqb_spec d0 0) as [E|E]; simpl.
    - destruct (datetime_leb target now) eqn:Hle; [lia|].
      intros _. destruct (Z.lt_ge_cases (to_microseconds now)
                                        (to_microseconds target)); [done|].
      apply datetime_leb_spec in H; [congruence|done|done].
    - intros ->. lia. }
  assert (Hwk : (ordinal now + days + 6) mod 7 = wd).
  { assert (Hd : days mod 7 = d0).
    { unfold days. destruct ((d0 =? 0) && datetime_leb target now) eqn:E.
      - apply andb_true_iff in E as [E _]. apply Z.eqb_eq in E.
        rewrite E. reflexivity.
      - apply Z.mod_small. lia. }
    unfold d0, weekday, target in Hd. simpl in Hd.
    clear - Hd Hwd. Z.div_mod_to_equations. lia. }
  unfold add_days.
  replace ((1 <=? ordinal target + days)
           && (ordinal target + days <=? MAXORDINAL)) with true
    by (symmetry; rewrite andb_true_iff, !Z.leb_le; unfold target; simpl;
        lia).
  eexists. split; [reflexivity|].
  set (r := mkDatetime _ _ _ _ _).
  assert (Hr : valid_datetime r)
    by (unfold valid_datetime, r, target; simpl; lia).
  assert (Hus : to_microseconds now < to_microseconds r
                <= to_microseconds now + 7 * 86400 * 1000000).
  { assert (Hd7 : days = 7 -> to_microseconds target <= to_microseconds now).
    { unfold days. destruct ((d0 =? 0) && datetime_leb target now) eqn:E7.
      - intros _. apply andb_true_iff in E7 as [_ E7].
        apply datetime_leb_spec in E7; done.
      - lia. }
    clearbody days. clear Hwk d0 Hd0.
    unfold to_microseconds, r, target in *. simpl in *.
    destruct (Z.eq_dec days 0) as [E|E]; [specialize (Hlate E)|];
      (destruct (Z.eq_dec days 7) as [E'|E']; [specialize (Hd7 E')|]);
      lia. }
  split; [done|]. split.
  { destruct (datetime_leb r now) eqn:E; [|done].
    apply datetime_leb_spec in E; [lia|done|done]. }
  split; [done|]. unfold weekday, r, target. simpl.
  split; [|done]. rewrite <- Hwk; f_equal; lia.
Qed.

(** C10 on Tuesday 2024-01-02 10:30:15 (ordinal 738887), asking for
    Tuesday 09:00: the answer is the Tuesday of the week after. *)
Lemma next_run_at_spec_witness :
  exists r : datetime,
    next_run_at example_now 1 9 0 = Ok r
    /\ valid_datetime r
    /\ datetime_leb r example_now = false
    /\ to_microseconds example_now < to_microseconds r
       <= to_microseconds example_now
          + 7 * 86400 * 1000000
    /\ weekday r = 1 /\ hour r = 9 /\ minute r = 0
    /\ second r = 0 /\ microsecond r = 0.
Proof.
  apply (next_run_at_spec example_now 1 9 0);
    unfold valid_datetime, MAXORDINAL; simpl; lia.
Defined.

(** ** The scheduler's failure boundaries *)

Section Isolation.
Variable Store : Type.
Variable put : Store -> DocumentRecord -> Store * result unit.

Lemma save_records_saved (st : Store) (rec : DocumentRecord)
  (records : list DocumentRecord) (st1 : Store) (saved : Z) :
  put st rec = (st1, Ok tt) ->
  save_records put st (rec :: records) saved
  = save_records put st1 records (saved + 1).
Proof. intros H. simpl. rewrite H. reflexivity. Qed.

(** The count of a pass is added to the total carried in. *)
Lemma save_records_shift (records : list DocumentRecord) (st : Store)
  (saved k : Z) :
  save_records put st records (saved + k)
  = (fst (save_records put st records saved),
     rmap (fun n => n + k) (snd (save_records put st records saved))).
Proof.
  revert st saved. induction records as [|rec records IH]; intros st saved.
  - reflexivity.
  - simpl. destruct (put st rec) as [st1 [[]|e]].
    + replace (saved + k + 1) with (saved + 1 + k) by lia. apply IH.
    + destruct (is_Exception e); [apply IH | reflexivity].
Qed.

Lemma run_parsers_shift (parsers : list (Harvester Store))
  (start_dt end_dt : datetime) (st : Store) (total k : Z) :
  run_parsers put parsers start_dt end_dt st (total + k)
  = (fst (run_parsers put parsers start_dt end_dt st total),
     rmap (fun n => n + k)
          (snd (run_parsers put parsers start_dt end_dt st total))).
Proof.
  revert st total. induction parsers as [|p parsers IH]; intros st total.
  - reflexivity.
  - simpl. destruct (fetch_range p start_dt end_dt st) as [st1 [recs|e]].
    + destruct (save_records put st1 recs 0) as [st2 [saved|e]].
      * replace (total + k + saved) with (total + saved + k) by lia.
        apply IH.
      * reflexivity.
    + destruct (is_Exception e); [apply IH | reflexivity].
Qed.

End Isolation.

(** ** The record log and the document index *)

Lemma lines_of_append_line (st : Storage) (r : DocumentRecord) :
  lines_of (append_line st r) (source r) = lines_of st (source r) ++ [r].
Proof. unfold lines_of at 1. simpl. rewrite lookup_insert_eq. reflexivity. Qed.

Lemma seen_of_append_line (st : Storage) (r : DocumentRecord) (src : str) :
  seen_of (append_line st r) src = seen_of st src.
Proof. reflexivity. Qed.

Lemma lines_of_mark_seen (st : Storage) (src id src' : str) :
  lines_of (mark_seen st src id) src' = lines_of st src'.
Proof. reflexivity. Qed.

Lemma seen_of_mark_seen (st : Storage) (src id : str) :
  seen_of (mark_seen st src id) src = {[id]} ∪ seen_of st src.
Proof. unfold seen_of at 1. simpl. rewrite lookup_insert_eq. reflexivity. Qed.

Lemma exists_mark_seen (st : Storage) (src id : str) :
  exists_ (mark_seen st src id) src id = true.
Proof.
  unfold exists_. rewrite seen_of_mark_seen.
  apply bool_decide_eq_true. set_solver.
Qed.

Lemma entries_append_line (st : Storage) (r : DocumentRecord) :
  entries (append_line st r) (source r) (doc_id r)
  = S (entries st (source r) (doc_id r)).
Proof.
  unfold entries. rewrite lines_of_append_line, List.filter_app, length_app.
  simpl. unfold str_eqb. rewrite bool_decide_eq_true_2 by reflexivity.
  simpl. lia.
Qed.

Lemma entries_mark_seen (st : Storage) (src id src' id' : str) :
  entries (mark_seen st src id) src' id' = entries st src' id'.
Proof. reflexivity. Qed.

(** [mark_seen] is idempotent: [INSERT OR IGNORE]. *)
Lemma mark_seen_idempotent (st : Storage) (src id : str) :
  mark_seen (mark_seen st src id) src id = mark_seen st src id.
Proof.
  unfold mark_seen at 1. rewrite seen_of_mark_seen. simpl.
  rewrite insert_insert_eq.
  rewrite (assoc_L (∪)), union_idemp_L. reflexivity.
Qed.

Lemma put_record_unfold (st : Storage) (r : DocumentRecord) :
  put_record st r = mark_seen (append_line st r) (source r) (doc_id r).
Proof. reflexivity. Qed.

(** C1, as amended. [put_record] does not consult the index: each call
    appends one line to the log of the record's source, so a second call
    with the same record leaves two lines; it marks the id seen, so that
    [exists] is true after the first call and the index is the same after
    the second. *)
Theorem put_record_appends_and_marks (st : Storage) (r : DocumentRecord) :
  exists_ (put_record st r) (source r) (doc_id r) = true
  /\ entries (put_record st r) (source r) (doc_id r)
     = S (entries st (source r) (doc_id r))
  /\ entries (put_record (put_record st r) r) (source r) (doc_id r)
     = S (S (entries st (source r) (doc_id r)))
  /\ seen_table (put_record (put_record st r) r)
     = seen_table (put_record st r).
Proof.
  rewrite !put_record_unfold.
  split; [apply exists_mark_seen|]. split.
  { rewrite entries_mark_seen. apply entries_append_line. }
  split.
  { rewrite entries_mark_seen, entries_append_line, entries_mark_seen,
      entries_append_line. reflexivity. }
  set (st1 := mark_seen (append_line st r) (source r) (doc_id r)).
  change (seen_table (mark_seen (append_line st1 r) (source r) (doc_id r)))
    with (seen_table (mark_seen st1 (source r) (doc_id r))).
  unfold st1. rewrite mark_seen_idempotent. reflexivity.
Qed.

(** C1 as stated fails: in a fresh store the second [put_record] of a
    record finds [exists] true and still appends; the log then holds two
    entries for the id. *)
Lemma put_record_twice_two_entries :
  exists_ (put_record example_store (example_record (py "d1")))
          (py "ACPR") (py "d1") = true
  /\ entries (put_record (put_record example_store (example_record (py "d1")))
                         (example_record (py "d1")))
             (py "ACPR") (py "d1") = 2%nat
  /\ put_record (put_record example_store (example_record (py "d1")))
                (example_record (py "d1"))
     <> put_record example_store (example_record (py "d1")).
Proof.
  split; [vm_compute; reflexivity|].
  split; [vm_compute; reflexivity|].
  intros H. apply (f_equal (fun st => entries st (py "ACPR") (py "d1"))) in H.
  vm_compute in H. discriminate.
Qed.

(** ** Splitting at a character *)

Lemma find_Some (c : char) (s : str) (i : nat) :
  find c s = Some i ->
  s = firstn i s ++ c :: skipn (S i) s /\ char_in c (firstn i s) = false.
Proof.
  unfold find. revert i. induction s as [|x s IH]; intros i; simpl.
  - discriminate.
  - destruct (Z.eqb_spec x c) as [->|Hne].
    + intros [= <-]. simpl. split; reflexivity.
    + destruct (find_from c s 0) as [j|]; simpl; [|discriminate].
      intros [= <-]. destruct (IH j eq_refl) as [Hs Hin].
      simpl. split.
      * f_equal. exact Hs.
      * rewrite Hin. destruct (Z.eqb_spec c x); [congruence|reflexivity].
Qed.

Lemma find_None (c : char) (s : str) :
  find c s = None <-> char_in c s = false.
Proof.
  unfold find, char_in. induction s as [|x s IH]; simpl.
  - tauto.
  - rewrite (Z.eqb_sym c x). destruct (x =? c); simpl.
    + split; discriminate.
    + rewrite <- IH. destruct (find_from c s 0); simpl; split;
        (discriminate || reflexivity).
Qed.

Lemma char_in_app (c : char) (a b : str) :
  char_in c (a ++ b) = char_in c a || char_in c b.
Proof. apply existsb_app. Qed.

Lemma char_in_rev (c : char) (s : str) : char_in c (rev s) = char_in c s.
Proof.
  induction s as [|x s IH]; [reflexivity|].
  simpl. rewrite char_in_app, IH. simpl. rewrite orb_false_r, orb_comm.
  reflexivity.
Qed.

Lemma rsplit1_Some (c : char) (s base ext : str) :
  rsplit1 c s = (base, Some ext) ->
  s = base ++ c :: ext /\ char_in c ext = false.
Proof.
  unfold rsplit1, split1. destruct (find c (rev s)) as [i|] eqn:Hfind.
  - intros [= <- <-]. apply find_Some in Hfind as [Hrev Hin].
    split.
    + rewrite <- (rev_involutive s), Hrev at 1.
      rewrite rev_app_distr. simpl. rewrite <- app_assoc. reflexivity.
    + rewrite char_in_rev. exact Hin.
  - discriminate.
Qed.

Lemma rsplit1_None (c : char) (s base : str) :
  rsplit1 c s = (base, None) -> char_in c s = false /\ base = s.
Proof.
  unfold rsplit1, split1. destruct (find c (rev s)) as [i|] eqn:Hfind.
  - discriminate.
  - intros [= <-]. apply find_None in Hfind. rewrite char_in_rev in Hfind.
    split; [exact Hfind | reflexivity].
Qed.

Lemma extension_None (s : str) :
  extension s = None <-> char_in 46 s = false.
Proof.
  unfold extension. destruct (rsplit1 46 s) as [base [ext|]] eqn:E.
  - apply rsplit1_Some in E as [-> _]. rewrite char_in_app. simpl.
    rewrite orb_true_r. split; discriminate.
  - apply rsplit1_None in E as [E _]. tauto.
Qed.

Lemma length_slice_to (s : str) (n : Z) :
  0 <= n -> Z.of_nat (length (slice_to s n)) <= n.
Proof.
  intros Hn. unfold slice_to. destruct (Z.ltb_spec n 0); [lia|].
  rewrite length_firstn. lia.
Qed.

(** ** File names *)

Section SafeFilename.
Context {rt : Runtime}.

(** C9, as amended. The name that [_safe_filename] returns ends with the
    extension of the sanitized name (its last dot and what follows), and it
    is at most [max_len] long whenever [max_len] is not negative and that
    extension, dot included, is itself at most [max_len] long. *)
Theorem safe_filename_truncation (name : str) (max_len : Z) :
  (forall ext : str,
      extension (sanitize name) = Some ext ->
      exists pre : str, _safe_filename name max_len = pre ++ ext)
  /\ (0 <= max_len ->
      (forall ext : str,
          extension (sanitize name) = Some ext ->
          Z.of_nat (length ext) <= max_len) ->
      Z.of_nat (length (_safe_filename name max_len)) <= max_len).
Proof.
  unfold _safe_filename, truncate. set (s := sanitize name).
  destruct (Z.ltb_spec max_len (Z.of_nat (length s))) as [Hlong|Hshort].
  - destruct (char_in 46 s) eqn:Hdot.
    + destruct (rsplit1 46 s) as [base [e|]] eqn:Hsplit.
      * split.
        -- intros ext Hext. unfold extension in Hext. rewrite Hsplit in Hext.
           injection Hext as <-. eexists. reflexivity.
        -- intros Hmax Hext.
           specialize (Hext ([46] ++ e)). unfold extension in Hext.
           rewrite Hsplit in Hext. specialize (Hext eq_refl).
           rewrite length_app.
           pose proof (length_slice_to base
                         (max_len - Z.of_nat (length ([46] ++ e)))
                         ltac:(lia)).
           lia.
      * apply rsplit1_None in Hsplit as [Hno _]. congruence.
    + split.
      * intros ext Hext. apply extension_None in Hdot. congruence.
      * intros Hmax _. rewrite app_nil_r.
        change (Z.of_nat (length (@nil Z))) with 0. rewrite Z.sub_0_r.
        apply length_slice_to. exact Hmax.
  - split.
    + intros ext Hext. unfold extension in Hext.
      destruct (rsplit1 46 s) as [base [e|]] eqn:Hsplit; [|discriminate].
      injection Hext as <-. apply rsplit1_Some in Hsplit as [Hs _].
      exists base. exact Hs.
    + intros _ _. lia.
Qed.

End SafeFilename.

(** C9 on a name of 13 characters cut to 8: the base is shortened, the
    extension kept. *)
Lemma safe_filename_truncation_witness :
  (exists pre : str,
      @_safe_filename plain_runtime (py "quarterly.pdf") 8
      = pre ++ py ".pdf")
  /\ Z.of_nat (length (@_safe_filename plain_runtime (py "quarterly.pdf") 8))
     <= 8.
Proof.
  pose proof (@safe_filename_truncation plain_runtime (py "quarterly.pdf") 8)
    as [Hext Hlen].
  split.
  - apply Hext. reflexivity.
  - apply Hlen; [lia|]. intros ext [= <-]. vm_compute. discriminate.
Defined.

(** C9 as stated fails: when the extension is longer than the limit, the
    slice index [max_len - len(ext)] is negative, the base loses its last
    characters instead, and the result is longer than [max_len]. *)
Lemma safe_filename_exceeds_max_len :
  exists out : str,
    (forall rt : Runtime, _safe_filename (py "a.bcdefghij") 5 = out)
    /\ out = py ".bcdefghij"
    /\ 5 < Z.of_nat (length out).
Proof.
  exists (py ".bcdefghij"). split; [|split].
  - intros rt. vm_compute. reflexivity.
  - reflexivity.
  - vm_compute. reflexivity.
Qed.

(** ** Document identifiers *)

Lemma is_hex_char_hexdigit_lower (d : Z) :
  0 <= d < 16 -> is_hex_char (hexdigit_lower d) = true.
Proof.
  intros Hd. unfold is_hex_char, hexdigit_lower, is_digit_ascii.
  destruct (Z.ltb_spec d 10);
    rewrite orb_true_iff, !andb_true_iff, !Z.leb_le; lia.
Qed.

Lemma length_hex8 (w : Z) : length (hex8 w) = 8%nat.
Proof. reflexivity. Qed.

Lemma is_hex_hex8 (w : Z) : is_hex (hex8 w) = true.
Proof.
  unfold is_hex, hex8. apply forallb_forall. intros c Hc.
  apply in_map_iff in Hc as (i & <- & _).
  apply is_hex_char_hexdigit_lower. apply Z.mod_pos_bound. lia.
Qed.

Lemma is_hex_app (a b : str) : is_hex (a ++ b) = is_hex a && is_hex b.
Proof. apply forallb_app. Qed.

Lemma sha1_hexdigest_format (msg : bytes) :
  length (sha1_hexdigest msg) = 40%nat /\ is_hex (sha1_hexdigest msg) = true.
Proof.
  unfold sha1_hexdigest. destruct (sha1 msg) as [[[[h0 h1] h2] h3] h4].
  split.
  - rewrite !length_app, !length_hex8. reflexivity.
  - rewrite !is_hex_app, !is_hex_hex8. reflexivity.
Qed.

(** The identifier that ACPR's [_make_doc_id] (and the harvesters that use
    the same expression) derives is computed from the source name and the
    URL alone, and is a string of 40 lower-case hex digits; the only
    failure is the [UnicodeEncodeError] of a lone surrogate. *)
Lemma make_doc_id_format (source url : str) :
  match _make_doc_id source url with
  | Ok id => length id = 40%nat /\ is_hex id = true
  | Raise e => e = UnicodeEncodeError
  end.
Proof.
  unfold _make_doc_id.
  assert (Henc : forall s, match utf8_encode s with
                           | Ok _ => True
                           | Raise e => e = UnicodeEncodeError
                           end).
  { induction s as [|c s IH]; simpl; [exact I|].
    destruct (utf8_encode_char c); [|reflexivity].
    destruct (utf8_encode s); [exact I | exact IH]. }
  specialize (Henc (source ++ [124] ++ url)).
  destruct (utf8_encode (source ++ [124] ++ url)) as [bs|e]; simpl.
  - apply sha1_hexdigest_format.
  - exact Henc.
Qed.

(** C3 fails at the NBKZ harvester, which derives the identifier with the
    built-in [hash]. [hash] on a [str] is keyed per process: for the same
    URL and date the identifier differs between a process started with
    [PYTHONHASHSEED=0] (the all-zero key) and one started with
    [PYTHONHASHSEED=1]; neither identifier is a hex string, and the two
    differ in length. The expression of the sibling harvesters,
    [_make_doc_id], has no key: at the same URL it gives the same 40 hex
    digits in every process. *)
Theorem nbkz_doc_id_not_deterministic :
  nbkz_doc_id (0, 0) (mkDate 2024 1 3) (py "https://x")
  = py "2024-01-03_272707938"
  /\ nbkz_doc_id (12598376723466036009, 16999324916296290386)
                 (mkDate 2024 1 3) (py "https://x")
     = py "2024-01-03_7423299621"
  /\ py "2024-01-03_272707938" <> py "2024-01-03_7423299621"
  /\ is_hex (py "2024-01-03_272707938") = false
  /\ length (py "2024-01-03_272707938")
     <> length (py "2024-01-03_7423299621")
  /\ _make_doc_id (py "nbkz") (py "https://x")
     = Ok (py "202cb30f20eea586fce710a49580f5b05a647c82").
Proof.
  split; [vm_compute; reflexivity|].
  split; [vm_compute; reflexivity|].
  split; [vm_compute; discriminate|].
  split; [vm_compute; reflexivity|].
  split; [vm_compute; discriminate|].
  vm_compute. reflexivity.
Qed.
(** ** The attachment store *)

Lemma index_consistent_fresh (root : str) :
  index_consistent (LocalStorage root).
Proof.
  intros src key p H. unfold pdf_seen_of in H. simpl in H.
  rewrite lookup_empty in H. simpl in H. rewrite lookup_empty in H.
  discriminate.
Qed.

Lemma index_consistent_put_record (st : Storage) (r : DocumentRecord) :
  index_consistent st -> index_consistent (put_record st r).
Proof. intros H src key p Hp. exact (H src key p Hp). Qed.

Lemma pdf_path_nonempty (st : Storage) (src name : str) :
  pdf_path st src name <> [].
Proof.
  unfold pdf_path. intros H. apply (f_equal (@length Z)) in H.
  rewrite !length_app in H. simpl in H. lia.
Qed.

Lemma pdf_seen_of_insert (st : Storage) (src key p src' : str) :
  pdf_seen_of st src !! key = None ->
  pdf_seen_of (insert_or_ignore st src key p) src'
  = if decide (src = src') then <[key := p]> (pdf_seen_of st src)
    else pdf_seen_of st src'.
Proof.
  intros Hnone. unfold insert_or_ignore. rewrite Hnone.
  unfold pdf_seen_of at 1. simpl. rewrite lookup_insert.
  destruct (decide (src = src')); reflexivity.
Qed.

Lemma files_insert_or_ignore (st : Storage) (src key p : str) :
  files (insert_or_ignore st src key p) = files st.
Proof.
  unfold insert_or_ignore. destruct (pdf_seen_of st src !! key); reflexivity.
Qed.

Section WriteOnce.
Context {rt : Runtime}.

Lemma pdf_key_canonical (u1 u2 : str) :
  _normalize_pdf_url (PyStr u1) = _normalize_pdf_url (PyStr u2) ->
  _pdf_key (PyStr u1) = _pdf_key (PyStr u2).
Proof. intros H. unfold _pdf_key. rewrite H. reflexivity. Qed.

(** C4, as amended. In a store whose attachment index is consistent, when
    [put_pdf] returns a path for one URL, a second [put_pdf] for a URL with
    the same canonical form returns the same path and changes nothing:
    neither the files nor the index, whatever its payload. After the first
    call the file at that path holds the first payload if no file of that
    name existed before, and otherwise the bytes that were already there.
    No entry of the index is ever replaced, and the index stays
    consistent. *)
Theorem put_pdf_write_once (st st1 : Storage)
  (src doc_id1 doc_id2 url1 url2 p1 : str) (content1 content2 : bytes) :
  index_consistent st ->
  _normalize_pdf_url (PyStr url1) = _normalize_pdf_url (PyStr url2) ->
  put_pdf st src doc_id1 url1 content1 = Ok (st1, p1) ->
  put_pdf st1 src doc_id2 url2 content2 = Ok (st1, p1)
  /\ (path_exists st p1 = false -> files st1 !! p1 = Some content1)
  /\ (path_exists st p1 = true -> files st1 = files st)
  /\ (forall src' key p : str,
         pdf_seen_of st src' !! key = Some p ->
         pdf_seen_of st1 src' !! key = Some p)
  /\ index_consistent st1.
Proof.
  intros Hinv Hnorm Hput.
  pose proof (pdf_key_canonical url1 url2 Hnorm) as Hkey.
  unfold put_pdf, _pdf_seen_path in *. rewrite <- Hkey.
  destruct (_pdf_key (PyStr url1)) as [key|e]; simpl in *; [|discriminate].
  destruct (pdf_seen_of st src !! key) as [p0|] eqn:Hprev.
  - destruct (Hinv src key p0 Hprev) as [Hne Hex].
    assert (str_eqb p0 [] = false) as Hne'
        by (apply bool_decide_eq_false; exact Hne).
    rewrite Hne', Hex in Hput. simpl in Hput. injection Hput as <- <-.
    rewrite Hprev, Hne', Hex. simpl.
    split; [reflexivity|]. split; [congruence|]. split; [reflexivity|].
    split; [tauto | exact Hinv].
  - set (name := match _pdf_name_from_url (PyStr url1) with
                 | PyStr (c :: n) => c :: n
                 | _ => _safe_filename (doc_id1 ++ py ".pdf") 160
                 end) in Hput.
    set (p := pdf_path st src name) in Hput.
    set (st' := if path_exists st p then st else write_bytes st p content1)
      in Hput.
    injection Hput as <- <-.
    assert (Htables : pdf_seen_of st' src = pdf_seen_of st src)
      by (unfold st'; destruct (path_exists st p); reflexivity).
    assert (Hnone : pdf_seen_of st' src !! key = None)
      by (rewrite Htables; exact Hprev).
    assert (Hfiles : files st' !! p = (if path_exists st p then files st !! p
                                      else Some content1)).
    { unfold st'. destruct (path_exists st p); [reflexivity|].
      simpl. apply lookup_insert_eq. }
    assert (Hexists : path_exists (insert_or_ignore st' src key p) p = true).
    { unfold path_exists. rewrite files_insert_or_ignore, Hfiles.
      apply bool_decide_eq_true.
      destruct (path_exists st p) eqn:E; [|eexists; reflexivity].
      unfold path_exists in E. apply bool_decide_eq_true in E. exact E. }
    assert (Hmono : forall q, path_exists st q = true ->
                              path_exists (insert_or_ignore st' src key p) q
                              = true).
    { intros q Hq. unfold path_exists in *.
      rewrite files_insert_or_ignore. apply bool_decide_eq_true.
      apply bool_decide_eq_true in Hq. unfold st'.
      destruct (bool_decide (is_Some (files st !! p))); [exact Hq|].
      simpl. destruct (decide (p = q)) as [->|Hpq].
      - rewrite lookup_insert_eq. eexists; reflexivity.
      - rewrite lookup_insert_ne by exact Hpq. exact Hq. }
    assert (Hlook : forall src' k q,
               pdf_seen_of (insert_or_ignore st' src key p) src' !! k = Some q
               -> (src' = src /\ k = key /\ q = p)
                  \/ pdf_seen_of st src' !! k = Some q).
    { intros src' k q. rewrite (pdf_seen_of_insert _ _ _ _ _ Hnone).
      destruct (decide (src = src')) as [<-|Hsrc].
      - destruct (decide (key = k)) as [<-|Hk].
        + rewrite lookup_insert_eq. intros [= <-]. left. auto.
        + rewrite lookup_insert_ne by exact Hk. rewrite Htables. auto.
      - unfold st'. destruct (path_exists st p); auto. }
    split.
    { rewrite (pdf_seen_of_insert _ _ _ _ _ Hnone).
      destruct (decide (src = src)) as [_|]; [|congruence].
      rewrite lookup_insert_eq.
      assert (str_eqb p [] = false) as ->
          by (apply bool_decide_eq_false; apply pdf_path_nonempty).
      rewrite Hexists. reflexivity. }
    split.
    { intros Hno. rewrite files_insert_or_ignore, Hfiles, Hno. reflexivity. }
    split.
    { intros Hyes. rewrite files_insert_or_ignore. unfold st'.
      rewrite Hyes. reflexivity. }
    split.
    { intros src' k q Hq. rewrite (pdf_seen_of_insert _ _ _ _ _ Hnone).
      destruct (decide (src = src')) as [<-|Hsrc].
      - destruct (decide (key = k)) as [<-|Hk]; [congruence|].
        rewrite lookup_insert_ne by exact Hk. rewrite Htables. exact Hq.
      - unfold st'. destruct (path_exists st p); exact Hq. }
    intros src' k q Hq. apply Hlook in Hq as [(-> & -> & ->)|Hq].
    + split; [apply pdf_path_nonempty | exact Hexists].
    + destruct (Hinv src' k q Hq) as [Hq1 Hq2].
      split; [exact Hq1 | apply Hmono; exact Hq2].
Qed.

End WriteOnce.

(** C4 in a fresh store, on the two URLs of the specification that differ
    in the tracking parameter [ts], with different payloads. *)
Lemma put_pdf_write_once_witness :
  exists st1 : Storage,
    @put_pdf plain_runtime example_store (py "ACPR") (py "d1")
             (py "https://x/report.pdf?ts=123") [1; 2; 3]
    = Ok (st1, py "data/ACPR/pdf/report.pdf")
    /\ @put_pdf plain_runtime st1 (py "ACPR") (py "d2")
                (py "https://x/report.pdf?ts=456") [4; 5; 6]
       = Ok (st1, py "data/ACPR/pdf/report.pdf")
    /\ files st1 !! py "data/ACPR/pdf/report.pdf" = Some [1; 2; 3].
Proof.
  destruct (@put_pdf plain_runtime example_store (py "ACPR") (py "d1")
                     (py "https://x/report.pdf?ts=123") [1; 2; 3])
    as [[st1 p1]|e] eqn:Hput; [|vm_compute in Hput; discriminate].
  assert (Hp : p1 = py "data/ACPR/pdf/report.pdf")
    by (vm_compute in Hput; injection Hput as _ <-; reflexivity).
  subst p1. exists st1. split; [reflexivity|].
  destruct (@put_pdf_write_once plain_runtime example_store st1 (py "ACPR")
              (py "d1") (py "d2") (py "https://x/report.pdf?ts=123")
              (py "https://x/report.pdf?ts=456")
              (py "data/ACPR/pdf/report.pdf") [1; 2; 3] [4; 5; 6]
              (index_consistent_fresh (py "data")) eq_refl Hput)
    as (Hsame & Hnew & _).
  split; [exact Hsame|]. apply Hnew. reflexivity.
Defined.

(** C4 as stated fails on the payload: after an attachment of another URL
    with the same last path segment has been stored, the first [put_pdf]
    of a new URL finds the file name taken and writes nothing, so that the
    path both calls return holds the other attachment's bytes and not the
    first call's payload. *)
Lemma put_pdf_keeps_colliding_file :
  exists st0 st1 : Storage,
    @put_pdf plain_runtime example_store (py "ACPR") (py "d0")
             (py "https://x/a/report.pdf") [7; 7; 7]
    = Ok (st0, py "data/ACPR/pdf/report.pdf")
    /\ @put_pdf plain_runtime st0 (py "ACPR") (py "d1")
                (py "https://x/b/report.pdf?ts=123") [1; 2; 3]
       = Ok (st1, py "data/ACPR/pdf/report.pdf")
    /\ @put_pdf plain_runtime st1 (py "ACPR") (py "d2")
                (py "https://x/b/report.pdf?ts=456") [4; 5; 6]
       = Ok (st1, py "data/ACPR/pdf/report.pdf")
    /\ files st1 !! py "data/ACPR/pdf/report.pdf" = Some [7; 7; 7]
    /\ [7; 7; 7] <> [1; 2; 3].
Proof.
  eexists _, _.
  split; [vm_compute; reflexivity|].
  split; [vm_compute; reflexivity|].
  split; [vm_compute; reflexivity|].
  split; [vm_compute; reflexivity|].
  discriminate.
Qed.

(** ** The order of the sort *)

Lemma str_eqb_eq (a b : str) : str_eqb a b = true <-> a = b.
Proof. unfold str_eqb. apply bool_decide_eq_true. Qed.

Lemma str_eqb_refl (a : str) : str_eqb a a = true.
Proof. apply str_eqb_eq. reflexivity. Qed.

Lemma str_eqb_neq (a b : str) : str_eqb a b = false <-> a <> b.
Proof. unfold str_eqb. apply bool_decide_eq_false. Qed.

Lemma str_ltb_irrefl (a : str) : str_ltb a a = false.
Proof.
  induction a as [|x a IH]; [reflexivity|].
  simpl. rewrite Z.ltb_irrefl, Z.eqb_refl, IH. reflexivity.
Qed.

Lemma str_ltb_asym (a b : str) : str_ltb a b = true -> str_ltb b a = false.
Proof.
  revert b. induction a as [|x a IH]; intros [|y b]; simpl; try done.
  rewrite orb_true_iff, andb_true_iff, Z.ltb_lt, Z.eqb_eq.
  intros [Hlt|[-> Hlt]].
  - apply orb_false_iff. split; [apply Z.ltb_ge; lia|].
    apply andb_false_iff. left. apply Z.eqb_neq. lia.
  - rewrite Z.ltb_irrefl, Z.eqb_refl. simpl. apply IH. exact Hlt.
Qed.

Lemma str_ltb_trans (a b c : str) :
  str_ltb a b = true -> str_ltb b c = true -> str_ltb a c = true.
Proof.
  revert b c. induction a as [|x a IH]; intros [|y b] [|z c]; simpl;
    try done.
  rewrite !orb_true_iff, !andb_true_iff, !Z.ltb_lt, !Z.eqb_eq.
  intros [Hxy|[-> Hab]] [Hyz|[-> Hbc]].
  - left. lia.
  - left. lia.
  - left. lia.
  - right. split; [reflexivity|]. exact (IH b c Hab Hbc).
Qed.

Lemma str_ltb_total (a b : str) :
  str_ltb a b = false -> str_ltb b a = false -> a = b.
Proof.
  revert b. induction a as [|x a IH]; intros [|y b]; simpl; try done.
  rewrite !orb_false_iff, !andb_false_iff, !Z.ltb_ge, !Z.eqb_neq.
  intros [Hxy Hab] [Hyx Hba].
  assert (x = y) as -> by lia. f_equal. apply IH.
  - destruct Hab; [lia | done].
  - destruct Hba; [lia | done].
Qed.

Lemma pair_ltb_asym (p q : str * str) :
  pair_ltb p q = true -> pair_ltb q p = false.
Proof.
  unfold pair_ltb. destruct p as [k v], q as [k' v']; simpl.
  destruct (str_eqb k k') eqn:E.
  - apply str_eqb_eq in E as ->. rewrite str_eqb_refl. apply str_ltb_asym.
  - assert (str_eqb k' k = false) as ->
        by (apply str_eqb_neq; apply str_eqb_neq in E; congruence).
    apply str_ltb_asym.
Qed.

Lemma pair_ltb_trans (p q r : str * str) :
  pair_ltb p q = true -> pair_ltb q r = true -> pair_ltb p r = true.
Proof.
  unfold pair_ltb. destruct p as [k1 v1], q as [k2 v2], r as [k3 v3]; simpl.
  destruct (str_eqb k1 k2) eqn:E12; destruct (str_eqb k2 k3) eqn:E23;
    rewrite ?str_eqb_eq, ?str_eqb_neq in *; subst.
  - rewrite str_eqb_refl. apply str_ltb_trans.
  - intros _ H. assert (str_eqb k2 k3 = false) as -> by (by apply str_eqb_neq).
    exact H.
  - intros H _. assert (str_eqb k1 k3 = false) as -> by (by apply str_eqb_neq).
    exact H.
  - intros H1 H2. pose proof (str_ltb_trans _ _ _ H1 H2) as H13.
    destruct (str_eqb k1 k3) eqn:E13; [|exact H13].
    apply str_eqb_eq in E13 as ->. rewrite str_ltb_irrefl in H13. done.
Qed.

Lemma pair_ltb_total (p q : str * str) :
  pair_ltb p q = false -> pair_ltb q p = false -> p = q.
Proof.
  unfold pair_ltb. destruct p as [k v], q as [k' v']; simpl.
  destruct (str_eqb k k') eqn:E.
  - apply str_eqb_eq in E as ->. rewrite str_eqb_refl.
    intros H1 H2. f_equal. apply str_ltb_total; done.
  - assert (str_eqb k' k = false) as ->
        by (apply str_eqb_neq; apply str_eqb_neq in E; congruence).
    intros H1 H2. apply str_eqb_neq in E. destruct E.
    apply str_ltb_total; done.
Qed.

#[local] Instance pair_le_trans : Transitive pair_le.
Proof.
  intros p q r Hpq Hqr. unfold pair_le in *.
  destruct (pair_ltb r p) eqn:Hrp; [|reflexivity].
  destruct (pair_ltb p q) eqn:Hpq'.
  - rewrite (pair_ltb_trans r p q Hrp Hpq') in Hqr. done.
  - rewrite (pair_ltb_total p q Hpq' Hpq) in Hrp. congruence.
Qed.

#[local] Instance pair_le_antisym : AntiSymm (=) pair_le.
Proof. intros p q Hpq Hqp. apply pair_ltb_total; done. Qed.

Lemma insert_sorted_Permutation (p : str * str) (l : list (str * str)) :
  insert_sorted p l ≡ₚ p :: l.
Proof.
  induction l as [|q l IH]; simpl; [done|].
  destruct (pair_ltb q p); [|done].
  rewrite IH. apply perm_swap.
Qed.

Lemma list_sort_Permutation (l : list (str * str)) : list_sort l ≡ₚ l.
Proof.
  induction l as [|p l IH]; simpl; [done|].
  rewrite insert_sorted_Permutation, IH. done.
Qed.

Lemma insert_sorted_Sorted (p : str * str) (l : list (str * str)) :
  Sorted pair_le l -> Sorted pair_le (insert_sorted p l).
Proof.
  induction l as [|q l IH]; simpl; intros Hs.
  - repeat constructor.
  - apply Sorted_inv in Hs as [Hs Hhd].
    destruct (pair_ltb q p) eqn:Hqp.
    + constructor; [apply IH; exact Hs|].
      destruct l as [|q' l]; simpl.
      * constructor. apply pair_ltb_asym. exact Hqp.
      * destruct (pair_ltb q' p).
        -- constructor. apply HdRel_inv in Hhd. exact Hhd.
        -- constructor. apply pair_ltb_asym. exact Hqp.
    + constructor; [constructor; done|]. constructor. exact Hqp.
Qed.

Lemma list_sort_Sorted (l : list (str * str)) : Sorted pair_le (list_sort l).
Proof.
  induction l as [|p l IH]; simpl; [constructor|].
  apply insert_sorted_Sorted. exact IH.
Qed.

(** The sorted list depends only on the elements, not on their order. *)
Lemma list_sort_Permutation_eq (l1 l2 : list (str * str)) :
  l1 ≡ₚ l2 -> list_sort l1 = list_sort l2.
Proof.
  intros H. apply (Sorted_unique pair_le); try apply list_sort_Sorted.
  rewrite !list_sort_Permutation. exact H.
Qed.

Lemma list_sort_sorted_id (l : list (str * str)) :
  Sorted pair_le l -> list_sort l = l.
Proof.
  intros H. apply (Sorted_unique pair_le);
    [apply list_sort_Sorted | exact H | apply list_sort_Permutation].
Qed.

Lemma list_sort_idempotent (l : list (str * str)) :
  list_sort (list_sort l) = list_sort l.
Proof. apply list_sort_sorted_id, list_sort_Sorted. Qed.

(** ** UTF-8 and percent-quoting round trips *)

Ltac cases_on_comparisons :=
  repeat match goal with
         | |- context [?a <? ?b] =>
             destruct (Z.ltb_spec a b); try (Z.div_mod_to_equations; lia)
         | |- context [?a <=? ?b] =>
             destruct (Z.leb_spec a b); try (Z.div_mod_to_equations; lia)
         | |- context [?a =? ?b] =>
             destruct (Z.eqb_spec a b); try (Z.div_mod_to_equations; lia)
         end.

Lemma utf8_decode_encode_char (c : char) (cb rest : bytes) :
  utf8_encode_char c = Some cb ->
  utf8_decode (cb ++ rest) = c :: utf8_decode rest.
Proof.
  unfold utf8_encode_char.
  destruct (Z.ltb_spec c 0); [discriminate|].
  destruct (Z.ltb_spec c 128).
  { intros [= <-]. simpl. destruct (Z.ltb_spec c 128); [reflexivity|lia]. }
  destruct (Z.ltb_spec c 2048).
  { intros [= <-]. cbn [app utf8_decode]. unfold is_cont.
    cases_on_comparisons. cbn [orb andb negb]. f_equal.
    Z.div_mod_to_equations; lia. }
  assert (H3 : forall rest',
             2048 <= c < 65536 -> ~ (55296 <= c < 57344) ->
             utf8_decode ([224 + c / 4096; 128 + (c / 64) mod 64;
                           128 + c mod 64] ++ rest')
             = c :: utf8_decode rest').
  { intros rest' Hc Hs. cbn [app utf8_decode]. unfold bad_second, is_cont.
    cases_on_comparisons; cbn [orb andb negb]; f_equal;
      Z.div_mod_to_equations; lia. }
  destruct (Z.ltb_spec c 55296).
  { intros [= <-]. apply H3; lia. }
  destruct (Z.ltb_spec c 57344); [discriminate|].
  destruct (Z.ltb_spec c 65536).
  { intros [= <-]. apply H3; lia. }
  destruct (Z.ltb_spec c 1114112); [|discriminate].
  intros [= <-]. cbn [app utf8_decode]. unfold bad_second, is_cont.
  cases_on_comparisons; cbn [orb andb negb]; f_equal;
    Z.div_mod_to_equations; lia.
Qed.

Lemma utf8_decode_encode (s : str) (bs : bytes) :
  utf8_encode s = Ok bs -> utf8_decode bs = s.
Proof.
  revert bs. induction s as [|c s IH]; intros bs; simpl.
  - intros [= <-]. reflexivity.
  - destruct (utf8_encode_char c) as [cb|] eqn:Hc; [|discriminate].
    destruct (utf8_encode s) as [rest|]; simpl; [|discriminate].
    intros [= <-]. rewrite (utf8_decode_encode_char c cb rest Hc).
    f_equal. apply IH. reflexivity.
Qed.

Lemma utf8_encode_char_bytes (c : char) (cb : bytes) :
  utf8_encode_char c = Some cb -> Forall is_byte cb.
Proof.
  unfold utf8_encode_char, is_byte.
  repeat match goal with
         | |- context [if ?a <? ?b then _ else _] => destruct (Z.ltb_spec a b)
         end; try discriminate; intros [= <-];
    repeat constructor; Z.div_mod_to_equations; lia.
Qed.

Lemma utf8_encode_bytes (s : str) (bs : bytes) :
  utf8_encode s = Ok bs -> Forall is_byte bs.
Proof.
  revert bs. induction s as [|c s IH]; intros bs; simpl.
  - intros [= <-]. constructor.
  - destruct (utf8_encode_char c) as [cb|] eqn:Hc; [|discriminate].
    destruct (utf8_encode s) as [rest|]; simpl; [|discriminate].
    intros [= <-]. apply Forall_app. split.
    + exact (utf8_encode_char_bytes c cb Hc).
    + apply IH. reflexivity.
Qed.

Lemma utf8_decode_ascii (s : str) : isascii s = true -> utf8_decode s = s.
Proof.
  induction s as [|c s IH]; [reflexivity|].
  simpl. intros H. apply andb_true_iff in H as [Hc Hs].
  rewrite Hc, (IH Hs). reflexivity.
Qed.

Lemma hexval_hexdigit_upper (d : Z) :
  0 <= d < 16 -> hexval (hexdigit_upper d) = Some d.
Proof.
  intros Hd. unfold hexval, hexdigit_upper, is_digit_ascii.
  cases_on_comparisons; cbn [andb]; f_equal; lia.
Qed.

Lemma unquote_to_bytes_no_percent (s : str) :
  char_in 37 s = false -> unquote_to_bytes s = s.
Proof.
  induction s as [|c s IH]; [reflexivity|].
  intros H. change (char_in 37 (c :: s)) with ((37 =? c) || char_in 37 s) in H.
  apply orb_false_iff in H as [Hc Hs]. rewrite Z.eqb_sym in Hc.
  cbn [unquote_to_bytes]. rewrite Hc, (IH Hs). reflexivity.
Qed.

Lemma always_safe_hexdigit_upper (d : Z) :
  0 <= d < 16 -> always_safe (hexdigit_upper d) = true.
Proof.
  intros Hd. unfold always_safe, hexdigit_upper, is_alnum_ascii,
    is_alpha_ascii, is_upper_ascii, is_lower_ascii, is_digit_ascii.
  cases_on_comparisons; reflexivity.
Qed.

Section Quoting.
Variable safe : str.
Hypothesis safe_is_space : safe = [] \/ safe = [32].

Lemma safe_cases (b : Z) : char_in b safe = true -> b = 32.
Proof.
  destruct safe_is_space as [-> | ->]; simpl; [discriminate|].
  rewrite orb_false_r. apply Z.eqb_eq.
Qed.

Lemma unquote_to_bytes_quote (bs : bytes) :
  Forall is_byte bs -> unquote_to_bytes (quote_from_bytes bs safe) = bs.
Proof.
  induction 1 as [|b bs Hb _ IH]; [reflexivity|].
  unfold quote_from_bytes in *. cbn [flat_map].
  destruct (always_safe b || (b <? 128) && char_in b safe) eqn:Hsafe.
  - cbn [app unquote_to_bytes]. destruct (Z.eqb_spec b 37) as [->|_].
    + apply orb_true_iff in Hsafe as [Hs|Hs]; [discriminate|].
      apply andb_true_iff in Hs as [_ Hs]. apply safe_cases in Hs. lia.
    + rewrite IH. reflexivity.
  - cbn [app unquote_to_bytes]. rewrite Z.eqb_refl.
    unfold is_byte in Hb.
    rewrite !hexval_hexdigit_upper by (Z.div_mod_to_equations; lia).
    rewrite IH. f_equal. Z.div_mod_to_equations; lia.
Qed.

Lemma quote_from_bytes_chars (bs : bytes) :
  Forall is_byte bs ->
  forallb (fun c => (always_safe c || (c =? 37) || (c =? 32))
                    && negb (negb (char_in 32 safe) && (c =? 32)))
          (quote_from_bytes bs safe) = true.
Proof.
  induction 1 as [|b bs Hb _ IH]; [reflexivity|].
  unfold quote_from_bytes in *. cbn [flat_map]. rewrite forallb_app, IH.
  rewrite andb_true_r.
  destruct (always_safe b || (b <? 128) && char_in b safe) eqn:Hsafe.
  - cbn [forallb]. rewrite andb_true_r.
    apply orb_true_iff in Hsafe as [Hs|Hs].
    + rewrite Hs. simpl.
      destruct (Z.eqb_spec b 32) as [->|]; [discriminate Hs|].
      rewrite andb_false_r. reflexivity.
    + apply andb_true_iff in Hs as [_ Hs]. pose proof (safe_cases b Hs) as ->.
      rewrite Hs. reflexivity.
  - unfold is_byte in Hb. cbn [forallb].
    rewrite !always_safe_hexdigit_upper by (Z.div_mod_to_equations; lia).
    cbn. unfold hexdigit_upper.
    cases_on_comparisons; reflexivity.
Qed.

End Quoting.

(** ** Splitting and joining *)

Lemma char_in_cons (c x : char) (s : str) :
  char_in c (x :: s) = (c =? x) || char_in c s.
Proof. reflexivity. Qed.

Lemma char_in_false_forallb (c : char) (s : str) :
  char_in c s = false <-> forallb (fun x => negb (x =? c)) s = true.
Proof.
  induction s as [|x s IH]; [done|].
  rewrite char_in_cons. cbn [forallb].
  rewrite orb_false_iff, andb_true_iff, IH, negb_true_iff, (Z.eqb_sym c x).
  done.
Qed.

Lemma forallb_char_in (f : char -> bool) (c : char) (s : str) :
  forallb f s = true -> f c = false -> char_in c s = false.
Proof.
  intros Hs Hc. induction s as [|x s IH]; [done|].
  cbn [forallb] in Hs. apply andb_true_iff in Hs as [Hx Hs].
  rewrite char_in_cons, (IH Hs), orb_false_r.
  destruct (Z.eqb_spec c x) as [->|]; congruence.
Qed.

Lemma forallb_impl (f g : char -> bool) (s : str) :
  (forall c, f c = true -> g c = true) ->
  forallb f s = true -> forallb g s = true.
Proof.
  intros Hfg. induction s as [|x s IH]; [done|]. cbn [forallb].
  rewrite !andb_true_iff. intros [Hx Hs]. split; [apply Hfg; done|].
  apply IH; done.
Qed.

Lemma find_app_sep (c : char) (a b : str) :
  char_in c a = false -> find c (a ++ c :: b) = Some (length a).
Proof.
  unfold find. induction a as [|x a IH]; cbn [app find_from length].
  - rewrite Z.eqb_refl. reflexivity.
  - rewrite char_in_cons, orb_false_iff. intros [Hx Ha].
    rewrite Z.eqb_sym in Hx. rewrite Hx, (IH Ha). reflexivity.
Qed.

Lemma split1_app_sep (c : char) (a b : str) :
  char_in c a = false -> split1 c (a ++ c :: b) = (a, Some b).
Proof.
  intros Ha. unfold split1. rewrite (find_app_sep c a b Ha).
  rewrite firstn_app, Nat.sub_diag, firstn_all. cbn [firstn].
  rewrite app_nil_r.
  replace (S (length a)) with (length a + 1)%nat by lia.
  rewrite skipn_app, skipn_all2 by lia.
  replace (length a + 1 - length a)%nat with 1%nat by lia. reflexivity.
Qed.

Lemma split1_no_sep (c : char) (a : str) :
  char_in c a = false -> split1 c a = (a, None).
Proof.
  intros Ha. unfold split1. apply find_None in Ha. rewrite Ha. reflexivity.
Qed.

Lemma cut_app_sep (c : char) (a b : str) :
  char_in c a = false -> cut c (a ++ c :: b) = (a, b).
Proof. intros Ha. unfold cut. rewrite split1_app_sep by done. done. Qed.

Lemma cut_no_sep (c : char) (a : str) :
  char_in c a = false -> cut c a = (a, []).
Proof. intros Ha. unfold cut. rewrite split1_no_sep by done. done. Qed.

Lemma split_no_sep (c : char) (w : str) :
  char_in c w = false -> split c w = [w].
Proof.
  induction w as [|x w IH]; [done|].
  rewrite char_in_cons, orb_false_iff. intros [Hx Hw].
  cbn [split]. rewrite Z.eqb_sym in Hx. rewrite Hx, (IH Hw). reflexivity.
Qed.

Lemma split_app_sep (c : char) (w t : str) :
  char_in c w = false -> split c (w ++ c :: t) = w :: split c t.
Proof.
  induction w as [|x w IH]; cbn [app split].
  - rewrite Z.eqb_refl. reflexivity.
  - rewrite char_in_cons, orb_false_iff. intros [Hx Hw].
    rewrite Z.eqb_sym in Hx. rewrite Hx, (IH Hw). reflexivity.
Qed.

Lemma split_join (c : char) (items : list str) :
  items <> [] ->
  Forall (fun w => char_in c w = false) items ->
  split c (join [c] items) = items.
Proof.
  intros Hne H. induction H as [|w items Hw Hitems IH]; [done|].
  destruct items as [|w' items].
  - cbn [join]. apply split_no_sep. exact Hw.
  - change (join [c] (w :: w' :: items))
      with (w ++ c :: join [c] (w' :: items)).
    rewrite split_app_sep by exact Hw. f_equal. apply IH. done.
Qed.

Lemma replace_char_id (c : char) (new s : str) :
  char_in c s = false -> replace_char c new s = s.
Proof.
  induction s as [|x s IH]; [done|].
  rewrite char_in_cons, orb_false_iff. intros [Hx Hs].
  unfold replace_char in *. cbn [flat_map].
  rewrite Z.eqb_sym in Hx. rewrite Hx, (IH Hs). reflexivity.
Qed.

Lemma replace_char_inverse (a b : char) (s : str) :
  char_in b s = false ->
  replace_char b [a] (replace_char a [b] s) = s.
Proof.
  induction s as [|x s IH]; [done|].
  rewrite char_in_cons, orb_false_iff. intros [Hx Hs].
  unfold replace_char in *. cbn [flat_map].
  destruct (Z.eqb_spec x a) as [->|Hxa]; cbn [app flat_map].
  - rewrite Z.eqb_refl. cbn [app]. rewrite (IH Hs). reflexivity.
  - rewrite Z.eqb_sym in Hx. rewrite Hx. cbn [app].
    rewrite (IH Hs). reflexivity.
Qed.

Lemma runs_const (f : char -> bool) (s : str) :
  s <> [] -> forallb f s = true -> runs f s = [(true, s)].
Proof.
  induction s as [|c s IH]; [done|]. intros _. cbn [forallb].
  intros H. apply andb_true_iff in H as [Hc Hs].
  cbn [runs]. destruct s as [|c' s].
  - cbn [runs]. rewrite Hc. reflexivity.
  - rewrite IH by done. rewrite Hc. reflexivity.
Qed.

Lemma unquote_ascii (s : str) :
  isascii s = true -> unquote s = utf8_decode (unquote_to_bytes s).
Proof.
  intros Hs. unfold unquote. destruct (char_in 37 s) eqn:Hp.
  - rewrite runs_const; [|by destruct s|exact Hs].
    cbn [flat_map fst snd]. apply app_nil_r.
  - rewrite unquote_to_bytes_no_percent by exact Hp.
    symmetry. apply utf8_decode_ascii. exact Hs.
Qed.

(** ** The query string round trip *)

Lemma quote_eq (s safe : str) :
  quote s safe = let* bs := utf8_encode s in Ok (quote_from_bytes bs safe).
Proof. destruct s; reflexivity. Qed.

Lemma quote_plus_spec (s q : str) :
  quote_plus s = Ok q ->
  forallb encoded_char q = true
  /\ unquote (replace_char 43 [32] q) = s.
Proof.
  unfold quote_plus. rewrite !quote_eq.
  destruct (utf8_encode s) as [bs|] eqn:Henc;
    [|destruct (negb (char_in 32 s)); discriminate].
  pose proof (utf8_encode_bytes s bs Henc) as Hbytes.
  pose proof (utf8_decode_encode s bs Henc) as Hdec.
  assert (Hgen : forall safe, safe = [] \/ safe = [32] ->
            isascii (quote_from_bytes bs safe) = true
            /\ char_in 43 (quote_from_bytes bs safe) = false
            /\ unquote (quote_from_bytes bs safe) = s).
  { intros safe Hsafe.
    pose proof (quote_from_bytes_chars safe Hsafe bs Hbytes) as Hch.
    assert (Hascii : isascii (quote_from_bytes bs safe) = true).
    { revert Hch. apply forallb_impl. intros c Hc.
      apply andb_true_iff in Hc as [Hc _].
      unfold always_safe, is_alnum_ascii, is_alpha_ascii, is_upper_ascii,
        is_lower_ascii, is_digit_ascii in Hc.
      apply Z.ltb_lt.
      rewrite !orb_true_iff, !andb_true_iff, !Z.leb_le, !Z.eqb_eq in Hc.
      lia. }
    split; [exact Hascii|]. split.
    - apply (forallb_char_in _ 43 _ Hch). reflexivity.
    - rewrite unquote_ascii by exact Hascii.
      rewrite (unquote_to_bytes_quote safe Hsafe bs Hbytes). exact Hdec. }
  destruct (negb (char_in 32 s)) eqn:Hsp; cbn [bind]; intros [= <-].
  - destruct (Hgen [] (or_introl eq_refl)) as (Hascii & Hplus & Hunq).
    split.
    + pose proof (quote_from_bytes_chars [] (or_introl eq_refl) bs Hbytes).
      revert H. apply forallb_impl. intros c. unfold encoded_char.
      cbn [char_in existsb negb andb].
      destruct (c =? 32); rewrite ?andb_false_r, ?orb_false_r;
        [discriminate|]. rewrite andb_true_r. intros ->. reflexivity.
    + rewrite replace_char_id by exact Hplus. exact Hunq.
  - destruct (Hgen [32] (or_intror eq_refl)) as (Hascii & Hplus & Hunq).
    split.
    + pose proof (quote_from_bytes_chars [32] (or_intror eq_refl) bs Hbytes)
        as Hch.
      clear Hascii Hplus Hunq. revert Hch. unfold replace_char.
      generalize (quote_from_bytes bs [32]). intros l.
      induction l as [|c l IH]; [done|]. intros Hch.
      cbn [forallb flat_map] in *. apply andb_true_iff in Hch as [Hc Hl].
      rewrite forallb_app. apply andb_true_iff. split; [|exact (IH Hl)].
      destruct (Z.eqb_spec c 32) as [->|Hne]; [reflexivity|].
      cbn [forallb]. rewrite andb_true_r. unfold encoded_char.
      apply andb_true_iff in Hc as [Hc _].
      rewrite !orb_true_iff in Hc. rewrite !orb_true_iff.
      destruct Hc as [[Hc|Hc]|Hc]; auto. done.
    + rewrite replace_char_inverse by exact Hplus. exact Hunq.
Qed.

Lemma encoded_char_not (c : char) (q : str) :
  forallb encoded_char q = true -> encoded_char c = false ->
  char_in c q = false.
Proof. intros Hq Hc. exact (forallb_char_in _ c q Hq Hc). Qed.

Lemma parse_field_encoded (k v k' v' : str) :
  quote_plus k = Ok k' -> quote_plus v = Ok v' ->
  parse_field (k' ++ [61] ++ v') = (k, v).
Proof.
  intros Hk Hv. apply quote_plus_spec in Hk as [Hkc Hk].
  apply quote_plus_spec in Hv as [_ Hv].
  unfold parse_field. cbn [app].
  rewrite split1_app_sep by (apply (encoded_char_not 61 k' Hkc); reflexivity).
  rewrite Hk, Hv. reflexivity.
Qed.

Lemma urlencode_items_spec (L : list (str * str)) (items : list str) :
  urlencode_items L = Ok items ->
  List.map parse_field items = L
  /\ Forall (fun w => char_in 38 w = false) items
  /\ Forall (fun w => w <> []) items
  /\ Forall (fun w => forallb encoded_query_char w = true) items.
Proof.
  revert items. induction L as [|[k v] L IH]; intros items; cbn [urlencode_items].
  - intros [= <-]. repeat split; constructor.
  - destruct (quote_plus k) as [k'|] eqn:Hk; [|discriminate].
    destruct (quote_plus v) as [v'|] eqn:Hv; [|discriminate].
    destruct (urlencode_items L) as [l|]; [|discriminate].
    cbn [bind]. intros [= <-].
    destruct (IH l eq_refl) as (H1 & H2 & H3 & H4).
    pose proof (quote_plus_spec k k' Hk) as [Hkc _].
    pose proof (quote_plus_spec v v' Hv) as [Hvc _].
    assert (Hall : forallb encoded_query_char (k' ++ [61] ++ v') = true).
    { assert (Hweak : forall w, forallb encoded_char w = true ->
                                forallb encoded_query_char w = true).
      { intros w. apply forallb_impl. intros c Hc.
        unfold encoded_query_char. rewrite Hc. done. }
      rewrite forallb_app. apply andb_true_iff. split; [apply Hweak, Hkc|].
      cbn [app forallb]. apply andb_true_iff. split; [done|].
      apply Hweak, Hvc. }
    split; [|split; [|split]].
    + cbn [List.map]. f_equal; [|exact H1].
      exact (parse_field_encoded k v k' v' Hk Hv).
    + constructor; [|exact H2].
      rewrite char_in_app, char_in_cons.
      rewrite (encoded_char_not 38 k' Hkc) by reflexivity.
      rewrite (encoded_char_not 38 v' Hvc) by reflexivity. reflexivity.
    + constructor; [|exact H3]. by destruct k'.
    + constructor; [exact Hall | exact H4].
Qed.

Lemma forallb_join (f : char -> bool) (sep : str) (items : list str) :
  forallb f sep = true ->
  Forall (fun w => forallb f w = true) items ->
  forallb f (join sep items) = true.
Proof.
  intros Hsep H. induction H as [|w items Hw _ IH]; [done|].
  destruct items as [|w' items]; [exact Hw|].
  change (join sep (w :: w' :: items))
    with (w ++ sep ++ join sep (w' :: items)).
  rewrite !forallb_app. repeat (apply andb_true_iff; split); done.
Qed.

(** Parsing an encoded query gives back the pairs that were encoded. *)
Lemma parse_qsl_urlencode (L : list (str * str)) (q : str) :
  urlencode L = Ok q ->
  parse_qsl q = L /\ forallb encoded_query_char q = true.
Proof.
  unfold urlencode. destruct (urlencode_items L) as [items|] eqn:Hitems;
    [|discriminate].
  cbn [bind]. intros [= <-].
  destruct (urlencode_items_spec L items Hitems) as (Hmap & Hamp & Hne & Hch).
  split; [|apply forallb_join; done].
  destruct items as [|w items].
  - cbn in Hmap. subst L. reflexivity.
  - unfold parse_qsl.
    assert (Hj : join [38] (w :: items) <> []).
    { apply Forall_inv in Hne. destruct items; cbn [join].
      - exact Hne.
      - destruct w; done. }
    destruct (join [38] (w :: items)) eqn:Ej; [done|]. rewrite <- Ej.
    rewrite split_join by done.
    rewrite forallb_filter_id; [exact Hmap|].
    apply forallb_forall. intros x Hx.
    rewrite Forall_forall in Hne. apply negb_true_iff. apply str_eqb_neq.
    apply Hne. apply list_elem_of_In. exact Hx.
Qed.

(** ** The stages of [urlsplit] *)

Lemma char_in_replace_char (c d : char) (s : str) :
  char_in c (replace_char d [] s) = char_in c s && negb (c =? d)
  \/ char_in c (replace_char d [] s) = false.
Proof.
  destruct (Z.eqb_spec c d) as [->|Hne].
  - right. induction s as [|x s IH]; [done|].
    unfold replace_char in *. cbn [flat_map].
    destruct (Z.eqb_spec x d) as [->|Hx]; [exact IH|].
    cbn [app]. rewrite char_in_cons, IH, orb_false_r.
    apply Z.eqb_neq. congruence.
  - left. rewrite andb_true_r. induction s as [|x s IH]; [done|].
    unfold replace_char in *. cbn [flat_map].
    destruct (Z.eqb_spec x d) as [->|Hx]; cbn [app].
    + rewrite char_in_cons, IH.
      destruct (Z.eqb_spec c d); [done|reflexivity].
    + rewrite !char_in_cons, IH. reflexivity.
Qed.

Lemma char_in_replace_char_same (d : char) (s : str) :
  char_in d (replace_char d [] s) = false.
Proof.
  destruct (char_in_replace_char d d s) as [H|H]; [|exact H].
  rewrite H, Z.eqb_refl. apply andb_false_r.
Qed.

Lemma char_in_replace_char_false (c d : char) (s : str) :
  char_in c s = false -> char_in c (replace_char d [] s) = false.
Proof.
  intros Hs. destruct (char_in_replace_char c d s) as [H|H]; [|exact H].
  rewrite H, Hs. reflexivity.
Qed.

Lemma dropwhile_head (f : char -> bool) (s : str) :
  match dropwhile f s with
  | [] => True
  | c :: _ => f c = false
  end.
Proof.
  induction s as [|x s IH]; [done|]. cbn [dropwhile].
  destruct (f x) eqn:E; [exact IH | exact E].
Qed.

Lemma replace_char_head (d : char) (s : str) :
  no_c0_head s -> c0_control_or_space d = true ->
  no_c0_head (replace_char d [] s).
Proof.
  destruct s as [|c s]; [done|]. cbn [no_c0_head]. intros Hc Hd.
  unfold replace_char. cbn [flat_map].
  destruct (Z.eqb_spec c d) as [->|_]; [congruence|]. exact Hc.
Qed.

Lemma urlsplit_clean_spec (url : str) :
  no_tab_cr_lf (urlsplit_clean url) /\ no_c0_head (urlsplit_clean url).
Proof.
  unfold urlsplit_clean, no_tab_cr_lf. split; [split; [|split]|].
  - apply char_in_replace_char_false, char_in_replace_char_false,
      char_in_replace_char_same.
  - apply char_in_replace_char_false, char_in_replace_char_same.
  - apply char_in_replace_char_same.
  - repeat apply replace_char_head; try reflexivity.
    unfold lstrip_by. apply (dropwhile_head c0_control_or_space url).
Qed.

Lemma dropwhile_id (f : char -> bool) (s : str) :
  match s with [] => True | c :: _ => f c = false end ->
  dropwhile f s = s.
Proof. destruct s as [|c s]; [done|]. cbn. intros ->. reflexivity. Qed.

Lemma urlsplit_clean_id (url : str) :
  no_tab_cr_lf url -> no_c0_head url -> urlsplit_clean url = url.
Proof.
  intros (H9 & H13 & H10) Hhead. unfold urlsplit_clean, lstrip_by.
  rewrite (dropwhile_id _ url Hhead).
  rewrite (replace_char_id 9) by done.
  rewrite (replace_char_id 13) by done.
  rewrite (replace_char_id 10) by done. reflexivity.
Qed.

Lemma no_tab_cr_lf_app (a b : str) :
  no_tab_cr_lf (a ++ b) <-> no_tab_cr_lf a /\ no_tab_cr_lf b.
Proof.
  unfold no_tab_cr_lf. rewrite !char_in_app, !orb_false_iff. tauto.
Qed.

Lemma char_in_firstn (c : char) (n : nat) (s : str) :
  char_in c s = false -> char_in c (firstn n s) = false.
Proof.
  intros H. rewrite <- (firstn_skipn n s), char_in_app in H.
  apply orb_false_iff in H. tauto.
Qed.

Lemma char_in_skipn (c : char) (n : nat) (s : str) :
  char_in c s = false -> char_in c (skipn n s) = false.
Proof.
  intros H. rewrite <- (firstn_skipn n s), char_in_app in H.
  apply orb_false_iff in H. tauto.
Qed.

Lemma no_tab_cr_lf_firstn (n : nat) (s : str) :
  no_tab_cr_lf s -> no_tab_cr_lf (firstn n s).
Proof. intros (A & B & C). repeat split; apply char_in_firstn; done. Qed.

Lemma no_tab_cr_lf_skipn (n : nat) (s : str) :
  no_tab_cr_lf s -> no_tab_cr_lf (skipn n s).
Proof. intros (A & B & C). repeat split; apply char_in_skipn; done. Qed.

Lemma char_in_lower_ctl (c : char) (s : str) :
  c < 65 -> char_in c s = false -> char_in c (lower s) = false.
Proof.
  intros Hc. induction s as [|x s IH]; [done|].
  unfold lower in *. cbn [List.map]. rewrite !char_in_cons, !orb_false_iff.
  intros [Hx Hs]. split; [|apply IH; exact Hs].
  apply Z.eqb_neq in Hx. apply Z.eqb_neq.
  unfold lower_char, is_upper_ascii.
  destruct (Z.leb_spec 65 x); destruct (Z.leb_spec x 90); cbn [andb];
    try destruct (Z.eqb_spec x 8490); lia.
Qed.

Lemma lower_char_scheme (c : char) :
  scheme_char c = true ->
  scheme_char (lower_char c) = true
  /\ lower_char (lower_char c) = lower_char c
  /\ (is_alpha_ascii c = true -> is_alpha_ascii (lower_char c) = true).
Proof.
  assert (Hup : forall x, 65 <= x <= 90 -> lower_char x = x + 32).
  { intros x Hx. unfold lower_char, is_upper_ascii.
    destruct (Z.leb_spec 65 x), (Z.leb_spec x 90); cbn [andb]; lia. }
  assert (Hid : forall x, ~ 65 <= x <= 90 -> x <> 8490 -> lower_char x = x).
  { intros x Hx Hk. unfold lower_char, is_upper_ascii.
    destruct (Z.leb_spec 65 x), (Z.leb_spec x 90); cbn [andb]; try lia;
      destruct (Z.eqb_spec x 8490); lia. }
  unfold scheme_char, is_alnum_ascii, is_alpha_ascii,
    is_upper_ascii, is_lower_ascii, is_digit_ascii.
  intros H. rewrite !orb_true_iff, !andb_true_iff, !Z.leb_le, !Z.eqb_eq in H.
  assert (Hcase : 65 <= c <= 90 \/ ~ 65 <= c <= 90) by lia.
  destruct Hcase as [Hc|Hc].
  - rewrite (Hup c Hc), (Hid (c + 32)) by lia.
    split; [|split; [reflexivity|intros _]];
      rewrite !orb_true_iff, !andb_true_iff, !Z.leb_le, ?Z.eqb_eq; lia.
  - rewrite !(Hid c) by lia.
    split; [|split; [reflexivity|intros Hx; exact Hx]].
    rewrite !orb_true_iff, !andb_true_iff, !Z.leb_le, !Z.eqb_eq. exact H.
Qed.

Lemma lower_scheme_shape (s : str) :
  s <> [] -> forallb is_alpha_ascii (firstn 1 s) = true ->
  forallb scheme_char s = true -> scheme_shape (lower s).
Proof.
  intros Hne Halpha Hchars. right.
  assert (Hall : forall t, forallb scheme_char t = true ->
                           forallb scheme_char (lower t) = true
                           /\ lower (lower t) = lower t).
  { induction t as [|x t IH]; [done|]. cbn [forallb].
    intros H. apply andb_true_iff in H as [Hx Ht].
    destruct (lower_char_scheme x Hx) as (A & B & _).
    destruct (IH Ht) as [C D]. unfold lower in *. cbn [List.map forallb].
    rewrite A, C, B, D. done. }
  destruct (Hall s Hchars) as [A B].
  split; [by destruct s|]. split; [|done].
  destruct s as [|x s]; [done|]. cbn in *.
  apply andb_true_iff in Hchars as [Hx _].
  rewrite andb_true_r in *.
  exact (proj2 (proj2 (lower_char_scheme x Hx)) Halpha).
Qed.

Lemma scheme_char_not_colon (s : str) :
  forallb scheme_char s = true -> char_in 58 s = false.
Proof. intros H. apply (forallb_char_in _ 58 _ H). reflexivity. Qed.

Lemma scheme_test_prefix (a t : str) (i : nat) :
  (i < length a)%nat -> scheme_test (a ++ t) i = scheme_test a i.
Proof.
  intros Hi. unfold scheme_test.
  rewrite !firstn_app.
  replace (i - length a)%nat with 0%nat by lia.
  replace (1 - length a)%nat with 0%nat by lia.
  cbn [firstn]. rewrite !app_nil_r. reflexivity.
Qed.

Lemma find_lt (c : char) (s : str) (i : nat) :
  find c s = Some i -> (i < length s)%nat.
Proof.
  intros H. apply find_Some in H as [H _].
  apply (f_equal (@length Z)) in H.
  rewrite length_app, length_firstn in H. cbn [length] in H. lia.
Qed.

Lemma find_app_l (c : char) (a t : str) (i : nat) :
  find c a = Some i -> find c (a ++ t) = Some i.
Proof.
  intros H. pose proof (find_Some c a i H) as [Ha Hin].
  rewrite Ha, <- app_assoc. cbn [app].
  rewrite (find_app_sep c _ _ Hin), length_firstn.
  f_equal. apply find_lt in H. lia.
Qed.

Lemma find_app_none (c : char) (a t : str) :
  char_in c a = false -> char_in c t = false -> find c (a ++ t) = None.
Proof.
  intros Ha Ht. apply find_None. rewrite char_in_app, Ha, Ht. done.
Qed.

(** The scheme stage on a string returns a well-shaped scheme; without a
    scheme, the same holds after any change behind the first colon or, if
    there is no colon, any extension without a colon. *)
Lemma urlsplit_scheme_spec (url s rest : str) :
  urlsplit_scheme url = (s, rest) ->
  scheme_shape s
  /\ (s <> [] -> url = firstn (length s) url ++ [58] ++ rest
               /\ lower (firstn (length s) url) = s)
  /\ (s = [] -> rest = url).
Proof.
  unfold urlsplit_scheme. destruct (find 58 url) as [i|] eqn:Hfind.
  - destruct (scheme_test url i) eqn:Htest.
    + intros [= <- <-]. unfold scheme_test in Htest.
      apply andb_true_iff in Htest as [Htest Hchars].
      apply andb_true_iff in Htest as [Hi Halpha].
      apply Nat.ltb_lt in Hi. pose proof (find_lt _ _ _ Hfind) as Hlen.
      assert (Hne : firstn i url <> []).
      { intros E. apply (f_equal (@length Z)) in E.
        rewrite length_firstn in E. cbn in E. lia. }
      assert (Hl : length (lower (firstn i url)) = i).
      { unfold lower. rewrite length_map, length_firstn. lia. }
      split; [|split].
      * apply lower_scheme_shape; try done.
        rewrite firstn_firstn. replace (Nat.min 1 i) with 1%nat by lia.
        exact Halpha.
      * intros _. rewrite Hl. split; [|reflexivity].
        apply find_Some in Hfind as [H _]. exact H.
      * intros E. unfold lower in E. apply map_eq_nil in E. done.
    + intros [= <- <-]. split; [left; done|]. split; done.
  - intros [= <- <-]. split; [left; done|]. split; done.
Qed.

Lemma urlsplit_scheme_found (s rest : str) :
  scheme_shape s -> s <> [] ->
  urlsplit_scheme (s ++ [58] ++ rest) = (s, rest).
Proof.
  intros [->|(Hne & Halpha & Hchars & Hlow)] Hne'; [done|].
  unfold urlsplit_scheme. change (s ++ [58] ++ rest) with (s ++ 58 :: rest).
  rewrite (find_app_sep 58 s rest (scheme_char_not_colon s Hchars)).
  assert (Htest : scheme_test (s ++ 58 :: rest) (length s) = true).
  { unfold scheme_test. rewrite !firstn_app, Nat.sub_diag, firstn_all.
    cbn [firstn]. rewrite app_nil_r, Hchars, andb_true_r.
    destruct s as [|x s]; [done|]. cbn [length firstn app].
    cbn in Halpha. replace (1 - S (length s))%nat with 0%nat by lia.
    cbn. rewrite andb_true_r in *. exact Halpha. }
  rewrite Htest. rewrite firstn_app, Nat.sub_diag, firstn_all.
  cbn [firstn]. rewrite app_nil_r, Hlow.
  replace (S (length s)) with (length s + 1)%nat by lia.
  rewrite skipn_app, skipn_all2 by lia.
  replace (length s + 1 - length s)%nat with 1%nat by lia. reflexivity.
Qed.

Lemma find_from_skipn (c : char) (s : str) (n : nat) :
  (n <= length s)%nat ->
  find_from c s n = option_map (Nat.add n) (find c (skipn n s)).
Proof.
  revert s. induction n as [|n IH]; intros s Hn.
  - rewrite skipn_O. unfold find. destruct (find_from c s 0); reflexivity.
  - destruct s as [|x s]; [cbn in Hn; lia|].
    rewrite skipn_cons. cbn [find_from]. rewrite IH by (cbn in Hn; lia).
    destruct (find c (skipn n s)); reflexivity.
Qed.

Lemma find_app_r (c : char) (a b : str) :
  char_in c a = false ->
  find c (a ++ b) = option_map (Nat.add (length a)) (find c b).
Proof.
  intros Ha. unfold find. induction a as [|x a IH]; cbn [app length].
  - destruct (find_from c b 0); reflexivity.
  - rewrite char_in_cons in Ha. apply orb_false_iff in Ha as [Hx Ha].
    cbn [find_from]. rewrite Z.eqb_sym in Hx. rewrite Hx, (IH Ha).
    destruct (find_from c b 0); reflexivity.
Qed.

Lemma find_from_authority (c : char) (n w : str) :
  char_in c n = false ->
  find_from c ([47; 47] ++ n ++ w) 2
  = option_map (Nat.add (2 + length n)) (find c w).
Proof.
  intros Hn. rewrite find_from_skipn by (cbn; lia).
  change (skipn 2 ([47; 47] ++ n ++ w)) with (n ++ w).
  rewrite (find_app_r c n w Hn).
  destruct (find c w); cbn; [f_equal; lia | reflexivity].
Qed.

Lemma find_head (c x : char) (w : str) :
  find c (x :: w) = if x =? c then Some 0%nat else option_map S (find c w).
Proof. reflexivity. Qed.

Lemma splitnetloc_spec (n w : str) :
  netloc_shape n -> after_netloc w ->
  _splitnetloc ([47; 47] ++ n ++ w) 2 = (n, w).
Proof.
  intros (H47 & H63 & H35) Hw. unfold _splitnetloc. cbn [fold_left].
  rewrite !find_from_authority by done.
  set (url := [47; 47] ++ n ++ w).
  assert (Hlen : length url = (2 + length n + length w)%nat)
    by (unfold url; rewrite !length_app; cbn; lia).
  assert (Hgoal : forall d, d = (2 + length n)%nat ->
             (skipn 2 (firstn d url), skipn d url) = (n, w)).
  { intros d ->. unfold url.
    change ([47; 47] ++ n ++ w) with (([47; 47] ++ n) ++ w).
    assert (Hl : length ([47; 47] ++ n) = (2 + length n)%nat)
      by (rewrite length_app; reflexivity).
    rewrite <- Hl, take_app_length, drop_app_length. reflexivity. }
  apply Hgoal. rewrite Hlen.
  destruct w as [|c w]; [cbn; lia|].
  cbn [after_netloc] in Hw. rewrite !find_head. cbn [length].
  destruct Hw as [->|[->| ->]]; cbn [Z.eqb Pos.eqb option_map];
    repeat match goal with
           | |- context [option_map S (find ?c ?w)] =>
               destruct (find c w); cbn [option_map]
           end; lia.
Qed.

Lemma span_delims (s : str) :
  exists n w : str, s = n ++ w /\ netloc_shape n /\ after_netloc w.
Proof.
  induction s as [|c s (n & w & -> & Hn & Hw)].
  - exists [], []. repeat split.
  - destruct (Z.eq_dec c 47) as [->|H47];
      [exists [], (47 :: n ++ w); repeat split; cbn; auto|].
    destruct (Z.eq_dec c 63) as [->|H63];
      [exists [], (63 :: n ++ w); repeat split; cbn; auto|].
    destruct (Z.eq_dec c 35) as [->|H35];
      [exists [], (35 :: n ++ w); repeat split; cbn; auto|].
    exists (c :: n), w. destruct Hn as (A & B & C).
    split; [reflexivity|]. split; [|exact Hw].
    unfold netloc_shape. rewrite !char_in_cons, A, B, C, !orb_false_r.
    repeat split; apply Z.eqb_neq; congruence.
Qed.

Lemma firstn_2_slashes (z : str) :
  str_eqb (firstn 2 z) [47; 47] = true -> exists t, z = [47; 47] ++ t.
Proof.
  intros H. apply str_eqb_eq in H. exists (skipn 2 z).
  rewrite <- H. symmetry. apply firstn_skipn.
Qed.

Section NetlocStage.
Context {rt : Runtime}.

Lemma urlsplit_netloc_found (n w : str) :
  netloc_shape n -> after_netloc w -> brackets_ok n ->
  urlsplit_netloc ([47; 47] ++ n ++ w) = Ok (n, w).
Proof.
  intros Hn Hw [Hb1 Hb2]. unfold urlsplit_netloc.
  cbn [app firstn]. rewrite str_eqb_refl.
  change (47 :: 47 :: n ++ w) with ([47; 47] ++ n ++ w).
  rewrite (splitnetloc_spec n w Hn Hw), Hb1, Hb2. reflexivity.
Qed.

Lemma urlsplit_netloc_spec (z n w : str) :
  urlsplit_netloc z = Ok (n, w) ->
  (z = [47; 47] ++ n ++ w /\ netloc_shape n /\ after_netloc w
   /\ brackets_ok n)
  \/ (str_eqb (firstn 2 z) [47; 47] = false /\ n = [] /\ w = z).
Proof.
  unfold urlsplit_netloc.
  destruct (str_eqb (firstn 2 z) [47; 47]) eqn:Hs.
  - apply firstn_2_slashes in Hs as [t ->].
    destruct (span_delims t) as (n' & w' & -> & Hn & Hw).
    rewrite (splitnetloc_spec n' w' Hn Hw).
    destruct ((char_in 91 n' && negb (char_in 93 n'))
              || (char_in 93 n' && negb (char_in 91 n'))) eqn:Hb1;
      [discriminate|].
    destruct (char_in 91 n' && char_in 93 n'
              && negb (bracketed_netloc_ok n')) eqn:Hb2; [discriminate|].
    intros [= <- <-]. left. split; [reflexivity|]. split; [exact Hn|].
    split; [exact Hw|]. split; assumption.
  - intros [= <- <-]. right. split; [reflexivity|]. split; reflexivity.
Qed.

Lemma brackets_ok_nil : brackets_ok [].
Proof. split; reflexivity. Qed.

End NetlocStage.

(** What the cuts see behind the path: nothing, or a [?] or [#]. *)
Lemma cut_spec (c : char) (w a b : str) :
  cut c w = (a, b) ->
  char_in c a = false /\ (w = a /\ b = [] \/ w = a ++ c :: b).
Proof.
  unfold cut, split1. destruct (find c w) as [i|] eqn:Hf.
  - intros [= <- <-]. apply find_Some in Hf as [Hw Hin]. split; [done|].
    right. exact Hw.
  - intros [= <- <-]. apply find_None in Hf. split; [done|]. left. done.
Qed.

Lemma cuts_spec (w w1 f p q : str) :
  cut 35 w = (w1, f) -> cut 63 w1 = (p, q) ->
  path_shape p /\ char_in 35 q = false
  /\ exists tail, w = p ++ tail
                  /\ match tail with
                     | [] => True
                     | c :: _ => c = 63 \/ c = 35
                     end.
Proof.
  intros H1 H2. apply cut_spec in H1 as [Hw1 H1].
  apply cut_spec in H2 as [Hp H2].
  assert (Hp35 : char_in 35 p = false /\ char_in 35 q = false).
  { destruct H2 as [[-> ->]| ->]; [done|].
    rewrite char_in_app, char_in_cons in Hw1.
    apply orb_false_iff in Hw1 as [A B].
    apply orb_false_iff in B as [_ B]. done. }
  split; [split; tauto|]. split; [tauto|].
  destruct H1 as [[-> ->]| ->]; destruct H2 as [[-> ->]| ->].
  - exists []. rewrite app_nil_r. done.
  - exists (63 :: q). split; [done|]. auto.
  - exists (35 :: f). split; [done|]. auto.
  - exists (63 :: q ++ 35 :: f). rewrite <- app_assoc. split; [done|]. auto.
Qed.

(** ** The components that [urlsplit] returns *)

Section Components.
Context {rt : Runtime}.

Lemma urlsplit_scheme_no_alpha (r : str) :
  forallb is_alpha_ascii (firstn 1 r) = false ->
  urlsplit_scheme r = ([], r).
Proof.
  intros H. unfold urlsplit_scheme. destruct (find 58 r) as [i|]; [|done].
  unfold scheme_test. rewrite H, andb_false_r. reflexivity.
Qed.

Lemma no_tab_cr_lf_nil : no_tab_cr_lf [].
Proof. repeat split. Qed.

Lemma no_tab_cr_lf_lower (s : str) :
  no_tab_cr_lf s -> no_tab_cr_lf (lower s).
Proof.
  intros (A & B & C). repeat split; apply char_in_lower_ctl; done || lia.
Qed.

Lemma urlsplit_wf (x : str) (parts : SplitResult) :
  urlsplit x = Ok parts ->
  wf_hier (scheme parts) (netloc parts) (path parts).
Proof.
  unfold urlsplit.
  destruct (urlsplit_clean_spec x) as [Hclean Hhead].
  set (y := urlsplit_clean x) in *. clearbody y.
  destruct (urlsplit_scheme y) as [s z] eqn:Hsch.
  destruct (urlsplit_netloc z) as [[n w]|] eqn:Hnet; [|discriminate].
  cbn [bind].
  destruct (cut 35 w) as [w1 f] eqn:Hc1.
  destruct (cut 63 w1) as [p q] eqn:Hc2.
  destruct (_checknetloc n) as [[]|] eqn:Hchk; [|discriminate].
  cbn [bind]. intros [= <-]. cbn [scheme netloc path].
  destruct (urlsplit_scheme_spec y s z Hsch) as (Hshape & Hs1 & Hs2).
  destruct (cuts_spec w w1 f p q Hc1 Hc2) as (Hp & _ & tail & Hw & Htail).
  assert (Hsz : no_tab_cr_lf s /\ no_tab_cr_lf z).
  { destruct s as [|c s'].
    - rewrite (Hs2 eq_refl). split; [apply no_tab_cr_lf_nil | exact Hclean].
    - destruct (Hs1 ltac:(done)) as [Hy Hlow]. split.
      + rewrite <- Hlow. apply no_tab_cr_lf_lower, no_tab_cr_lf_firstn.
        exact Hclean.
      + rewrite Hy in Hclean. apply no_tab_cr_lf_app in Hclean as [_ Hc].
        apply no_tab_cr_lf_app in Hc as [_ Hc]. exact Hc. }
  destruct Hsz as [Hcs Hcz].
  assert (Hpw : no_tab_cr_lf w -> no_tab_cr_lf p).
  { intros H. rewrite Hw in H. apply no_tab_cr_lf_app in H. tauto. }
  apply urlsplit_netloc_spec in Hnet
      as [(Hz & Hn & Hafter & Hbr)|(Hslash & -> & ->)].
  - subst z. apply no_tab_cr_lf_app in Hcz as [_ Hcz].
    apply no_tab_cr_lf_app in Hcz as [Hcn Hcw].
    assert (Habs : path_after_netloc p).
    { rewrite Hw in Hafter. destruct p as [|c p']; [exact I|].
      cbn in Hafter. destruct Hp as [H63 H35].
      rewrite char_in_cons in H63, H35.
      apply orb_false_iff in H63 as [H63 _].
      apply orb_false_iff in H35 as [H35 _].
      apply Z.eqb_neq in H63, H35. cbn. lia. }
    apply mk_wf_hier.
    + exact Hcs.
    + exact Hcn.
    + exact (Hpw Hcw).
    + exact Hshape.
    + exact Hn.
    + exact Hp.
    + intros _. exact Habs.
    + intros -> ->. split.
      * destruct p as [|c p']; [exact I|]. cbn in Habs. subst c. reflexivity.
      * intros t Ht. destruct p as [|c p'].
        -- cbn [app]. unfold urlsplit_scheme.
           apply find_None in Ht. rewrite Ht. reflexivity.
        -- cbn in Habs. subst c. apply urlsplit_scheme_no_alpha. reflexivity.
    + exact Hbr.
    + exact Hchk.
  - apply mk_wf_hier.
    + exact Hcs.
    + apply no_tab_cr_lf_nil.
    + exact (Hpw Hcz).
    + exact Hshape.
    + repeat split.
    + exact Hp.
    + intros H. done.
    + intros -> _. rewrite (Hs2 eq_refl) in *. split.
      * rewrite Hw in Hhead. destruct p; [exact I | exact Hhead].
      * intros t Ht. unfold urlsplit_scheme in Hsch |- *.
        destruct (find 58 p) as [i|] eqn:Hfp.
        -- rewrite (find_app_l 58 p t i Hfp).
           pose proof (find_lt 58 p i Hfp) as Hi.
           rewrite (scheme_test_prefix p t i Hi).
           rewrite Hw, (find_app_l 58 p tail i Hfp),
             (scheme_test_prefix p tail i Hi) in Hsch.
           destruct (scheme_test p i) eqn:Htest; [|reflexivity].
           injection Hsch as Hl _. unfold lower in Hl.
           apply map_eq_nil in Hl.
           apply (f_equal (@length Z)) in Hl.
           rewrite length_firstn, length_app in Hl. cbn in Hl.
           assert (i = 0%nat) as -> by lia.
           unfold scheme_test in Htest. discriminate.
        -- apply find_None in Hfp.
           rewrite (find_app_none 58 p t Hfp Ht). reflexivity.
    + apply brackets_ok_nil.
    + exact Hchk.
Qed.

End Components.

(** ** Splitting an assembled URL *)

Lemma str_eqb_nil_cons (c : Z) (s : str) : str_eqb (c :: s) [] = false.
Proof. apply str_eqb_neq. discriminate. Qed.

Lemma encoded_query_lacks (c : char) (q : str) :
  forallb encoded_query_char q = true -> encoded_query_char c = false ->
  char_in c q = false.
Proof. intros Hq Hc. exact (forallb_char_in _ c q Hq Hc). Qed.

Lemma query_suffix_lacks (c : char) (q : str) :
  forallb encoded_query_char q = true -> encoded_query_char c = false ->
  c <> 63 -> char_in c (query_suffix q) = false.
Proof.
  intros Hq Hc Hne. unfold query_suffix. destruct q as [|x q]; [done|].
  rewrite str_eqb_nil_cons. cbn [negb app]. rewrite char_in_cons.
  rewrite (encoded_query_lacks c (x :: q) Hq Hc), orb_false_r.
  apply Z.eqb_neq. exact Hne.
Qed.

Lemma query_suffix_clean (q : str) :
  forallb encoded_query_char q = true -> no_tab_cr_lf (query_suffix q).
Proof.
  intros Hq. repeat split; apply query_suffix_lacks; done.
Qed.

Lemma query_suffix_head (q : str) :
  match query_suffix q with
  | [] => True
  | c :: _ => c = 63
  end.
Proof. unfold query_suffix. destruct q; cbn; done. Qed.

Lemma cuts_assembled (pp q : str) :
  path_shape pp -> forallb encoded_query_char q = true ->
  cut 35 (pp ++ query_suffix q) = (pp ++ query_suffix q, [])
  /\ cut 63 (pp ++ query_suffix q) = (pp, q).
Proof.
  intros [H63 H35] Hq. split.
  - apply cut_no_sep. rewrite char_in_app, H35.
    apply query_suffix_lacks; done.
  - unfold query_suffix. destruct q as [|x q].
    + cbn [app]. rewrite app_nil_r. apply cut_no_sep. exact H63.
    + rewrite str_eqb_nil_cons. cbn [negb app]. apply cut_app_sep. exact H63.
Qed.

Section Assembled.
Context {rt : Runtime}.

Lemma urlsplit_stages (x s z n w w1 f p q : str) :
  urlsplit_clean x = x ->
  urlsplit_scheme x = (s, z) ->
  urlsplit_netloc z = Ok (n, w) ->
  cut 35 w = (w1, f) ->
  cut 63 w1 = (p, q) ->
  _checknetloc n = Ok tt ->
  urlsplit x = Ok (mkSplit s n p q f).
Proof.
  intros H1 H2 H3 H4 H5 H6. unfold urlsplit.
  rewrite H1, H2, H3. cbn [bind]. rewrite H4, H5, H6. reflexivity.
Qed.

Lemma scheme_prefix_stage (s rest : str) :
  scheme_shape s -> s <> [] ->
  urlsplit_scheme (scheme_prefix s ++ rest) = (s, rest).
Proof.
  intros Hs Hne. unfold scheme_prefix.
  assert (str_eqb s [] = false) as -> by (apply str_eqb_neq; exact Hne).
  cbn [negb]. rewrite <- app_assoc. apply urlsplit_scheme_found; done.
Qed.

Lemma scheme_shape_head (s : str) :
  scheme_shape s -> s <> [] ->
  no_c0_head (scheme_prefix s) /\ scheme_prefix s <> [].
Proof.
  intros [->|(Hne & Halpha & _)] Hne'; [done|].
  unfold scheme_prefix.
  assert (str_eqb s [] = false) as -> by (apply str_eqb_neq; exact Hne).
  cbn [negb]. destruct s as [|c s]; [done|]. split; [|done].
  cbn in Halpha |- *. rewrite andb_true_r in Halpha.
  unfold is_alpha_ascii, is_upper_ascii, is_lower_ascii in Halpha.
  unfold c0_control_or_space.
  rewrite orb_true_iff, !andb_true_iff, !Z.leb_le in Halpha.
  apply andb_false_iff. right. apply Z.leb_gt. lia.
Qed.

Lemma no_c0_head_app (a b : str) :
  no_c0_head a -> (a = [] -> no_c0_head b) -> no_c0_head (a ++ b).
Proof. destruct a; cbn; auto. Qed.

Lemma scheme_prefix_clean (s : str) :
  no_tab_cr_lf s -> no_tab_cr_lf (scheme_prefix s).
Proof.
  intros H. unfold scheme_prefix. destruct (negb (str_eqb s []));
    [|apply no_tab_cr_lf_nil].
  apply no_tab_cr_lf_app. split; [exact H | repeat split].
Qed.

(** An assembled URL with an authority splits into what it was assembled
    from. *)
Lemma urlsplit_with_authority (s n pp q : str) :
  scheme_shape s -> no_tab_cr_lf s ->
  netloc_shape n -> no_tab_cr_lf n -> brackets_ok n ->
  _checknetloc n = Ok tt ->
  path_shape pp -> no_tab_cr_lf pp -> path_after_netloc pp ->
  forallb encoded_query_char q = true ->
  urlsplit (scheme_prefix s ++ [47; 47] ++ n ++ pp ++ query_suffix q)
  = Ok (mkSplit s n pp q []).
Proof.
  intros Hs Hcs Hn Hcn Hbr Hchk Hp Hcp Habs Hq.
  destruct (cuts_assembled pp q Hp Hq) as [Hc1 Hc2].
  assert (Hafter : after_netloc (pp ++ query_suffix q)).
  { destruct pp as [|c pp'].
    - cbn [app]. pose proof (query_suffix_head q) as H.
      destruct (query_suffix q); [exact I|]. cbn. auto.
    - cbn in Habs |- *. auto. }
  apply (urlsplit_stages _ s ([47; 47] ++ n ++ pp ++ query_suffix q) n
           (pp ++ query_suffix q) (pp ++ query_suffix q) [] pp q).
  - apply urlsplit_clean_id.
    + apply no_tab_cr_lf_app. split; [apply scheme_prefix_clean; done|].
      apply no_tab_cr_lf_app. split; [repeat split|].
      apply no_tab_cr_lf_app. split; [done|].
      apply no_tab_cr_lf_app. split; [done | apply query_suffix_clean; done].
    + destruct s as [|c s'].
      * reflexivity.
      * apply no_c0_head_app; [apply scheme_shape_head; done|].
        intros H. apply scheme_shape_head in H; done.
  - destruct s as [|c s'].
    + apply urlsplit_scheme_no_alpha. reflexivity.
    + apply scheme_prefix_stage; done.
  - apply urlsplit_netloc_found; done.
  - exact Hc1.
  - exact Hc2.
  - exact Hchk.
Qed.

Lemma firstn_2_app (pp t : str) :
  str_eqb (firstn 2 pp) [47; 47] = false ->
  match t with [] => True | c :: _ => c = 63 end ->
  str_eqb (firstn 2 (pp ++ t)) [47; 47] = false.
Proof.
  intros Hpp Ht. destruct pp as [|a [|b pp]].
  - destruct t as [|c [|d t]]; cbn in *; try done;
      subst; apply str_eqb_neq; discriminate.
  - destruct t as [|c t]; cbn in *; [exact Hpp|].
    subst. apply str_eqb_neq. discriminate.
  - exact Hpp.
Qed.

(** An assembled URL without an authority, whose path does not begin with
    two slashes, splits into what it was assembled from. *)
Lemma urlsplit_without_authority (s pp q : str) :
  scheme_shape s -> no_tab_cr_lf s ->
  path_shape pp -> no_tab_cr_lf pp ->
  str_eqb (firstn 2 pp) [47; 47] = false ->
  (s = [] -> no_c0_head pp /\ no_scheme pp) ->
  forallb encoded_query_char q = true ->
  urlsplit (scheme_prefix s ++ pp ++ query_suffix q)
  = Ok (mkSplit s [] pp q []).
Proof.
  intros Hs Hcs Hp Hcp Hslash Hrel Hq.
  destruct (cuts_assembled pp q Hp Hq) as [Hc1 Hc2].
  apply (urlsplit_stages _ s (pp ++ query_suffix q) []
           (pp ++ query_suffix q) (pp ++ query_suffix q) [] pp q).
  - apply urlsplit_clean_id.
    + apply no_tab_cr_lf_app. split; [apply scheme_prefix_clean; done|].
      apply no_tab_cr_lf_app. split; [done | apply query_suffix_clean; done].
    + destruct s as [|c s'].
      * change (scheme_prefix []) with (@nil Z). cbn [app].
        destruct (Hrel eq_refl) as [Hhead _].
        apply no_c0_head_app; [exact Hhead|]. intros _.
        pose proof (query_suffix_head q) as H.
        destruct (query_suffix q); [exact I|]. subst. reflexivity.
      * apply no_c0_head_app; [apply scheme_shape_head; done|].
        intros H. apply scheme_shape_head in H; done.
  - destruct s as [|c s'].
    + change (scheme_prefix []) with (@nil Z). cbn [app].
      destruct (Hrel eq_refl) as [_ Hno]. apply Hno.
      apply query_suffix_lacks; done.
    + apply scheme_prefix_stage; done.
  - unfold urlsplit_netloc.
    rewrite (firstn_2_app pp (query_suffix q) Hslash (query_suffix_head q)).
    reflexivity.
  - exact Hc1.
  - exact Hc2.
  - reflexivity.
Qed.

End Assembled.

(** ** Canonicalization of a canonical form *)

Lemma urlunsplit_unfold (s n p q : str) :
  urlunsplit (mkSplit s n p q [])
  = scheme_prefix s
    ++ (if with_authority s n p then [47; 47] ++ n ++ rooted p else p)
    ++ query_suffix q.
Proof.
  unfold urlunsplit, with_authority, rooted, scheme_prefix, query_suffix.
  cbn [scheme netloc path query fragment].
  rewrite str_eqb_refl. cbn [negb].
  generalize (if negb (str_eqb n [])
                 || negb (str_eqb s []) && str_in s uses_netloc
                    && negb (str_eqb (firstn 2 p) [47; 47])
              then [47; 47] ++ n ++
                   (if negb (str_eqb p []) && negb (str_eqb (firstn 1 p) [47])
                    then [47] ++ p else p)
              else p).
  intros body.
  destruct (negb (str_eqb s [])); destruct (negb (str_eqb q []));
    rewrite <- ?app_assoc, ?app_nil_r; reflexivity.
Qed.

Lemma rooted_shape (p : str) :
  path_after_netloc (rooted p)
  /\ (path_shape p -> path_shape (rooted p))
  /\ (no_tab_cr_lf p -> no_tab_cr_lf (rooted p))
  /\ rooted (rooted p) = rooted p
  /\ (str_eqb (firstn 2 p) [47; 47] = false ->
      str_eqb (firstn 2 (rooted p)) [47; 47] = false).
Proof.
  unfold rooted. destruct p as [|c p]; [repeat split; auto|].
  rewrite str_eqb_nil_cons. change (firstn 1 (c :: p)) with [c].
  cbn [negb andb].
  destruct (Z.eq_dec c 47) as [->|Hc].
  - rewrite str_eqb_refl. cbn [negb]. rewrite str_eqb_nil_cons.
    change (firstn 1 (47 :: p)) with [47].
    cbn [negb andb]. rewrite str_eqb_refl. cbn [negb].
    split; [|unfold path_shape, no_tab_cr_lf; tauto].
    unfold path_after_netloc. auto.
  - assert (str_eqb [c] [47] = false) as ->
        by (apply str_eqb_neq; congruence).
    cbn [negb]. change ([47] ++ c :: p) with (47 :: c :: p).
    rewrite str_eqb_nil_cons.
    change (firstn 1 (47 :: c :: p)) with [47].
    change (firstn 2 (47 :: c :: p)) with [47; c].
    cbn [negb andb]. rewrite str_eqb_refl. cbn [negb].
    split; [reflexivity|]. split; [|split; [|split]].
    + intros [A B]. unfold path_shape.
      rewrite !(char_in_cons _ 47), A, B. done.
    + intros (A & B & C). unfold no_tab_cr_lf.
      rewrite !(char_in_cons _ 47), A, B, C. done.
    + reflexivity.
    + intros _. apply str_eqb_neq. congruence.
Qed.

Section Idempotence.
Context {rt : Runtime}.

Lemma urlsplit_urlunsplit (s n p q : str) :
  wf_hier s n p ->
  forallb encoded_query_char q = true ->
  (n = [] -> str_eqb (firstn 2 p) [47; 47] = false) ->
  exists p' : str,
    urlsplit (urlunsplit (mkSplit s n p q [])) = Ok (mkSplit s n p' q [])
    /\ forall q' : str,
         urlunsplit (mkSplit s n p' q' []) = urlunsplit (mkSplit s n p q' []).
Proof.
  intros Hwf Hq Hslash. destruct Hwf.
  destruct (rooted_shape p) as (Hr1 & Hr2 & Hr3 & Hr4 & Hr5).
  rewrite urlunsplit_unfold.
  destruct (with_authority s n p) eqn:Hwa.
  - exists (rooted p). split.
    + rewrite <- !app_assoc. apply urlsplit_with_authority; auto.
    + intros q'. rewrite !urlunsplit_unfold, Hwa, Hr4.
      assert (with_authority s n (rooted p) = true) as ->; [|reflexivity].
      unfold with_authority in *. destruct (negb (str_eqb n [])) eqn:Hn;
        [reflexivity|].
      cbn [orb] in *. apply negb_false_iff, str_eqb_eq in Hn.
      apply andb_true_iff in Hwa as [Hwa _]. rewrite Hwa.
      rewrite (Hr5 (Hslash Hn)). reflexivity.
  - exists p. split; [|reflexivity].
    unfold with_authority in Hwa. apply orb_false_iff in Hwa as [Hn _].
    apply negb_false_iff, str_eqb_eq in Hn. subst n.
    apply urlsplit_without_authority; auto.
Qed.

Lemma drop_tracking_idempotent_sorted (l : list (str * str)) :
  drop_tracking (list_sort (drop_tracking l)) = list_sort (drop_tracking l).
Proof.
  unfold drop_tracking at 1. apply forallb_filter_id, forallb_forall.
  intros kv Hkv. apply list_elem_of_In in Hkv.
  rewrite list_sort_Permutation in Hkv. apply list_elem_of_In in Hkv.
  unfold drop_tracking in Hkv. apply filter_In in Hkv as [_ Hkv]. exact Hkv.
Qed.

Lemma normalize_unfold (u : optstr) :
  _normalize_pdf_url u
  = let* parts := urlsplit (strip (or_empty u)) in
    let* new_query :=
      urlencode (list_sort (drop_tracking (parse_qsl (query parts)))) in
    Ok (urlunsplit (mkSplit (scheme parts) (netloc parts) (path parts)
                            new_query [])).
Proof.
  unfold _normalize_pdf_url.
  destruct (strip (or_empty u)) eqn:E; reflexivity.
Qed.

(** C7, as amended. Whenever the canonical form of an input has no leading
    or trailing whitespace, and the input does not combine an empty
    authority with a path that begins with two slashes, the canonical form
    is a fixed point of canonicalization. *)
Theorem normalize_idempotent (u : optstr) (parts : SplitResult) (r : str) :
  urlsplit (strip (or_empty u)) = Ok parts ->
  _normalize_pdf_url u = Ok r ->
  strip r = r ->
  (netloc parts = [] -> str_eqb (firstn 2 (path parts)) [47; 47] = false) ->
  _normalize_pdf_url (PyStr r) = Ok r.
Proof.
  intros Hsplit Hnorm Hstrip Hslash.
  rewrite normalize_unfold, Hsplit in Hnorm. cbn [bind] in Hnorm.
  set (q2 := list_sort (drop_tracking (parse_qsl (query parts)))) in *.
  destruct (urlencode q2) as [nq|] eqn:Henc; [|discriminate].
  cbn [bind] in Hnorm. injection Hnorm as <-.
  destruct (parse_qsl_urlencode q2 nq Henc) as [Hparse Hchars].
  destruct (urlsplit_urlunsplit (scheme parts) (netloc parts) (path parts) nq
              (urlsplit_wf _ _ Hsplit) Hchars Hslash) as (p' & Hre & Hun).
  rewrite normalize_unfold. cbn [or_empty].
  rewrite Hstrip, Hre. cbn [bind query scheme netloc path].
  rewrite Hparse. unfold q2 at 1.
  rewrite drop_tracking_idempotent_sorted, list_sort_idempotent.
  fold q2. rewrite Henc. cbn [bind]. rewrite Hun. reflexivity.
Qed.

End Idempotence.

(** C7 on a URL with outer blanks, an unsorted query, a tracking
    parameter and a fragment: its canonical form canonicalizes to itself. *)
Lemma normalize_idempotent_witness :
  @_normalize_pdf_url plain_runtime
    (PyStr (py " https://x/a?b=1&utm_source=y&a=2#frag "))
  = Ok (py "https://x/a?a=2&b=1")
  /\ @_normalize_pdf_url plain_runtime (PyStr (py "https://x/a?a=2&b=1"))
     = Ok (py "https://x/a?a=2&b=1").
Proof.
  split; [vm_compute; reflexivity|].
  apply (@normalize_idempotent plain_runtime
           (PyStr (py " https://x/a?b=1&utm_source=y&a=2#frag "))
           (mkSplit (py "https") (py "x") (py "/a")
                    (py "b=1&utm_source=y&a=2") (py "frag"))).
  - vm_compute. reflexivity.
  - vm_compute. reflexivity.
  - vm_compute. reflexivity.
  - intros _. vm_compute. reflexivity.
Defined.

(** C7 as stated fails: only the ends of the whole string are stripped, so
    a blank before the fragment stays in the path; once the fragment is
    gone, the blank is at the end and the second pass strips it. *)
Lemma normalize_not_idempotent :
  exists u r r' : str,
    u = py "http://x/a #f"
    /\ (forall rt : Runtime,
           _normalize_pdf_url (PyStr u) = Ok r
           /\ _normalize_pdf_url (PyStr r) = Ok r')
    /\ r <> r'.
Proof.
  exists (py "http://x/a #f"), (py "http://x/a "), (py "http://x/a").
  split; [reflexivity|]. split.
  - intros rt. split; vm_compute; reflexivity.
  - intros H. apply (f_equal (@length Z)) in H. vm_compute in H.
    discriminate H.
Qed.

(** The other way to leave the fixed points: with an empty authority
    before a path of several slashes, each pass reads two more slashes as
    the start of an authority. *)
Lemma normalize_slashes_not_idempotent :
  exists r r' : str,
    (forall rt : Runtime,
        _normalize_pdf_url (PyStr (py "http://////x")) = Ok r
        /\ _normalize_pdf_url (PyStr r) = Ok r')
    /\ r = py "http:////x" /\ r' = py "http://x".
Proof.
  exists (py "http:////x"), (py "http://x").
  split; [|split; reflexivity].
  intros rt. split; vm_compute; reflexivity.
Qed.

(** ** A fragment does not change the other components *)

Lemma dropwhile_app_stop (f : char -> bool) (a t : str) (c : char) :
  f c = false -> dropwhile f (a ++ c :: t) = dropwhile f a ++ c :: t.
Proof.
  intros Hc. induction a as [|x a IH]; cbn [app dropwhile].
  - rewrite Hc. reflexivity.
  - destruct (f x); [exact IH | reflexivity].
Qed.

Lemma char_in_dropwhile (f : char -> bool) (c : char) (s : str) :
  char_in c s = false -> char_in c (dropwhile f s) = false.
Proof.
  induction s as [|x s IH]; [done|]. cbn [dropwhile].
  destruct (f x); [|done].
  rewrite char_in_cons, orb_false_iff. intros [_ H]. auto.
Qed.

Lemma replace_char_app (d : char) (new a b : str) :
  replace_char d new (a ++ b) = replace_char d new a ++ replace_char d new b.
Proof. apply flat_map_app. Qed.

Lemma urlsplit_clean_fragment (b f : str) :
  urlsplit_clean (b ++ [35] ++ f)
  = urlsplit_clean b ++ [35] ++ remove_tab_cr_lf f.
Proof.
  unfold urlsplit_clean, remove_tab_cr_lf, lstrip_by.
  cbn [app]. rewrite dropwhile_app_stop by reflexivity.
  rewrite !replace_char_app. reflexivity.
Qed.

Lemma urlsplit_clean_lacks (c : char) (b : str) :
  char_in c b = false -> char_in c (urlsplit_clean b) = false.
Proof.
  intros H. unfold urlsplit_clean, lstrip_by.
  do 3 apply char_in_replace_char_false. apply char_in_dropwhile. exact H.
Qed.

Lemma urlsplit_scheme_fragment (B F s rest : str) :
  char_in 35 B = false ->
  urlsplit_scheme B = (s, rest) ->
  urlsplit_scheme (B ++ [35] ++ F) = (s, rest ++ [35] ++ F)
  /\ char_in 35 rest = false.
Proof.
  intros HB. unfold urlsplit_scheme.
  destruct (find 58 B) as [i|] eqn:Hfind.
  - pose proof (find_lt _ _ _ Hfind) as Hi.
    rewrite (find_app_l _ _ ([35] ++ F) _ Hfind).
    rewrite scheme_test_prefix by exact Hi.
    destruct (scheme_test B i).
    + intros [= <- <-]. split.
      * rewrite firstn_app, skipn_app.
        replace (i - length B)%nat with 0%nat by lia.
        replace (S i - length B)%nat with 0%nat by lia.
        rewrite firstn_O, skipn_O, app_nil_r. reflexivity.
      * apply char_in_skipn. exact HB.
    + intros [= <- <-]. split; [reflexivity | exact HB].
  - apply find_None in Hfind. intros [= <- <-]. split; [|exact HB].
    rewrite find_app_r by exact Hfind.
    cbn [app]. rewrite find_head. change (35 =? 58) with false. cbv iota.
    destruct (find 58 F) as [j|]; cbn [option_map]; [|reflexivity].
    assert (scheme_test (B ++ 35 :: F) (length B + S j) = false) as ->;
      [|reflexivity].
    unfold scheme_test.
    replace (firstn (length B + S j) (B ++ 35 :: F))
      with (B ++ 35 :: firstn j F).
    2:{ rewrite firstn_app.
        replace (length B + S j - length B)%nat with (S j) by lia.
        rewrite (@firstn_all2 _ (length B + S j)%nat B) by lia.
        reflexivity. }
    rewrite forallb_app. cbn [forallb]. change (scheme_char 35) with false.
    cbn [andb]. rewrite !andb_false_r. reflexivity.
Qed.

Lemma firstn_2_fragment (R F : str) :
  str_eqb (firstn 2 (R ++ [35] ++ F)) [47; 47] = str_eqb (firstn 2 R) [47; 47].
Proof.
  destruct R as [|c [|d R]]; [reflexivity | | reflexivity].
  transitivity false; [|symmetry]; apply str_eqb_neq; cbn; congruence.
Qed.

Lemma after_netloc_fragment (w F : str) :
  after_netloc w -> after_netloc (w ++ [35] ++ F).
Proof. destruct w; cbn; auto. Qed.

Section FragmentStage.
Context {rt : Runtime}.

Lemma urlsplit_netloc_fragment (R F : str) :
  urlsplit_netloc (R ++ [35] ++ F)
  = let* nw := urlsplit_netloc R in Ok (fst nw, snd nw ++ [35] ++ F).
Proof.
  unfold urlsplit_netloc. rewrite firstn_2_fragment.
  destruct (str_eqb (firstn 2 R) [47; 47]) eqn:E; [|reflexivity].
  apply firstn_2_slashes in E as [t ->].
  destruct (span_delims t) as (n & w & -> & Hn & Hw).
  rewrite <- !app_assoc.
  rewrite (splitnetloc_spec n w Hn Hw).
  rewrite (splitnetloc_spec n (w ++ [35] ++ F) Hn
             (after_netloc_fragment w F Hw)).
  destruct (char_in 91 n && negb (char_in 93 n)
            || char_in 93 n && negb (char_in 91 n)); [reflexivity|].
  destruct (char_in 91 n && char_in 93 n && negb (bracketed_netloc_ok n));
    reflexivity.
Qed.

Lemma urlsplit_netloc_lacks (c : char) (R n w : str) :
  char_in c R = false -> urlsplit_netloc R = Ok (n, w) ->
  char_in c w = false.
Proof.
  intros HR H. apply urlsplit_netloc_spec in H as [(-> & _)|(_ & _ & ->)].
  - rewrite !char_in_app, !orb_false_iff in HR. tauto.
  - exact HR.
Qed.

Lemma urlsplit_fragment (b f : str) :
  char_in 35 b = false ->
  urlsplit (b ++ [35] ++ f)
  = let* p := urlsplit b in
    Ok (mkSplit (scheme p) (netloc p) (path p) (query p)
                (remove_tab_cr_lf f)).
Proof.
  intros Hb. unfold urlsplit. rewrite urlsplit_clean_fragment.
  pose proof (urlsplit_clean_lacks 35 b Hb) as HB.
  destruct (urlsplit_scheme (urlsplit_clean b)) as [s rest] eqn:Hs.
  destruct (urlsplit_scheme_fragment _ (remove_tab_cr_lf f) _ _ HB Hs)
    as [-> Hrest].
  rewrite urlsplit_netloc_fragment.
  destruct (urlsplit_netloc rest) as [[n w]|e] eqn:Hn; cbn [bind fst snd];
    [|reflexivity].
  pose proof (urlsplit_netloc_lacks 35 _ _ _ Hrest Hn) as Hw.
  change (w ++ [35] ++ remove_tab_cr_lf f)
    with (w ++ 35 :: remove_tab_cr_lf f).
  rewrite (cut_app_sep 35 w _ Hw), (cut_no_sep 35 w Hw).
  destruct (cut 63 w) as [p q]. destruct (_checknetloc n) as [[]|e];
    reflexivity.
Qed.

End FragmentStage.

Lemma rstrip_id_iff (f : char -> bool) (s : str) :
  rstrip_by f s = s
  <-> match rev s with [] => True | c :: _ => f c = false end.
Proof.
  unfold rstrip_by. split.
  - intros H. apply (f_equal (@rev Z)) in H. rewrite rev_involutive in H.
    pose proof (dropwhile_head f (rev s)) as Hd. rewrite H in Hd. exact Hd.
  - intros H. rewrite (dropwhile_id f (rev s) H). apply rev_involutive.
Qed.

Lemma rstrip_lstrip_id (f : char -> bool) (b : str) :
  rstrip_by f b = b -> rstrip_by f (lstrip_by f b) = lstrip_by f b.
Proof.
  unfold lstrip_by. induction b as [|x b IH]; [done|].
  intros H. cbn [dropwhile]. destruct (f x) eqn:Hx; [|exact H].
  apply IH. apply rstrip_id_iff. apply rstrip_id_iff in H. cbn [rev] in H.
  destruct (rev b) as [|d r] eqn:Hr; [done|]. exact H.
Qed.

Lemma strip_fragment (b f : str) :
  strip (b ++ [35] ++ f)
  = lstrip_by isspace b ++ [35] ++ rstrip_by isspace f.
Proof.
  unfold strip, strip_by, lstrip_by. cbn [app].
  rewrite dropwhile_app_stop by reflexivity.
  unfold rstrip_by. rewrite rev_app_distr. cbn [rev].
  rewrite <- app_assoc. cbn [app].
  rewrite dropwhile_app_stop by reflexivity.
  rewrite rev_app_distr. cbn [rev]. rewrite rev_involutive, <- app_assoc.
  reflexivity.
Qed.

Section SameResource.
Context {rt : Runtime}.

Lemma normalize_same_parts (u1 u2 : optstr) (p1 p2 : SplitResult) :
  urlsplit (strip (or_empty u1)) = Ok p1 ->
  urlsplit (strip (or_empty u2)) = Ok p2 ->
  scheme p1 = scheme p2 -> netloc p1 = netloc p2 -> path p1 = path p2 ->
  drop_tracking (parse_qsl (query p1))
    ≡ₚ drop_tracking (parse_qsl (query p2)) ->
  _normalize_pdf_url u1 = _normalize_pdf_url u2.
Proof.
  intros H1 H2 Hs Hn Hp Hq. rewrite !normalize_unfold, H1, H2.
  cbn [bind]. rewrite Hs, Hn, Hp, (list_sort_Permutation_eq _ _ Hq).
  reflexivity.
Qed.

Lemma normalize_fragment (b f : str) :
  char_in 35 b = false -> rstrip_by isspace b = b ->
  _normalize_pdf_url (PyStr (b ++ [35] ++ f)) = _normalize_pdf_url (PyStr b).
Proof.
  intros Hb Hr. rewrite !normalize_unfold. cbn [or_empty].
  rewrite strip_fragment. unfold strip, strip_by.
  rewrite (rstrip_lstrip_id isspace b Hr).
  rewrite urlsplit_fragment by (apply char_in_dropwhile; exact Hb).
  destruct (urlsplit (lstrip_by isspace b)) as [p|e]; reflexivity.
Qed.

End SameResource.

Section Independence.
Context {rt : Runtime}.

(** C8, as amended. Two inputs whose stripped forms split into the same
    scheme, authority and path, and whose query parameters outside the
    deny-list agree up to order, have the same canonical form, whatever
    their fragments; appending a fragment to an input that has no [#] and
    no trailing whitespace does not change the canonical form; and the two
    pairs of URLs of the specification canonicalize identically. *)
Theorem normalize_order_tracking_fragment :
  (forall (u1 u2 : optstr) (p1 p2 : SplitResult),
      urlsplit (strip (or_empty u1)) = Ok p1 ->
      urlsplit (strip (or_empty u2)) = Ok p2 ->
      scheme p1 = scheme p2 -> netloc p1 = netloc p2 -> path p1 = path p2 ->
      drop_tracking (parse_qsl (query p1))
        ≡ₚ drop_tracking (parse_qsl (query p2)) ->
      _normalize_pdf_url u1 = _normalize_pdf_url u2)
  /\ (forall b f : str,
         char_in 35 b = false -> rstrip_by isspace b = b ->
         _normalize_pdf_url (PyStr (b ++ [35] ++ f))
         = _normalize_pdf_url (PyStr b))
  /\ _normalize_pdf_url (PyStr (py "https://x/a?b=1&a=2"))
     = _normalize_pdf_url (PyStr (py "https://x/a?a=2&b=1"))
  /\ _normalize_pdf_url (PyStr (py "https://x/a?utm_source=y&id=5"))
     = _normalize_pdf_url (PyStr (py "https://x/a?id=5")).
Proof.
  split; [exact normalize_same_parts|].
  split; [exact normalize_fragment|].
  split; vm_compute; reflexivity.
Qed.

End Independence.

(** C8 on two URLs that differ in the order of their parameters, in a
    tracking parameter, in their fragment and in outer blanks; and on a URL
    with and without a fragment. *)
Lemma normalize_order_tracking_fragment_witness :
  @_normalize_pdf_url plain_runtime
    (PyStr (py "https://x/a?b=1&TS=9&a=2#top"))
  = @_normalize_pdf_url plain_runtime (PyStr (py " https://x/a?a=2&b=1 "))
  /\ @_normalize_pdf_url plain_runtime
       (PyStr (py "https://x/a?id=5" ++ [35] ++ py "page=2"))
     = @_normalize_pdf_url plain_runtime (PyStr (py "https://x/a?id=5")).
Proof.
  pose proof (@normalize_order_tracking_fragment plain_runtime)
    as (Hparts & Hfrag & _).
  split.
  - apply (Hparts _ _
             (mkSplit (py "https") (py "x") (py "/a")
                      (py "b=1&TS=9&a=2") (py "top"))
             (mkSplit (py "https") (py "x") (py "/a")
                      (py "a=2&b=1") [])).
    + vm_compute. reflexivity.
    + vm_compute. reflexivity.
    + reflexivity.
    + reflexivity.
    + reflexivity.
    + vm_compute. apply perm_swap.
  - apply Hfrag; vm_compute; reflexivity.
Defined.

(** C8 as stated fails: a blank before the fragment is inside the string,
    where [strip] does not reach it, and it stays in the path; without the
    fragment the same blank is at the end and is stripped. The two inputs
    differ only in their fragment and have different canonical forms. *)
Lemma fragment_changes_canonical_form :
  exists b r1 r2 : str,
    b = py "http://x/a "
    /\ char_in 35 b = false
    /\ (forall rt : Runtime,
           _normalize_pdf_url (PyStr b) = Ok r1
           /\ _normalize_pdf_url (PyStr (b ++ py "#f")) = Ok r2)
    /\ r1 <> r2.
Proof.
  exists (py "http://x/a "), (py "http://x/a"), (py "http://x/a ").
  split; [reflexivity|]. split; [reflexivity|]. split.
  - intros rt. split; vm_compute; reflexivity.
  - intros H. apply (f_equal (@length Z)) in H. vm_compute in H.
    discriminate H.
Qed.

(** The same happens before a tracking parameter. *)
Lemma tracking_changes_canonical_form :
  exists r1 r2 : str,
    (forall rt : Runtime,
        _normalize_pdf_url (PyStr (py "http://x/a ")) = Ok r1
        /\ _normalize_pdf_url (PyStr (py "http://x/a ?ts=1")) = Ok r2)
    /\ r1 = py "http://x/a" /\ r2 = py "http://x/a ".
Proof.
  exists (py "http://x/a"), (py "http://x/a ").
  split; [|split; reflexivity].
  intros rt. split; vm_compute; reflexivity.
Qed.

(** * Further properties of the store *)

(** ** The document index *)

Lemma seen_of_mark_seen_ne (st : Storage) (src id src' : str) :
  src <> src' -> seen_of (mark_seen st src id) src' = seen_of st src'.
Proof.
  intros H. unfold seen_of at 1. simpl.
  rewrite lookup_insert_ne by done. reflexivity.
Qed.

(** X1. After [mark_seen(src, id)], [exists] answers true for that id of that
    source, and answers as before for every other id and every other
    source. *)
Theorem exists_after_mark_seen (st : Storage) (src id src' id' : str) :
  exists_ (mark_seen st src id) src' id'
  = exists_ st src' id' || (str_eqb src src' && str_eqb id id').
Proof.
  unfold exists_, str_eqb. destruct (decide (src = src')) as [<-|Hsrc].
  - rewrite seen_of_mark_seen, (bool_decide_eq_true_2 (src = src)) by done.
    cbn [andb]. destruct (decide (id = id')) as [<-|Hid].
    + rewrite (bool_decide_eq_true_2 (id = id)) by done.
      rewrite orb_true_r. apply bool_decide_eq_true.
      apply elem_of_union. left. apply elem_of_singleton. reflexivity.
    + rewrite (bool_decide_eq_false_2 (id = id')) by done.
      rewrite orb_false_r. apply bool_decide_ext.
      rewrite elem_of_union, elem_of_singleton. intuition congruence.
  - rewrite (bool_decide_eq_false_2 (src = src')) by done.
    cbn [andb]. rewrite orb_false_r.
    rewrite seen_of_mark_seen_ne by done. reflexivity.
Qed.

(** ** The record log *)

Lemma lines_of_append_line_ne (st : Storage) (r : DocumentRecord) (src : str) :
  source r <> src -> lines_of (append_line st r) src = lines_of st src.
Proof.
  intros H. unfold lines_of at 1. simpl.
  rewrite lookup_insert_ne by done. reflexivity.
Qed.

Lemma lines_of_put_record (st : Storage) (r : DocumentRecord) (src : str) :
  lines_of (put_record st r) src = lines_of st src ++ of_source src [r].
Proof.
  rewrite put_record_unfold, lines_of_mark_seen. unfold of_source.
  cbn [List.filter]. destruct (str_eqb (source r) src) eqn:E.
  - apply str_eqb_eq in E. subst src. apply lines_of_append_line.
  - apply str_eqb_neq in E. rewrite app_nil_r.
    apply lines_of_append_line_ne. exact E.
Qed.

Lemma exists_put_record (st : Storage) (r : DocumentRecord) (src id : str) :
  exists_ (put_record st r) src id
  = exists_ st src id
    || existsb (fun x => str_eqb (doc_id x) id) (of_source src [r]).
Proof.
  rewrite put_record_unfold. unfold exists_, of_source. cbn [List.filter].
  destruct (str_eqb (source r) src) eqn:E.
  - apply str_eqb_eq in E. subst src.
    rewrite seen_of_mark_seen, seen_of_append_line.
    cbn [existsb]. rewrite orb_false_r. unfold str_eqb.
    destruct (decide (doc_id r = id)) as [<-|Hid].
    + rewrite (bool_decide_eq_true_2 (doc_id r = doc_id r)) by done.
      rewrite orb_true_r. apply bool_decide_eq_true.
      apply elem_of_union. left. apply elem_of_singleton. reflexivity.
    + rewrite (bool_decide_eq_false_2 (doc_id r = id)) by done.
      rewrite orb_false_r. apply bool_decide_ext.
      rewrite elem_of_union, elem_of_singleton. intuition congruence.
  - apply str_eqb_neq in E. cbn [existsb]. rewrite orb_false_r.
    rewrite seen_of_mark_seen_ne by done. reflexivity.
Qed.

(** X2. A batch of [put_record] calls extends the log of every source by the
    records of the batch that belong to the source, in the order of the
    calls and behind the lines that were there; the ids marked seen are
    the ones that were marked and the ids of the batch; the attachment
    index and the files are not touched. *)
Theorem put_record_batch (records : list DocumentRecord) (st : Storage)
  (src : str) :
  lines_of (fold_left put_record records st) src
  = lines_of st src ++ of_source src records
  /\ (forall id : str,
         exists_ (fold_left put_record records st) src id
         = exists_ st src id
           || existsb (fun r => str_eqb (doc_id r) id)
                      (of_source src records))
  /\ pdf_seen_table (fold_left put_record records st) = pdf_seen_table st
  /\ files (fold_left put_record records st) = files st.
Proof.
  revert st. induction records as [|r records IH]; intros st.
  - cbn [fold_left]. unfold of_source. cbn [List.filter existsb].
    rewrite app_nil_r. split; [reflexivity|]. split; [|done].
    intros id. rewrite orb_false_r. reflexivity.
  - cbn [fold_left]. destruct (IH (put_record st r)) as (Hl & He & Hp & Hf).
    assert (of_source src (r :: records)
            = of_source src [r] ++ of_source src records) as Hsplit.
    { unfold of_source. cbn [List.filter].
      destruct (str_eqb (source r) src); reflexivity. }
    split; [|split; [|split]].
    + rewrite Hl, lines_of_put_record, Hsplit, app_assoc. reflexivity.
    + intros id. rewrite He, exists_put_record, Hsplit, existsb_app, orb_assoc.
      reflexivity.
    + rewrite Hp. reflexivity.
    + rewrite Hf. reflexivity.
Qed.

(** ** The inner loop of the scheduler *)

Section SavedCount.
Variable Store : Type.
Variable put : Store -> DocumentRecord -> Store * result unit.

(** X15. The number of records that the inner loop of [run_once] reports as
    saved lies between the count it started from and that count plus the
    size of the batch. *)
Theorem save_records_count (records : list DocumentRecord) (st st' : Store)
  (saved n : Z) :
  save_records put st records saved = (st', Ok n) ->
  saved <= n <= saved + Z.of_nat (length records).
Proof.
  revert st saved. induction records as [|r records IH]; intros st saved.
  - cbn [save_records]. intros [= _ <-]. cbn [length]. lia.
  - cbn [save_records]. destruct (put st r) as [st1 [[]|e]].
    + intros H. apply IH in H. cbn [length]. lia.
    + destruct (is_Exception e); [|discriminate].
      intros H. apply IH in H. cbn [length]. lia.
Qed.

End SavedCount.

(** X16. On the local store, whose [put_record] does not fail, the inner loop
    of [run_once] saves every record of the batch and counts each. *)
Theorem save_records_local (records : list DocumentRecord) (st : Storage)
  (saved : Z) :
  save_records local_put st records saved
  = (fold_left put_record records st,
     Ok (saved + Z.of_nat (length records))).
Proof.
  revert st saved. induction records as [|r records IH]; intros st saved.
  - cbn [save_records fold_left length]. rewrite Z.add_0_r. reflexivity.
  - cbn [save_records fold_left]. unfold local_put at 1. rewrite IH.
    cbn [length]. do 2 f_equal. lia.
Qed.

(** ** What [put_pdf] leaves alone *)

Lemma path_exists_write_bytes (st : Storage) (p q : str) (content : bytes) :
  path_exists (write_bytes st p content) q
  = path_exists st q || str_eqb p q.
Proof.
  unfold path_exists, write_bytes, str_eqb. simpl.
  destruct (decide (p = q)) as [<-|Hpq].
  - rewrite lookup_insert_eq, (bool_decide_eq_true_2 (p = p)) by done.
    rewrite orb_true_r. apply bool_decide_eq_true. eauto.
  - rewrite lookup_insert_ne, (bool_decide_eq_false_2 (p = q)) by done.
    rewrite orb_false_r. reflexivity.
Qed.

Lemma insert_or_ignore_frame (st : Storage) (src key p : str) :
  root (insert_or_ignore st src key p) = root st
  /\ records_jsonl (insert_or_ignore st src key p) = records_jsonl st
  /\ seen_table (insert_or_ignore st src key p) = seen_table st.
Proof.
  unfold insert_or_ignore. destruct (pdf_seen_of st src !! key); done.
Qed.

Lemma pdf_seen_of_insert_or_ignore (st : Storage) (src key p : str) :
  is_Some (pdf_seen_of (insert_or_ignore st src key p) src !! key).
Proof.
  destruct (pdf_seen_of st src !! key) as [p0|] eqn:E.
  - unfold insert_or_ignore. rewrite E, E. eauto.
  - rewrite (pdf_seen_of_insert st src key p src E).
    destruct (decide (src = src)); [|done].
    rewrite lookup_insert_eq. eauto.
Qed.

Lemma pdf_seen_of_write_bytes (st : Storage) (p src : str) (content : bytes) :
  pdf_seen_of (write_bytes st p content) src = pdf_seen_of st src.
Proof. reflexivity. Qed.

Lemma insert_or_ignore_present (st : Storage) (src key p p0 : str) :
  pdf_seen_of st src !! key = Some p0 -> insert_or_ignore st src key p = st.
Proof. intros H. unfold insert_or_ignore. rewrite H. reflexivity. Qed.

Section PutPdfFrame.
Context {rt : Runtime}.

(** X4. [put_pdf] touches neither the record log nor the document index; it
    never replaces or removes a file, and the only file it can create is
    the one at the path it returns, which exists when it returns; the
    attachment index of every other source stays as it was. *)
Theorem put_pdf_frame (st st1 : Storage) (src doc_id pdf_url p : str)
  (content : bytes) :
  put_pdf st src doc_id pdf_url content = Ok (st1, p) ->
  root st1 = root st
  /\ records_jsonl st1 = records_jsonl st
  /\ seen_table st1 = seen_table st
  /\ (forall (q : str) (b : bytes),
         files st !! q = Some b -> files st1 !! q = Some b)
  /\ (forall q : str, q <> p -> files st1 !! q = files st !! q)
  /\ path_exists st1 p = true
  /\ (forall src' : str,
         src' <> src -> pdf_seen_of st1 src' = pdf_seen_of st src').
Proof.
  unfold put_pdf, _pdf_seen_path.
  destruct (_pdf_key (PyStr pdf_url)) as [key|e]; cbn [bind]; [|discriminate].
  destruct (pdf_seen_of st src !! key) as [p0|] eqn:Hprev.
  - destruct (negb (str_eqb p0 []) && path_exists st p0) eqn:Hre.
    + intros [= <- <-]. apply andb_true_iff in Hre as [_ Hex].
      repeat split; auto.
    + set (name := match _pdf_name_from_url (PyStr pdf_url) with
                   | PyStr (c :: n) => c :: n
                   | _ => _safe_filename (doc_id ++ py ".pdf") 160
                   end).
      set (q0 := pdf_path st src name).
      intros [= <- <-].
      assert (insert_or_ignore
                (if path_exists st q0 then st else write_bytes st q0 content)
                src key q0
              = (if path_exists st q0 then st else write_bytes st q0 content))
        as ->.
      { apply (insert_or_ignore_present _ src key q0 p0).
        destruct (path_exists st q0); [exact Hprev|].
        rewrite pdf_seen_of_write_bytes. exact Hprev. }
      destruct (path_exists st q0) eqn:Hq0.
      * repeat split; auto.
      * split; [reflexivity|]. split; [reflexivity|]. split; [reflexivity|].
        split; [|split; [|split]].
        -- intros q b Hq. cbn. rewrite lookup_insert_ne; [exact Hq|].
           intros <-. unfold path_exists in Hq0.
           apply bool_decide_eq_false in Hq0. apply Hq0. eauto.
        -- intros q Hq. cbn. rewrite lookup_insert_ne by done. reflexivity.
        -- rewrite path_exists_write_bytes, str_eqb_refl, orb_true_r.
           reflexivity.
        -- intros src' _. reflexivity.
  - set (name := match _pdf_name_from_url (PyStr pdf_url) with
                 | PyStr (c :: n) => c :: n
                 | _ => _safe_filename (doc_id ++ py ".pdf") 160
                 end).
    set (q0 := pdf_path st src name).
    intros [= <- <-].
    set (st0 := if path_exists st q0 then st else write_bytes st q0 content).
    assert (pdf_seen_of st0 src !! key = None) as Hnone
        by (unfold st0; destruct (path_exists st q0); exact Hprev).
    destruct (insert_or_ignore_frame st0 src key q0) as (Hr & Hl & Hs).
    rewrite Hr, Hl, Hs, files_insert_or_ignore.
    assert (forall src', src' <> src ->
              pdf_seen_of (insert_or_ignore st0 src key q0) src'
              = pdf_seen_of st src') as Hother.
    { intros src' Hne. rewrite (pdf_seen_of_insert st0 src key q0 src' Hnone).
      destruct (decide (src = src')); [congruence|].
      unfold st0. destruct (path_exists st q0); reflexivity. }
    assert (path_exists (insert_or_ignore st0 src key q0) q0
            = path_exists st0 q0) as Hpe
        by (unfold path_exists; rewrite files_insert_or_ignore; reflexivity).
    rewrite Hpe. unfold st0. destruct (path_exists st q0) eqn:Hq0.
    + repeat split; auto.
    + split; [reflexivity|]. split; [reflexivity|]. split; [reflexivity|].
      split; [|split; [|split]].
      * intros q b Hq. cbn. rewrite lookup_insert_ne; [exact Hq|].
        intros <-. unfold path_exists in Hq0.
        apply bool_decide_eq_false in Hq0. apply Hq0. eauto.
      * intros q Hq. cbn. rewrite lookup_insert_ne by done. reflexivity.
      * rewrite path_exists_write_bytes, str_eqb_refl, orb_true_r.
        reflexivity.
      * exact Hother.
Qed.

(** X5. After [put_pdf] has stored a URL, [pdf_seen] answers true for it and
    for every URL with the same canonical form, for instance the URL
    followed by a fragment; in a consistent index [_pdf_seen_path] then
    gives the path that [put_pdf] returned. *)
Theorem pdf_seen_after_put_pdf (st st1 : Storage)
  (src doc_id pdf_url p : str) (content : bytes) :
  put_pdf st src doc_id pdf_url content = Ok (st1, p) ->
  (forall url2 : str,
      _normalize_pdf_url (PyStr url2) = _normalize_pdf_url (PyStr pdf_url) ->
      pdf_seen st1 src url2 = Ok true
      /\ (index_consistent st -> _pdf_seen_path st1 src url2 = Ok (Some p)))
  /\ (forall f : str,
         char_in 35 pdf_url = false -> rstrip_by isspace pdf_url = pdf_url ->
         pdf_seen st1 src (pdf_url ++ [35] ++ f) = Ok true).
Proof.
  intros Hput.
  assert (forall url2 : str,
      _normalize_pdf_url (PyStr url2) = _normalize_pdf_url (PyStr pdf_url) ->
      pdf_seen st1 src url2 = Ok true
      /\ (index_consistent st -> _pdf_seen_path st1 src url2 = Ok (Some p)))
    as Hmain.
  { intros url2 Hnorm. unfold pdf_seen, _pdf_seen_path.
    rewrite (pdf_key_canonical url2 pdf_url Hnorm).
    unfold put_pdf, _pdf_seen_path in Hput.
    destruct (_pdf_key (PyStr pdf_url)) as [key|e]; cbn [bind] in *;
      [|discriminate].
    destruct (pdf_seen_of st src !! key) as [p0|] eqn:Hprev.
    - destruct (negb (str_eqb p0 []) && path_exists st p0) eqn:Hre.
      + injection Hput as <- <-. rewrite Hprev. split; [|reflexivity].
        rewrite bool_decide_eq_true_2 by eauto. reflexivity.
      + split.
        * injection Hput as <- _.
          rewrite bool_decide_eq_true_2; [reflexivity|].
          apply pdf_seen_of_insert_or_ignore.
        * intros Hinv. destruct (Hinv src key p0 Hprev) as [Hne Hex].
          apply str_eqb_neq in Hne. rewrite Hne, Hex in Hre. discriminate.
    - injection Hput as <- <-. split.
      + rewrite bool_decide_eq_true_2; [reflexivity|].
        apply pdf_seen_of_insert_or_ignore.
      + intros _.
        match goal with
        | |- context [insert_or_ignore ?s src key ?q] =>
            set (st0 := s); set (q0 := q)
        end.
        assert (pdf_seen_of st0 src !! key = None) as Hnone.
        { unfold st0.
          match goal with
          | |- context [if ?c then _ else _] => destruct c
          end; exact Hprev. }
        rewrite (pdf_seen_of_insert st0 src key q0 src Hnone).
        destruct (decide (src = src)); [|done].
        rewrite lookup_insert_eq. reflexivity. }
  split; [exact Hmain|].
  intros f Hb Hr. apply Hmain. apply normalize_fragment; assumption.
Qed.

End PutPdfFrame.

(** * Further properties of the scheduler *)

(** ** The next full hour *)

(** X11. [next_hour_boundary] returns the first full hour after [now]: it is on
    the hour, later than [now] and at most one hour later. In the last
    hour of the last representable day it raises [OverflowError]. *)
Theorem next_hour_boundary_spec (now : datetime) :
  valid_datetime now ->
  (ordinal now < MAXORDINAL \/ hour now < 23 ->
   exists r : datetime,
     next_hour_boundary now = Ok r
     /\ valid_datetime r
     /\ minute r = 0 /\ second r = 0 /\ microsecond r = 0
     /\ to_microseconds now < to_microseconds r
        <= to_microseconds now + 3600000000)
  /\ (ordinal now = MAXORDINAL -> hour now = 23 ->
      next_hour_boundary now = Raise OverflowError).
Proof.
  intros (Ho & Hh & Hm & Hs & Hu).
  unfold next_hour_boundary, add_hours. cbn [hour ordinal minute second
                                             microsecond].
  split.
  - intros Hroom.
    assert ((hour now < 23 /\ (hour now + 1) / 24 = 0
             /\ (hour now + 1) mod 24 = hour now + 1)
            \/ hour now = 23) as [(Hlt & Hd & Hr)|H23].
    { destruct (Z.eq_dec (hour now) 23) as [E|E]; [right; exact E|left].
      split; [lia|]. split; [apply Z.div_small | apply Z.mod_small]; lia. }
    + rewrite Hd, Hr, Z.add_0_r.
      assert ((1 <=? ordinal now) && (ordinal now <=? MAXORDINAL) = true)
        as -> by (apply andb_true_iff; split; apply Z.leb_le; lia).
      eexists. split; [reflexivity|].
      unfold valid_datetime, to_microseconds.
      cbn [hour ordinal minute second microsecond].
      repeat split; try lia.
    + rewrite H23. change ((23 + 1) / 24) with 1.
      change ((23 + 1) mod 24) with 0.
      assert ((1 <=? ordinal now + 1) && (ordinal now + 1 <=? MAXORDINAL)
              = true)
        as -> by (apply andb_true_iff; split; apply Z.leb_le; lia).
      eexists. split; [reflexivity|].
      unfold valid_datetime, to_microseconds.
      cbn [hour ordinal minute second microsecond].
      rewrite H23. repeat split; try lia.
  - intros Hmax H23. rewrite H23, Hmax. reflexivity.
Qed.

(** At 10:30:15 the next boundary is 11:00:00 of the same day; at 23:59 of
    the last day there is none. *)
Lemma next_hour_boundary_spec_witness :
  (exists r : datetime,
      next_hour_boundary example_now = Ok r
      /\ valid_datetime r
      /\ minute r = 0 /\ second r = 0 /\ microsecond r = 0
      /\ to_microseconds example_now < to_microseconds r
         <= to_microseconds example_now + 3600000000)
  /\ next_hour_boundary (mkDatetime MAXORDINAL 23 59 0 0)
     = Raise OverflowError.
Proof.
  split.
  - apply (next_hour_boundary_spec example_now).
    + unfold valid_datetime, example_now, MAXORDINAL. simpl. lia.
    + left. unfold example_now, MAXORDINAL. simpl. lia.
  - apply (next_hour_boundary_spec (mkDatetime MAXORDINAL 23 59 0 0)).
    + unfold valid_datetime, MAXORDINAL. simpl. lia.
    + reflexivity.
    + reflexivity.
Defined.

(** ** The print redirection *)

Lemma split_nonempty (c : char) (s : str) : split c s <> [].
Proof.
  induction s as [|x s IH]; cbn [split]; [done|].
  destruct (x =? c); [done|]. destruct (split c s); done.
Qed.

Lemma split_pieces (c : char) (s : str) :
  Forall (fun w => char_in c w = false) (split c s).
Proof.
  induction s as [|x s IH]; cbn [split].
  - constructor; [reflexivity | constructor].
  - destruct (Z.eqb_spec x c) as [->|Hxc].
    + constructor; [reflexivity | exact IH].
    + destruct (split c s) as [|w ws]; [repeat constructor|].
      * rewrite char_in_cons. cbn [char_in existsb]. rewrite orb_false_r.
        apply Z.eqb_neq. congruence.
      * inversion IH as [|? ? Hw Hws]; subst. constructor; [|exact Hws].
        rewrite char_in_cons, Hw, orb_false_r. apply Z.eqb_neq. congruence.
Qed.

Lemma split1_Some (c : char) (s a r : str) :
  split1 c s = (a, Some r) -> s = a ++ c :: r /\ char_in c a = false.
Proof.
  unfold split1. destruct (find c s) as [i|] eqn:Hfind; [|discriminate].
  intros [= <- <-]. apply find_Some. exact Hfind.
Qed.

Lemma split1_None (c : char) (s a : str) :
  split1 c s = (a, None) -> char_in c s = false /\ a = s.
Proof.
  unfold split1. destruct (find c s) as [i|] eqn:Hfind; [discriminate|].
  intros [= <-]. split; [apply find_None; exact Hfind | reflexivity].
Qed.

Lemma last_cons_nonempty {A : Type} (x d : A) (l : list A) :
  l <> [] -> List.last (x :: l) d = List.last l d.
Proof. destruct l; [done | reflexivity]. Qed.

Lemma removelast_cons_nonempty {A : Type} (x : A) (l : list A) :
  l <> [] -> removelast (x :: l) = x :: removelast l.
Proof. destruct l; [done | reflexivity]. Qed.

Lemma unfinished_line_newline (line rest : str) :
  char_in 10 line = false ->
  unfinished_line (line ++ 10 :: rest) = unfinished_line rest.
Proof.
  intros H. unfold unfinished_line. rewrite split_app_sep by exact H.
  apply last_cons_nonempty, split_nonempty.
Qed.

Lemma complete_lines_newline (line rest : str) :
  char_in 10 line = false ->
  complete_lines (line ++ 10 :: rest)
  = match rstrip_by isspace line with
    | [] => []
    | l => [l]
    end ++ complete_lines rest.
Proof.
  intros H. unfold complete_lines. rewrite split_app_sep by exact H.
  rewrite removelast_cons_nonempty by apply split_nonempty.
  cbn [List.map List.filter].
  destruct (rstrip_by isspace line) as [|x l]; reflexivity.
Qed.

Lemma lines_no_newline (text : str) :
  char_in 10 text = false ->
  unfinished_line text = text /\ complete_lines text = [].
Proof.
  intros H. unfold unfinished_line, complete_lines.
  rewrite split_no_sep by exact H. done.
Qed.

Lemma drain_spec (fuel : nat) (buf : str) (out : list str) :
  (length buf <= fuel)%nat ->
  drain fuel buf out = (unfinished_line buf, out ++ complete_lines buf).
Proof.
  revert buf out. induction fuel as [|fuel IH]; intros buf out Hlen.
  - destruct buf; [|cbn in Hlen; lia]. cbn. rewrite app_nil_r. reflexivity.
  - cbn [drain]. destruct (split1 10 buf) as [line [rest|]] eqn:E.
    + apply split1_Some in E as [-> Hline].
      rewrite IH by (rewrite length_app in Hlen; cbn in Hlen; lia).
      rewrite unfinished_line_newline, complete_lines_newline by exact Hline.
      destruct (rstrip_by isspace line); [reflexivity|].
      rewrite <- app_assoc. reflexivity.
    + apply split1_None in E as [Hno _].
      destruct (lines_no_newline buf Hno) as [-> ->].
      rewrite app_nil_r. reflexivity.
Qed.

Lemma stream_write_nonempty (s : _StreamToLogger) (msg : str) :
  msg <> [] ->
  stream_write s msg
  = mkStream (unfinished_line (_buf s ++ msg))
             (logged s ++ complete_lines (_buf s ++ msg)).
Proof.
  intros Hmsg. unfold stream_write. destruct msg as [|c msg]; [done|].
  rewrite drain_spec by lia. reflexivity.
Qed.

(** X12. [write] logs the complete lines of the buffered text followed by the
    message, each stripped on the right and the blank ones left out, and
    keeps the text behind the last newline in the buffer. (An empty
    message returns at once; the buffer then still has to be free of
    newlines, as [write] and [flush] leave it.) *)
Theorem stream_write_spec (s : _StreamToLogger) (msg : str) :
  msg <> [] \/ char_in 10 (_buf s) = false ->
  stream_write s msg
  = mkStream (unfinished_line (_buf s ++ msg))
             (logged s ++ complete_lines (_buf s ++ msg)).
Proof.
  destruct msg as [|c msg].
  - intros [H|H]; [done|]. rewrite app_nil_r.
    destruct (lines_no_newline _ H) as [-> ->]. rewrite app_nil_r.
    destruct s; reflexivity.
  - intros _. apply stream_write_nonempty. done.
Qed.

(** Two lines, the first with trailing blanks, a blank line between them,
    and the beginning of a third line. *)
Lemma stream_write_spec_witness :
  stream_write (mkStream (py "ab") [])
               (py "c  " ++ [10] ++ py " " ++ [10] ++ py "d" ++ [10]
                ++ py "ef")
  = mkStream (py "ef") [py "abc"; py "d"].
Proof.
  rewrite (stream_write_spec (mkStream (py "ab") [])); [|left; discriminate].
  vm_compute. reflexivity.
Defined.

Lemma split_app (c : char) (x y : str) :
  split c (x ++ y)
  = removelast (split c x) ++ split c (List.last (split c x) [] ++ y).
Proof.
  induction x as [|a x IH]; [reflexivity|].
  cbn [app split]. destruct (a =? c) eqn:Hac.
  - rewrite removelast_cons_nonempty, last_cons_nonempty
      by apply split_nonempty.
    rewrite IH. reflexivity.
  - rewrite IH. pose proof (split_nonempty c x) as Hx.
    destruct (split c x) as [|w ws]; [done|]. destruct ws as [|w2 ws].
    + cbn [removelast List.last app].
      change ((a :: w) ++ y) with (a :: w ++ y). cbn [split].
      rewrite Hac. reflexivity.
    + set (l := w2 :: ws). assert (l <> []) as Hl by done.
      rewrite !removelast_cons_nonempty, !last_cons_nonempty by exact Hl.
      reflexivity.
Qed.

Lemma last_app_nonempty {A : Type} (l1 l2 : list A) (d : A) :
  l2 <> [] -> List.last (l1 ++ l2) d = List.last l2 d.
Proof.
  intros H. induction l1 as [|x l1 IH]; [reflexivity|].
  change ((x :: l1) ++ l2) with (x :: (l1 ++ l2)).
  rewrite last_cons_nonempty; [exact IH|].
  destruct l1; [exact H | done].
Qed.

Lemma lines_app (x y : str) :
  unfinished_line (x ++ y) = unfinished_line (unfinished_line x ++ y)
  /\ complete_lines (x ++ y)
     = complete_lines x ++ complete_lines (unfinished_line x ++ y).
Proof.
  unfold unfinished_line, complete_lines. rewrite (split_app 10 x y).
  set (l2 := split 10 (List.last (split 10 x) [] ++ y)).
  assert (l2 <> []) as Hl2 by apply split_nonempty.
  split.
  - apply last_app_nonempty. exact Hl2.
  - rewrite removelast_app by exact Hl2.
    rewrite List.map_app, List.filter_app. reflexivity.
Qed.

Lemma stream_write_app (s : _StreamToLogger) (a b : str) :
  stream_write (stream_write s a) b = stream_write s (a ++ b).
Proof.
  destruct a as [|ca a]; [reflexivity|].
  destruct b as [|cb b]; [rewrite app_nil_r; reflexivity|].
  rewrite !stream_write_nonempty by done. cbn [_buf logged].
  destruct (lines_app (_buf s ++ ca :: a) (cb :: b)) as [Hu Hc].
  rewrite <- app_assoc in Hu, Hc. rewrite Hu, Hc, app_assoc. reflexivity.
Qed.

(** X13. What is logged does not depend on how the text is cut into [write]
    calls: writing the chunks one after the other leaves the stream as one
    [write] of their concatenation does. *)
Theorem stream_write_chunks (chunks : list str) (s : _StreamToLogger) :
  fold_left stream_write chunks s = stream_write s (concat chunks).
Proof.
  revert s. induction chunks as [|a chunks IH]; intros s; [reflexivity|].
  cbn [fold_left concat]. rewrite IH. apply stream_write_app.
Qed.

Lemma char_in_rstrip (f : char -> bool) (c : char) (s : str) :
  char_in c s = false -> char_in c (rstrip_by f s) = false.
Proof.
  intros H. unfold rstrip_by. rewrite char_in_rev.
  apply char_in_dropwhile. rewrite char_in_rev. exact H.
Qed.

Lemma rstrip_idempotent (f : char -> bool) (s : str) :
  rstrip_by f (rstrip_by f s) = rstrip_by f s.
Proof.
  apply rstrip_id_iff. unfold rstrip_by. rewrite rev_involutive.
  apply dropwhile_head.
Qed.

Lemma complete_lines_shape (text : str) :
  Forall (fun l => l <> [] /\ char_in 10 l = false
                   /\ rstrip_by isspace l = l)
         (complete_lines text).
Proof.
  unfold complete_lines. apply Forall_forall. intros l Hl.
  apply list_elem_of_In, filter_In in Hl as [Hl Hne]. apply in_map_iff in Hl as (w & <- & Hw).
  split; [|split].
  - apply negb_true_iff, str_eqb_neq in Hne. exact Hne.
  - apply char_in_rstrip.
    pose proof (split_pieces 10 text) as Hp. rewrite Forall_forall in Hp.
    apply Hp, list_elem_of_In.
    destruct (split 10 text) as [|w0 ws] using rev_ind; [done|].
    rewrite removelast_last in Hw. apply in_or_app. left. exact Hw.
  - apply rstrip_idempotent.
Qed.

(** X14. Every line that [write] passes to the logger is non-empty, contains no
    newline and has no trailing whitespace; after a [write] of a non-empty
    message the buffer contains no newline; [flush] empties the buffer. *)
Theorem stream_logged_lines (s : _StreamToLogger) (msg : str) :
  (exists new : list str,
      logged (stream_write s msg) = logged s ++ new
      /\ Forall (fun l => l <> [] /\ char_in 10 l = false
                          /\ rstrip_by isspace l = l) new)
  /\ (msg <> [] -> char_in 10 (_buf (stream_write s msg)) = false)
  /\ _buf (stream_flush (stream_write s msg)) = [].
Proof.
  split; [|split; [|reflexivity]].
  - destruct msg as [|c msg].
    + exists []. rewrite app_nil_r. split; [reflexivity | constructor].
    + rewrite stream_write_nonempty by done. cbn [logged].
      eexists. split; [reflexivity | apply complete_lines_shape].
  - intros Hmsg. rewrite stream_write_nonempty by exact Hmsg. cbn [_buf].
    unfold unfinished_line.
    pose proof (split_pieces 10 (_buf s ++ msg)) as Hp.
    pose proof (split_nonempty 10 (_buf s ++ msg)) as Hne.
    destruct (split 10 (_buf s ++ msg)) as [|w0 ws] using rev_ind; [done|].
    rewrite last_last. apply Forall_app in Hp as [_ Hp].
    inversion Hp; subst. assumption.
Qed.

(** * Properties of the harvesters' helpers *)

(** ** Whitespace normalization *)

Lemma sub_runs_from_single_spaced (b : bool) (y : str) :
  single_spaced (sub_runs_from isspace [32] b y) = true
  /\ (b = true ->
      starts_with_space (sub_runs_from isspace [32] b y) = false).
Proof.
  revert b. induction y as [|c y IH]; intros b; [done|].
  cbn [sub_runs_from]. destruct (isspace c) eqn:Hc.
  - destruct (IH true) as [Hs Hh]. specialize (Hh eq_refl).
    destruct b; cbn [app]; [done|].
    split; [|done]. cbn [single_spaced].
    change (isspace 32) with true. cbv iota. rewrite Hh, Hs. reflexivity.
  - destruct (IH false) as [Hs _]. split.
    + cbn [single_spaced]. rewrite Hc, Hs. reflexivity.
    + intros _. cbn [starts_with_space]. exact Hc.
Qed.

Lemma sub_runs_from_no_space_head (b : bool) (z : str) :
  starts_with_space z = false ->
  sub_runs_from isspace [32] b z = sub_runs_from isspace [32] false z.
Proof.
  destruct z as [|c z]; [done|]. cbn [starts_with_space sub_runs_from].
  intros ->. reflexivity.
Qed.

Lemma sub_runs_single_spaced_id (z : str) :
  single_spaced z = true -> sub_runs isspace [32] z = z.
Proof.
  unfold sub_runs. induction z as [|c z IH]; [done|].
  cbn [single_spaced sub_runs_from]. intros H.
  apply andb_true_iff in H as [Hc Hz]. destruct (isspace c).
  - apply andb_true_iff in Hc as [Hc Hh]. apply Z.eqb_eq in Hc. subst c.
    apply negb_true_iff in Hh.
    rewrite (sub_runs_from_no_space_head true z Hh), (IH Hz). reflexivity.
  - rewrite (IH Hz). reflexivity.
Qed.

Lemma sub_runs_from_app_stop (bad : char -> bool) (repl : str) (b : bool)
  (y : str) (d : char) :
  bad d = false ->
  sub_runs_from bad repl b (y ++ [d]) = sub_runs_from bad repl b y ++ [d].
Proof.
  intros Hd. revert b. induction y as [|c y IH]; intros b.
  - cbn. rewrite Hd. reflexivity.
  - cbn [app sub_runs_from]. destruct (bad c).
    + rewrite IH, app_assoc. reflexivity.
    + rewrite IH. reflexivity.
Qed.

Lemma strip_no_outer_space (x : str) :
  starts_with_space (strip x) = false
  /\ rstrip_by isspace (strip x) = strip x.
Proof.
  unfold strip, strip_by. split; [|apply rstrip_idempotent].
  pose proof (dropwhile_head isspace x) as Hh. unfold lstrip_by.
  generalize dependent (dropwhile isspace x). intros y Hy.
  unfold rstrip_by. destruct y as [|c y]; [reflexivity|].
  cbn [rev]. rewrite dropwhile_app_stop by exact Hy.
  rewrite rev_app_distr. cbn [rev app starts_with_space]. exact Hy.
Qed.

Lemma sub_runs_no_outer_space (y : str) :
  starts_with_space y = false -> rstrip_by isspace y = y ->
  strip (sub_runs isspace [32] y) = sub_runs isspace [32] y.
Proof.
  intros Hh Ht. unfold strip, strip_by, lstrip_by.
  assert (dropwhile isspace (sub_runs isspace [32] y)
          = sub_runs isspace [32] y) as ->.
  { apply dropwhile_id. destruct y as [|c y]; [exact I|].
    cbn [starts_with_space] in Hh. unfold sub_runs. cbn [sub_runs_from].
    rewrite Hh. exact Hh. }
  apply rstrip_id_iff. apply rstrip_id_iff in Ht.
  destruct (rev y) as [|d r] eqn:Hr; [|].
  - apply (f_equal (@rev Z)) in Hr. rewrite rev_involutive in Hr. subst y.
    exact I.
  - apply (f_equal (@rev Z)) in Hr. rewrite rev_involutive in Hr. subst y.
    cbn [rev]. unfold sub_runs. rewrite sub_runs_from_app_stop by exact Ht.
    rewrite rev_app_distr. exact Ht.
Qed.

(** X18. [_clean] returns a text without leading or trailing whitespace in
    which every whitespace character is a single space between two other
    characters, and cleaning such a text again changes nothing. *)
Theorem clean_normal_form (s : optstr) :
  strip (_clean s) = _clean s
  /\ single_spaced (_clean s) = true
  /\ _clean (PyStr (_clean s)) = _clean s.
Proof.
  unfold _clean at 1 2 3 4 6. cbn [or_empty].
  destruct (strip_no_outer_space (or_empty s)) as [Hh Ht].
  pose proof (sub_runs_no_outer_space _ Hh Ht) as Hstrip.
  pose proof (proj1 (sub_runs_from_single_spaced false
                       (strip (or_empty s)))) as Hsingle.
  split; [exact Hstrip|]. split; [exact Hsingle|].
  unfold _clean. cbn [or_empty]. rewrite Hstrip.
  apply sub_runs_single_spaced_id. exact Hsingle.
Qed.

(** ** Listings without repeated URLs *)

Section DedupFacts.
Context {A : Type}.
Variable url_of : A -> str.

Lemma dedup_from_spec (items : list A) (seen : gset str) :
  let out := dedup_from url_of seen items in
  (forall x : A, In x out -> url_of x ∉ seen)
  /\ List.NoDup (List.map url_of out)
  /\ sublist out items
  /\ (forall x : A, In x items ->
        url_of x ∈ seen \/ In (url_of x) (List.map url_of out))
  /\ (forall x : A, In x out ->
        List.find (fun y => str_eqb (url_of y) (url_of x)) items = Some x).
Proof.
  revert seen. induction items as [|y items IH]; intros seen; cbn zeta.
  - cbn. repeat split; try done. constructor.
  - cbn [dedup_from].
    destruct (bool_decide (url_of y ∈ seen)) eqn:Hy.
    + apply bool_decide_eq_true in Hy.
      destruct (IH seen) as (H1 & H2 & H3 & H4 & H5).
      split; [exact H1|]. split; [exact H2|].
      split; [apply sublist_cons; exact H3|]. split.
      * intros x [<-|Hx]; [left; exact Hy | apply H4; exact Hx].
      * intros x Hx. cbn [List.find].
        assert (str_eqb (url_of y) (url_of x) = false) as ->.
        { apply str_eqb_neq. intros E. apply (H1 x Hx). rewrite <- E.
          exact Hy. }
        apply H5. exact Hx.
    + apply bool_decide_eq_false in Hy.
      destruct (IH ({[url_of y]} ∪ seen)) as (H1 & H2 & H3 & H4 & H5).
      assert (forall x, In x (dedup_from url_of ({[url_of y]} ∪ seen) items)
                -> url_of x <> url_of y /\ url_of x ∉ seen) as Hfresh.
      { intros x Hx. specialize (H1 x Hx).
        rewrite elem_of_union, elem_of_singleton in H1. tauto. }
      split; [|split; [|split; [|split]]].
      * intros x [<-|Hx]; [exact Hy | apply (Hfresh x Hx)].
      * cbn [List.map]. constructor; [|exact H2].
        intros Hin. apply in_map_iff in Hin as (x & Hxy & Hx).
        destruct (Hfresh x Hx) as [Hne _]. congruence.
      * apply sublist_skip. exact H3.
      * intros x [<-|Hx]; [right; left; reflexivity|].
        destruct (H4 x Hx) as [Hs|Ho].
        -- rewrite elem_of_union, elem_of_singleton in Hs.
           destruct Hs as [E|Hs]; [|left; exact Hs].
           right. left. symmetry. exact E.
        -- right. right. exact Ho.
      * intros x [<-|Hx]; cbn [List.find].
        -- rewrite str_eqb_refl. reflexivity.
        -- destruct (Hfresh x Hx) as [Hne _].
           assert (str_eqb (url_of y) (url_of x) = false) as ->
               by (apply str_eqb_neq; congruence).
           apply H5. exact Hx.
Qed.

Lemma dedup_from_id (out : list A) (seen : gset str) :
  (forall x : A, In x out -> url_of x ∉ seen) ->
  List.NoDup (List.map url_of out) ->
  dedup_from url_of seen out = out.
Proof.
  revert seen. induction out as [|y out IH]; intros seen Hseen Hnd; [done|].
  cbn [dedup_from]. rewrite bool_decide_eq_false_2
    by (apply Hseen; left; reflexivity).
  f_equal. cbn [List.map] in Hnd. inversion Hnd as [|? ? Hy Hnd']; subst.
  apply IH; [|exact Hnd'].
  intros x Hx. rewrite elem_of_union, elem_of_singleton.
  intros [E|Hs].
  - apply Hy. rewrite <- E. apply in_map. exact Hx.
  - apply (Hseen x); [right; exact Hx | exact Hs].
Qed.

(** X19. The listing that the harvesters build has no two items with the same
    URL; it keeps, in their order, the first item of every URL of the
    input and drops the later ones, and a listing without repeated URLs is
    left as it is. *)
Theorem dedup_by_url_spec (items : list A) :
  List.NoDup (List.map url_of (dedup_by_url url_of items))
  /\ sublist (dedup_by_url url_of items) items
  /\ (forall x : A, In x items ->
        In (url_of x) (List.map url_of (dedup_by_url url_of items)))
  /\ (forall x : A, In x (dedup_by_url url_of items) ->
        List.find (fun y => str_eqb (url_of y) (url_of x)) items = Some x)
  /\ dedup_by_url url_of (dedup_by_url url_of items)
     = dedup_by_url url_of items.
Proof.
  unfold dedup_by_url.
  destruct (dedup_from_spec items ∅) as (H1 & H2 & H3 & H4 & H5).
  split; [exact H2|]. split; [exact H3|]. split; [|split; [exact H5|]].
  - intros x Hx. destruct (H4 x Hx) as [Hs|Ho]; [|exact Ho].
    apply not_elem_of_empty in Hs. destruct Hs.
  - apply dedup_from_id; [|exact H2]. intros x _. apply not_elem_of_empty.
Qed.

End DedupFacts.

(** * The serialized record *)

Lemma json_induction (P : json -> Prop) :
  P JNull -> (forall b, P (JBool b)) -> (forall n, P (JInt n)) ->
  (forall s, P (JStr s)) ->
  (forall l, Forall P l -> P (JList l)) ->
  (forall d, Forall (fun kv => P (snd kv)) d -> P (JDict d)) ->
  (forall o, P (JOther o)) ->
  forall v, P v.
Proof.
  intros Hnull Hbool Hint Hstr Hlist Hdict Hother.
  fix IH 1. intros [| b | n | s | l | d | o].
  - exact Hnull.
  - apply Hbool.
  - apply Hint.
  - apply Hstr.
  - apply Hlist. induction l as [|x l IHl]; constructor; [apply IH | exact IHl].
  - apply Hdict. induction d as [|[k x] d IHd]; constructor;
      [apply IH | exact IHd].
  - apply Hother.
Qed.

Lemma forallb_flat_map {A : Type} (P : char -> bool) (f : A -> str)
  (l : list A) :
  (forall x, forallb P (f x) = true) -> forallb P (flat_map f l) = true.
Proof.
  intros H. induction l as [|x l IH]; [done|].
  cbn [flat_map]. rewrite forallb_app, H, IH. reflexivity.
Qed.

Lemma forallb_join_pieces (P : char -> bool) (sep : str) (l : list str) :
  forallb P sep = true -> Forall (fun w => forallb P w = true) l ->
  forallb P (join sep l) = true.
Proof.
  intros Hsep Hl. induction Hl as [|w l Hw Hl IH]; [done|].
  cbn [join]. destruct l as [|w2 l]; [exact Hw|].
  rewrite !forallb_app, Hw, Hsep, IH. reflexivity.
Qed.

Lemma printable_hexdigit_lower (d : Z) :
  0 <= d -> printable (hexdigit_lower d) = true.
Proof.
  intros Hd. unfold printable, hexdigit_lower.
  destruct (d <? 10); apply negb_true_iff, andb_false_iff; right;
    apply Z.ltb_ge; lia.
Qed.

Lemma escape_char_printable (c : char) :
  forallb printable (escape_char c) = true.
Proof.
  unfold escape_char.
  repeat match goal with
         | |- context [if ?x =? ?y then _ else _] =>
             destruct (x =? y); [reflexivity|]
         end.
  destruct ((0 <=? c) && (c <? 32)) eqn:E.
  - apply andb_true_iff in E as [E1 E2].
    apply Z.leb_le in E1. apply Z.ltb_lt in E2.
    cbn [forallb]. rewrite !printable_hexdigit_lower; [reflexivity| |].
    + apply Z.mod_pos_bound. lia.
    + apply Z.div_pos; lia.
  - cbn [forallb]. unfold printable. rewrite E. reflexivity.
Qed.

Lemma encode_basestring_printable (s : str) :
  forallb printable (encode_basestring s) = true.
Proof.
  unfold encode_basestring. rewrite !forallb_app.
  rewrite (forallb_flat_map printable escape_char s escape_char_printable).
  reflexivity.
Qed.

Lemma decimal_from_printable (fuel : nat) (n : Z) (acc : str) :
  forallb printable acc = true ->
  forallb printable (decimal_from fuel n acc) = true.
Proof.
  revert n acc. induction fuel as [|fuel IH]; intros n acc Hacc; [exact Hacc|].
  cbn [decimal_from].
  assert (forallb printable ((48 + n mod 10) :: acc) = true) as Hacc'.
  { cbn [forallb]. rewrite Hacc, andb_true_r. unfold printable.
    apply negb_true_iff, andb_false_iff. right. apply Z.ltb_ge.
    pose proof (Z.mod_pos_bound n 10 ltac:(lia)). lia. }
  destruct (n <? 10); [exact Hacc' | apply IH; exact Hacc'].
Qed.

Lemma int_repr_printable (n : Z) : forallb printable (int_repr n) = true.
Proof.
  unfold int_repr, decimal. destruct (n <? 0).
  - cbn [app forallb]. rewrite decimal_from_printable; reflexivity.
  - apply decimal_from_printable. reflexivity.
Qed.

(** Whatever the value, [json.dumps] emits no C0 control character: the
    ones inside strings are escaped, and the encoder adds none. *)
Lemma json_dumps_printable (v : json) :
  forallb printable (json_dumps v) = true.
Proof.
  induction v as [| b | n | s | l IH | d IH | o] using json_induction.
  - reflexivity.
  - destruct b; reflexivity.
  - apply int_repr_printable.
  - apply encode_basestring_printable.
  - cbn [json_dumps]. rewrite !forallb_app.
    rewrite forallb_join_pieces; [reflexivity | reflexivity |].
    apply Forall_map. exact IH.
  - cbn [json_dumps]. rewrite !forallb_app.
    rewrite forallb_join_pieces; [reflexivity | reflexivity |].
    apply Forall_map. eapply Forall_impl; [exact IH|].
    intros [k x] Hx. cbn [fst snd] in *.
    rewrite !forallb_app, encode_basestring_printable, Hx. reflexivity.
  - apply encode_basestring_printable.
Qed.

(** X3. The text that [put_record] appends for a record is one line: the
    serialized record contains no control character, so no newline and no
    carriage return, and the newline that ends the text is its only one. *)
Theorem record_line_is_one_line (r : DocumentRecord) :
  forallb printable (json_dumps (asdict r)) = true
  /\ char_in 10 (json_dumps (asdict r)) = false
  /\ char_in 13 (json_dumps (asdict r)) = false
  /\ split 10 (record_line r) = [json_dumps (asdict r); []].
Proof.
  pose proof (json_dumps_printable (asdict r)) as Hp.
  assert (char_in 10 (json_dumps (asdict r)) = false) as H10
      by (apply (forallb_char_in _ 10 _ Hp); reflexivity).
  split; [exact Hp|]. split; [exact H10|]. split.
  - apply (forallb_char_in _ 13 _ Hp). reflexivity.
  - unfold record_line. rewrite split_app_sep by exact H10. reflexivity.
Qed.

(** * File names of attachments *)

(** ** The characters of a safe file name *)

Lemma forallb_sub_runs_from (P bad : char -> bool) (repl : str) (b : bool)
  (s : str) :
  forallb (fun c => bad c || P c) s = true -> forallb P repl = true ->
  forallb P (sub_runs_from bad repl b s) = true.
Proof.
  intros Hs Hrepl. revert b. induction s as [|c s IH]; intros b; [done|].
  cbn [forallb] in Hs. apply andb_true_iff in Hs as [Hc Hs].
  cbn [sub_runs_from]. destruct (bad c) eqn:Hbad.
  - rewrite forallb_app, (IH Hs). destruct b; [reflexivity|].
    rewrite Hrepl. reflexivity.
  - cbn [orb] in Hc. cbn [forallb]. rewrite Hc, (IH Hs). reflexivity.
Qed.

Lemma forallb_dropwhile (P f : char -> bool) (s : str) :
  forallb P s = true -> forallb P (dropwhile f s) = true.
Proof.
  induction s as [|c s IH]; [done|]. cbn [dropwhile forallb].
  intros H. destruct (f c); [|exact H].
  apply andb_true_iff in H as [_ H]. auto.
Qed.

Lemma forallb_rev (P : char -> bool) (s : str) :
  forallb P (rev s) = forallb P s.
Proof.
  induction s as [|c s IH]; [done|]. cbn [rev forallb].
  rewrite forallb_app, IH. cbn [forallb]. rewrite andb_true_r, andb_comm.
  reflexivity.
Qed.

Lemma forallb_strip (P : char -> bool) (s : str) :
  forallb P s = true -> forallb P (strip s) = true.
Proof.
  intros H. unfold strip, strip_by, rstrip_by, lstrip_by.
  rewrite forallb_rev. apply forallb_dropwhile. rewrite forallb_rev.
  apply forallb_dropwhile. exact H.
Qed.

Lemma forallb_firstn (P : char -> bool) (n : nat) (s : str) :
  forallb P s = true -> forallb P (firstn n s) = true.
Proof.
  revert n. induction s as [|c s IH]; intros [|n]; try done.
  cbn [firstn forallb]. intros H. apply andb_true_iff in H as [Hc Hs].
  rewrite Hc, (IH n Hs). reflexivity.
Qed.

Lemma forallb_slice_to (P : char -> bool) (s : str) (n : Z) :
  forallb P s = true -> forallb P (slice_to s n) = true.
Proof.
  intros H. unfold slice_to. destruct (n <? 0); apply forallb_firstn; exact H.
Qed.

Lemma forallb_truncate (P : char -> bool) (s : str) (max_len : Z) :
  forallb P s = true -> forallb P (truncate s max_len) = true.
Proof.
  intros H. unfold truncate.
  destruct (max_len <? Z.of_nat (length s)); [|exact H].
  destruct (char_in 46 s).
  - destruct (rsplit1 46 s) as [base [ext|]] eqn:E.
    + apply rsplit1_Some in E as [-> _].
      rewrite forallb_app in H. apply andb_true_iff in H as [Hb He].
      rewrite forallb_app, forallb_slice_to by exact Hb. exact He.
    + apply rsplit1_None in E as [_ ->].
      rewrite app_nil_r. apply forallb_slice_to. exact H.
  - rewrite app_nil_r. apply forallb_slice_to. exact H.
Qed.

Section SafeAlphabet.
Context {rt : Runtime}.

Lemma sanitize_alphabet (name : str) :
  forallb (fun c => negb (disallowed c)) (sanitize name) = true.
Proof.
  unfold sanitize. apply forallb_strip. unfold sub_runs.
  apply forallb_sub_runs_from; [|reflexivity].
  apply forallb_forall. intros c Hc. apply orb_true_iff. right.
  revert c Hc. apply forallb_forall.
  apply forallb_sub_runs_from; [|reflexivity].
  apply forallb_forall. intros c _. destruct (disallowed c); reflexivity.
Qed.

Lemma safe_filename_chars (name : str) (max_len : Z) :
  forallb (fun c => negb (disallowed c)) (_safe_filename name max_len) = true.
Proof. unfold _safe_filename. apply forallb_truncate, sanitize_alphabet. Qed.

(** X7. Every character of the name that [_safe_filename] returns is a word
    character or one of [.-() ]: the name contains no slash, no backslash,
    no NUL and no other control character, whatever the input and the
    limit. *)
Theorem safe_filename_alphabet (name : str) (max_len : Z) :
  forallb (fun c => negb (disallowed c)) (_safe_filename name max_len) = true
  /\ char_in 47 (_safe_filename name max_len) = false
  /\ char_in 92 (_safe_filename name max_len) = false
  /\ forallb printable (_safe_filename name max_len) = true.
Proof.
  assert (forallb (fun c => negb (disallowed c))
                  (_safe_filename name max_len) = true) as H
      by apply safe_filename_chars.
  split; [exact H|]. split; [|split].
  - apply (forallb_char_in _ 47 _ H). reflexivity.
  - apply (forallb_char_in _ 92 _ H). reflexivity.
  - apply forallb_forall. intros c Hc.
    rewrite forallb_forall in H. specialize (H c Hc).
    unfold printable. destruct ((0 <=? c) && (c <? 32)) eqn:E; [|done].
    apply andb_true_iff in E as [E1 E2].
    apply Z.leb_le in E1. apply Z.ltb_lt in E2. exfalso.
    apply negb_true_iff in H. unfold disallowed, is_word in H.
    assert ((c <? 128) = true) as Hlt by (apply Z.ltb_lt; lia).
    rewrite Hlt in H.
    unfold is_alnum_ascii, is_alpha_ascii, is_upper_ascii, is_lower_ascii,
      is_digit_ascii in H.
    apply negb_false_iff in H.
    repeat match type of H with
           | (_ || _) = true => apply orb_true_iff in H as [H|H]
           | (_ && _) = true => apply andb_true_iff in H as [? ?]
           end;
    repeat match goal with
           | H : (_ <=? _) = true |- _ => apply Z.leb_le in H
           | H : (_ =? _) = true |- _ => apply Z.eqb_eq in H
           end; lia.
Qed.

End SafeAlphabet.

(** ** The extension of an attachment name *)

Lemma utf8_decode_cons (b : Z) (t : bytes) :
  utf8_decode (b :: t)
  = if b <? 128 then b :: utf8_decode t
    else if (b <? 194) || (245 <=? b) then REPLACEMENT :: utf8_decode t
    else if b <? 224 then
      match t with
      | [] => [REPLACEMENT]
      | b2 :: t2 =>
          if is_cont b2
          then ((b - 192) * 64 + (b2 - 128)) :: utf8_decode t2
          else REPLACEMENT :: utf8_decode t
      end
    else if b <? 240 then
      match t with
      | [] => [REPLACEMENT]
      | b2 :: t2 =>
          if bad_second b b2 then REPLACEMENT :: utf8_decode t
          else
            match t2 with
            | [] => [REPLACEMENT]
            | b3 :: t3 =>
                if is_cont b3
                then ((b - 224) * 4096 + (b2 - 128) * 64 + (b3 - 128))
                       :: utf8_decode t3
                else REPLACEMENT :: utf8_decode t2
            end
      end
    else
      match t with
      | [] => [REPLACEMENT]
      | b2 :: t2 =>
          if bad_second b b2 then REPLACEMENT :: utf8_decode t
          else
            match t2 with
            | [] => [REPLACEMENT]
            | b3 :: t3 =>
                if negb (is_cont b3) then REPLACEMENT :: utf8_decode t2
                else
                  match t3 with
                  | [] => [REPLACEMENT]
                  | b4 :: t4 =>
                      if is_cont b4
                      then ((b - 240) * 262144 + (b2 - 128) * 4096
                            + (b3 - 128) * 64 + (b4 - 128))
                             :: utf8_decode t4
                      else REPLACEMENT :: utf8_decode t3
                  end
            end
      end.
Proof. reflexivity. Qed.

(** An ASCII byte ends whatever sequence is open before it and decodes to
    itself. *)
Lemma utf8_decode_app_ascii_char (n : nat) :
  forall (bs : bytes) (c : Z) (t : bytes),
    (length bs <= n)%nat -> (c <? 128) = true ->
    utf8_decode (bs ++ c :: t) = utf8_decode bs ++ c :: utf8_decode t.
Proof.
  induction n as [|n IH]; intros bs c t Hlen Hc.
  - destruct bs; [|cbn in Hlen; lia].
    cbn [app]. rewrite utf8_decode_cons, Hc. reflexivity.
  - destruct bs as [|b r];
      [cbn [app]; rewrite utf8_decode_cons, Hc; reflexivity|].
    assert (is_cont c = false) as Hcont.
    { unfold is_cont. apply Z.ltb_lt in Hc.
      apply andb_false_iff. left. apply Z.leb_gt. lia. }
    assert (forall b0, bad_second b0 c = true) as Hbad
        by (intros b0; unfold bad_second; rewrite Hcont; reflexivity).
    assert (utf8_decode (c :: t) = c :: utf8_decode t) as Hdec
        by (rewrite utf8_decode_cons, Hc; reflexivity).
    cbn [length] in Hlen.
    cbn [app]. rewrite (utf8_decode_cons b (r ++ c :: t)), (utf8_decode_cons b r).
    destruct (b <? 128); [cbn [app]; f_equal; apply IH; [lia | exact Hc]|].
    destruct ((b <? 194) || (245 <=? b));
      [cbn [app]; f_equal; apply IH; [lia | exact Hc]|].
    destruct (b <? 224); [|destruct (b <? 240)].
    + destruct r as [|b2 r2]; cbn [app].
      * rewrite Hcont, Hdec. reflexivity.
      * cbn [length] in Hlen.
        destruct (is_cont b2); cbn [app]; f_equal;
          [apply IH | apply (IH (b2 :: r2))]; cbn [length]; auto; lia.
    + destruct r as [|b2 r2]; cbn [app].
      * rewrite Hbad, Hdec. reflexivity.
      * cbn [length] in Hlen. destruct (bad_second b b2);
          [cbn [app]; f_equal; apply (IH (b2 :: r2)); cbn [length]; auto; lia|].
        destruct r2 as [|b3 r3]; cbn [app].
        -- rewrite Hcont, Hdec. reflexivity.
        -- cbn [length] in Hlen.
           destruct (is_cont b3); cbn [app]; f_equal;
             [apply IH | apply (IH (b3 :: r3))]; cbn [length]; auto; lia.
    + destruct r as [|b2 r2]; cbn [app].
      * rewrite Hbad, Hdec. reflexivity.
      * cbn [length] in Hlen. destruct (bad_second b b2);
          [cbn [app]; f_equal; apply (IH (b2 :: r2)); cbn [length]; auto; lia|].
        destruct r2 as [|b3 r3]; cbn [app].
        -- rewrite Hcont, Hdec. reflexivity.
        -- cbn [length] in Hlen. rewrite ?Hcont.
           destruct (is_cont b3); cbn [negb];
             [|cbn [app]; f_equal; apply (IH (b3 :: r3)); cbn [length];
               auto; lia].
           destruct r3 as [|b4 r4]; cbn [app].
           ++ rewrite Hcont, Hdec. reflexivity.
           ++ cbn [length] in Hlen.
              destruct (is_cont b4); cbn [app]; f_equal;
                [apply IH | apply (IH (b4 :: r4))]; cbn [length]; auto; lia.
Qed.

Lemma utf8_decode_app_ascii (bs t : bytes) :
  isascii t = true -> utf8_decode (bs ++ t) = utf8_decode bs ++ t.
Proof.
  intros Ht. destruct t as [|c t]; [rewrite !app_nil_r; reflexivity|].
  cbn [isascii forallb] in Ht. apply andb_true_iff in Ht as [Hc Ht].
  rewrite (utf8_decode_app_ascii_char (length bs) bs c t (le_n _) Hc).
  rewrite (utf8_decode_ascii t Ht). reflexivity.
Qed.

Lemma unquote_to_bytes_cons (c : Z) (t : str) :
  unquote_to_bytes (c :: t)
  = if c =? 37 then
      match t with
      | h1 :: h2 :: t2 =>
          match hexval h1, hexval h2 with
          | Some a, Some b => (a * 16 + b) :: unquote_to_bytes t2
          | _, _ => c :: unquote_to_bytes t
          end
      | _ => c :: unquote_to_bytes t
      end
    else c :: unquote_to_bytes t.
Proof. reflexivity. Qed.

(** A dot is not a hex digit: it ends an escape that is open before it. *)
Lemma unquote_to_bytes_app_dot (n : nat) :
  forall a t : str,
    (length a <= n)%nat ->
    unquote_to_bytes (a ++ 46 :: t)
    = unquote_to_bytes a ++ 46 :: unquote_to_bytes t.
Proof.
  induction n as [|n IH]; intros a t Hlen.
  - destruct a; [reflexivity | cbn in Hlen; lia].
  - destruct a as [|c r]; [reflexivity|]. cbn [length] in Hlen.
    cbn [app].
    rewrite (unquote_to_bytes_cons c (r ++ 46 :: t)),
      (unquote_to_bytes_cons c r).
    destruct (c =? 37); [|cbn [app]; f_equal; apply IH; lia].
    destruct r as [|h1 r1]; cbn [app].
    + destruct t as [|h2 t2]; [reflexivity|].
      change (hexval 46) with (@None Z). reflexivity.
    + cbn [length] in Hlen. destruct r1 as [|h2 r2]; cbn [app].
      * change (hexval 46) with (@None Z).
        destruct (hexval h1); cbn [app]; f_equal;
          apply (IH [h1]); cbn [length]; lia.
      * cbn [length] in Hlen.
        destruct (hexval h1) as [x|];
          [destruct (hexval h2) as [y|]|];
          cbn [app]; f_equal;
          first [apply IH; lia
                | apply (IH (h1 :: h2 :: r2)); cbn [length]; lia].
Qed.

Lemma runs_app_ascii (f : char -> bool) (x t : str) :
  t <> [] -> forallb f t = true ->
  exists (R : list (bool * str)) (a : str),
    runs f (x ++ t) = R ++ [(true, a ++ t)].
Proof.
  intros Hne Ht. induction x as [|c x IH].
  - exists [], []. apply runs_const; assumption.
  - destruct IH as (R & a & E). cbn [app runs]. rewrite E.
    destruct R as [|[b r] R']; cbn [app].
    + destruct (f c); cbn [Bool.eqb].
      * exists [], (c :: a). reflexivity.
      * exists [(false, [c])], a. reflexivity.
    + destruct (Bool.eqb b (f c)).
      * exists ((b, c :: r) :: R'), a. reflexivity.
      * exists ((f c, [c]) :: (b, r) :: R'), a. reflexivity.
Qed.

Lemma letters_plain (t : str) :
  forallb is_alpha_ascii t = true ->
  isascii t = true /\ char_in 37 t = false /\ char_in 0 t = false
  /\ char_in 46 t = false
  /\ forallb (fun c => negb (isspace c)) t = true.
Proof.
  intros H.
  assert (forall c, is_alpha_ascii c = true -> 65 <= c <= 122) as Hr.
  { intros c Hc. unfold is_alpha_ascii, is_upper_ascii, is_lower_ascii in Hc.
    apply orb_true_iff in Hc as [Hc|Hc];
      apply andb_true_iff in Hc as [H1 H2];
      apply Z.leb_le in H1; apply Z.leb_le in H2; lia. }
  split; [|split; [|split; [|split]]].
  - apply forallb_forall. intros c Hc. rewrite forallb_forall in H.
    apply Z.ltb_lt. specialize (Hr c (H c Hc)). lia.
  - apply (forallb_char_in _ 37 _ H). reflexivity.
  - apply (forallb_char_in _ 0 _ H). reflexivity.
  - apply (forallb_char_in _ 46 _ H). reflexivity.
  - apply forallb_forall. intros c Hc. rewrite forallb_forall in H.
    specialize (Hr c (H c Hc)). apply negb_true_iff. unfold isspace.
    repeat (apply orb_false_iff; split);
      first [apply Z.eqb_neq; lia
            | apply andb_false_iff;
              first [left; apply Z.leb_gt; lia | right; apply Z.leb_gt; lia]].
Qed.

Lemma unquote_app_suffix (x t : str) :
  forallb is_alpha_ascii t = true ->
  exists x' : str, unquote (x ++ 46 :: t) = x' ++ 46 :: t.
Proof.
  intros Ht. destruct (letters_plain t Ht) as (Hascii & Hpct & _).
  unfold unquote. destruct (char_in 37 (x ++ 46 :: t)); [|eauto].
  destruct (runs_app_ascii (fun c => c <? 128) x (46 :: t)) as (R & a & ->);
    [done | cbn [forallb]; fold (isascii t); rewrite Hascii; reflexivity |].
  rewrite flat_map_app. cbn [flat_map fst snd]. rewrite app_nil_r.
  rewrite (unquote_to_bytes_app_dot (length a) a t (le_n _)).
  rewrite (unquote_to_bytes_no_percent t Hpct).
  rewrite (utf8_decode_app_ascii _ (46 :: t))
    by (cbn [isascii forallb]; exact Hascii).
  eexists. rewrite app_assoc. reflexivity.
Qed.

Lemma strip_app_suffix (x t : str) :
  t <> [] -> forallb (fun c => negb (isspace c)) t = true ->
  strip (x ++ t) = lstrip_by isspace x ++ t.
Proof.
  intros Hne Ht. unfold strip, strip_by, lstrip_by.
  destruct t as [|c t]; [done|].
  assert (isspace c = false) as Hc.
  { cbn [forallb] in Ht. apply andb_true_iff in Ht as [Hc _].
    apply negb_true_iff in Hc. exact Hc. }
  rewrite dropwhile_app_stop by exact Hc.
  apply rstrip_id_iff. rewrite rev_app_distr.
  rewrite <- forallb_rev in Ht.
  destruct (rev (c :: t)) as [|d r] eqn:Hr.
  - apply (f_equal (@length Z)) in Hr. rewrite length_rev in Hr.
    cbn in Hr. lia.
  - cbn [app]. cbn [forallb] in Ht. apply andb_true_iff in Ht as [Hd _].
    apply negb_true_iff in Hd. exact Hd.
Qed.

Lemma sub_runs_from_clean (bad : char -> bool) (repl : str) (b : bool)
  (t : str) :
  forallb (fun c => negb (bad c)) t = true ->
  sub_runs_from bad repl b t = t.
Proof.
  revert b. induction t as [|c t IH]; intros b; [done|].
  cbn [forallb sub_runs_from]. intros H.
  apply andb_true_iff in H as [Hc Ht]. apply negb_true_iff in Hc.
  rewrite Hc, (IH false Ht). reflexivity.
Qed.

Lemma sub_runs_app_suffix (bad : char -> bool) (repl : str) (x t : str) :
  forallb (fun c => negb (bad c)) t = true ->
  exists x' : str, sub_runs bad repl (x ++ t) = x' ++ t.
Proof.
  intros Ht. unfold sub_runs. generalize false.
  induction x as [|c x IH]; intros b.
  - exists []. apply sub_runs_from_clean. exact Ht.
  - cbn [app sub_runs_from]. destruct (bad c).
    + destruct (IH true) as [x' ->]. eexists. rewrite app_assoc. reflexivity.
    + destruct (IH false) as [x' ->]. exists (c :: x'). reflexivity.
Qed.

Lemma rsplit1_app_sep (c : char) (a t : str) :
  char_in c t = false -> rsplit1 c (a ++ c :: t) = (a, Some t).
Proof.
  intros Ht. unfold rsplit1. rewrite rev_app_distr. cbn [rev].
  rewrite <- app_assoc. cbn [app].
  rewrite split1_app_sep by (rewrite char_in_rev; exact Ht).
  rewrite !rev_involutive. reflexivity.
Qed.

Lemma truncate_app_suffix (x t : str) (max_len : Z) :
  char_in 46 t = false -> Z.of_nat (length (46 :: t)) <= max_len ->
  exists x' : str,
    truncate (x ++ 46 :: t) max_len = x' ++ 46 :: t
    /\ Z.of_nat (length (x' ++ 46 :: t)) <= max_len.
Proof.
  intros Ht Hlen. unfold truncate.
  destruct (Z.ltb_spec max_len (Z.of_nat (length (x ++ 46 :: t))))
    as [Hlong|Hshort].
  - assert (char_in 46 (x ++ 46 :: t) = true) as ->.
    { rewrite char_in_app, char_in_cons. cbn. apply orb_true_r. }
    rewrite rsplit1_app_sep by exact Ht.
    eexists. split; [reflexivity|].
    rewrite length_app.
    pose proof (length_slice_to x
                  (max_len - Z.of_nat (length ([46] ++ t))) ltac:(cbn [app]; lia)).
    cbn [app] in *. lia.
  - exists x. split; [reflexivity | exact Hshort].
Qed.

Lemma pdf_suffix_letters (suf : str) :
  lower suf = py ".pdf" ->
  exists t : str,
    suf = 46 :: t /\ forallb is_alpha_ascii t = true /\ length t = 3%nat.
Proof.
  assert (forall c, lower_char c = 46 -> c = 46) as Hdot.
  { intros c. unfold lower_char, is_upper_ascii.
    destruct (Z.leb_spec 65 c), (Z.leb_spec c 90), (Z.eqb_spec c 8490);
      cbn [andb]; lia. }
  assert (forall c l, 97 <= l <= 122 -> l <> 107 -> lower_char c = l ->
            is_alpha_ascii c = true) as Hletter.
  { intros c l Hl Hk. unfold lower_char, is_alpha_ascii, is_upper_ascii,
      is_lower_ascii.
    destruct (Z.leb_spec 65 c), (Z.leb_spec c 90), (Z.eqb_spec c 8490),
      (Z.leb_spec 97 c), (Z.leb_spec c 122); cbn [andb orb]; try lia;
      reflexivity. }
  intros H. destruct suf as [|c0 [|c1 [|c2 [|c3 [|c4 suf]]]]];
    try discriminate H.
  cbn in H. injection H as H0 H1 H2 H3.
  exists [c1; c2; c3]. rewrite (Hdot c0 H0). split; [reflexivity|].
  split; [|reflexivity]. cbn [forallb].
  rewrite (Hletter c1 112), (Hletter c2 100), (Hletter c3 102);
    try reflexivity; try lia; assumption.
Qed.

Lemma endswith_app (p s : str) :
  endswith p s = true -> exists pre : str, s = pre ++ p.
Proof.
  unfold endswith.
  assert (forall a b, startswith a b = true -> exists r, b = a ++ r) as Hsw.
  { induction a as [|x a IH]; intros [|y b] H; try discriminate H; eauto.
    cbn [startswith] in H. apply andb_true_iff in H as [Hxy Hab].
    apply Z.eqb_eq in Hxy. subst y. destruct (IH b Hab) as [r ->].
    exists r. reflexivity. }
  intros H. destruct (Hsw _ _ H) as [r Hr].
  exists (rev r). apply (f_equal (@rev Z)) in Hr.
  rewrite rev_involutive, rev_app_distr, rev_involutive in Hr. exact Hr.
Qed.

Section AttachmentNames.
Context {rt : Runtime}.

Lemma letters_allowed (t : str) :
  forallb is_alpha_ascii t = true ->
  forallb (fun c => negb (disallowed c)) t = true.
Proof.
  intros H. apply forallb_forall. intros c Hc.
  rewrite forallb_forall in H. specialize (H c Hc).
  unfold disallowed, is_word, is_alnum_ascii. rewrite negb_involutive.
  assert ((c <? 128) = true) as ->.
  { unfold is_alpha_ascii, is_upper_ascii, is_lower_ascii in H.
    apply Z.ltb_lt.
    apply orb_true_iff in H as [H|H];
      apply andb_true_iff in H as [H1 H2];
      apply Z.leb_le in H1; apply Z.leb_le in H2; lia. }
  rewrite H. reflexivity.
Qed.

Lemma sanitize_app_suffix (x t : str) :
  forallb is_alpha_ascii t = true ->
  exists x' : str, sanitize (x ++ 46 :: t) = x' ++ 46 :: t.
Proof.
  intros Ht. destruct (letters_plain t Ht) as (_ & _ & Hnul & _ & Hsp).
  assert (forallb (fun c => negb (isspace c)) (46 :: t) = true) as Hsp'
      by (cbn [forallb]; rewrite Hsp; reflexivity).
  assert (forallb (fun c => negb (disallowed c)) (46 :: t) = true) as Hal
      by (cbn [forallb]; rewrite (letters_allowed t Ht); reflexivity).
  unfold sanitize. rewrite strip_app_suffix by (done || exact Hsp').
  destruct (unquote_app_suffix (lstrip_by isspace x) t Ht) as [x1 ->].
  rewrite replace_char_app.
  rewrite (replace_char_id 0 [] (46 :: t))
    by (rewrite char_in_cons, Hnul; reflexivity).
  destruct (sub_runs_app_suffix disallowed [95] (replace_char 0 [] x1)
              (46 :: t) Hal) as [x2 ->].
  destruct (sub_runs_app_suffix isspace [32] x2 (46 :: t) Hsp') as [x3 ->].
  rewrite strip_app_suffix by (done || exact Hsp'). eauto.
Qed.

Lemma safe_filename_app_suffix (x suf : str) :
  lower suf = py ".pdf" ->
  attachment_name (_safe_filename (x ++ suf) 160).
Proof.
  intros Hsuf. destruct (pdf_suffix_letters suf Hsuf) as (t & -> & Ht & Hlen).
  destruct (letters_plain t Ht) as (_ & _ & _ & Hdot & _).
  pose proof (safe_filename_chars (x ++ 46 :: t) 160) as Hch.
  unfold _safe_filename in *.
  destruct (sanitize_app_suffix x t Ht) as [x1 E]. rewrite E in *.
  destruct (truncate_app_suffix x1 t 160 Hdot) as (x2 & E2 & Hl);
    [cbn [length]; lia|].
  rewrite E2 in *. split; [|split; [|split; [|split]]].
  - apply (forallb_char_in _ 47 _ Hch). reflexivity.
  - apply (forallb_char_in _ 92 _ Hch). reflexivity.
  - apply (forallb_char_in _ 0 _ Hch). reflexivity.
  - lia.
  - exists x2, (46 :: t). split; [reflexivity | exact Hsuf].
Qed.

Lemma pdf_name_from_url_attachment (pdf_url : optstr) (name : str) :
  _pdf_name_from_url pdf_url = PyStr name -> attachment_name name.
Proof.
  unfold _pdf_name_from_url.
  destruct (strip (or_empty pdf_url)) as [|c u]; [discriminate|].
  destruct (urlsplit (c :: u)) as [parts|e]; [|discriminate].
  set (last := strip (unquote (List.last (split 47 (path parts)) []))).
  destruct (endswith (py ".pdf") (lower last) && (5 <=? length last)%nat)
    eqn:E1.
  - intros [= <-]. apply andb_true_iff in E1 as [E1 _].
    apply endswith_app in E1 as [pre E1]. unfold lower in E1.
    apply map_eq_app in E1 as (l1 & l2 & -> & _ & Hl2).
    apply safe_filename_app_suffix. exact Hl2.
  - destruct (contains (py "/printpdf/") (path parts)
              && negb (str_eqb last [])
              && negb (str_in (lower last) BAD_LAST_SEGMENTS)).
    + intros [= <-]. apply safe_filename_app_suffix. reflexivity.
    + destruct (negb (str_eqb last [])
                && negb (str_in (lower last) BAD_LAST_SEGMENTS)
                && fullmatch_plain_name last); [|discriminate].
      intros [= <-]. apply safe_filename_app_suffix. reflexivity.
Qed.

(** X8. [_pdf_name_from_url] gives no name for [None], for a blank URL and for
    a URL that [urlsplit] rejects. A name that it does derive is a single
    path component: it contains no slash, no backslash and no NUL, it is
    at most 160 characters long, and it ends in [.pdf], in upper or lower
    case; so it is neither empty nor [.] nor [..]. *)
Theorem pdf_name_from_url_shape (pdf_url : optstr) :
  (strip (or_empty pdf_url) = [] -> _pdf_name_from_url pdf_url = PyNone)
  /\ (forall e : exn,
         urlsplit (strip (or_empty pdf_url)) = Raise e ->
         _pdf_name_from_url pdf_url = PyNone)
  /\ (forall name : str,
         _pdf_name_from_url pdf_url = PyStr name ->
         attachment_name name
         /\ name <> [] /\ name <> [46] /\ name <> [46; 46]).
Proof.
  split; [|split].
  - intros H. unfold _pdf_name_from_url. rewrite H. reflexivity.
  - intros e H. unfold _pdf_name_from_url. rewrite H.
    destruct (strip (or_empty pdf_url)); reflexivity.
  - intros name H. pose proof (pdf_name_from_url_attachment _ _ H) as Ha.
    split; [exact Ha|].
    destruct Ha as (_ & _ & _ & _ & pre & suf & -> & Hsuf).
    assert (length suf = 4%nat) as Hlen.
    { apply (f_equal (@length Z)) in Hsuf. unfold lower in Hsuf.
      rewrite length_map in Hsuf. exact Hsuf. }
    repeat split; intros E; apply (f_equal (@length Z)) in E;
      rewrite length_app, Hlen in E; cbn in E; lia.
Qed.

End AttachmentNames.

(** A blank URL and a URL with an unbalanced bracket give no name; the
    last segment of a path gives its name, here with a space unquoted. *)
Lemma pdf_name_from_url_shape_witness :
  @_pdf_name_from_url plain_runtime (PyStr (py "  ")) = PyNone
  /\ @_pdf_name_from_url plain_runtime (PyStr (py "http://[x/a.pdf")) = PyNone
  /\ attachment_name (py "Annual Report.PDF").
Proof.
  destruct (@pdf_name_from_url_shape plain_runtime (PyStr (py "  ")))
    as (Hblank & _ & _).
  destruct (@pdf_name_from_url_shape plain_runtime
              (PyStr (py "http://[x/a.pdf"))) as (_ & Hraise & _).
  destruct (@pdf_name_from_url_shape plain_runtime
              (PyStr (py "https://x/docs/Annual%20Report.PDF?v=2")))
    as (_ & _ & Hname).
  split; [apply Hblank; reflexivity|].
  split; [apply (Hraise ValueError); vm_compute; reflexivity|].
  apply (Hname (py "Annual Report.PDF")). vm_compute. reflexivity.
Defined.

(** ** Where [put_pdf] stores *)

Lemma index_in_pdf_dir_fresh (root : str) :
  index_in_pdf_dir (LocalStorage root).
Proof.
  intros src key p H. unfold pdf_seen_of in H. simpl in H.
  rewrite lookup_empty in H. simpl in H. rewrite lookup_empty in H.
  discriminate.
Qed.

Section AttachmentPaths.
Context {rt : Runtime}.

(** X6. Every path that [put_pdf] returns, and every path that the attachment
    index records, is [<root>/<source>/pdf/<name>] for a name that is a
    single path component ending in [.pdf], provided this held of the
    index before, as it does in a fresh store. *)
Theorem put_pdf_in_pdf_dir (st st1 : Storage) (src doc_id pdf_url p : str)
  (content : bytes) :
  index_in_pdf_dir st ->
  put_pdf st src doc_id pdf_url content = Ok (st1, p) ->
  (exists name : str, p = pdf_path st src name /\ attachment_name name)
  /\ index_in_pdf_dir st1.
Proof.
  intros Hinv. unfold put_pdf, _pdf_seen_path.
  destruct (_pdf_key (PyStr pdf_url)) as [key|e]; cbn [bind]; [|discriminate].
  set (name := match _pdf_name_from_url (PyStr pdf_url) with
               | PyStr (c :: n) => c :: n
               | _ => _safe_filename (doc_id ++ py ".pdf") 160
               end).
  assert (attachment_name name) as Hname.
  { unfold name.
    destruct (_pdf_name_from_url (PyStr pdf_url)) as [|[|c n]] eqn:E;
      try (apply safe_filename_app_suffix; reflexivity).
    apply (pdf_name_from_url_attachment _ _ E). }
  set (q0 := pdf_path st src name).
  set (st0 := if path_exists st q0 then st else write_bytes st q0 content).
  assert (root st0 = root st /\ forall s, pdf_seen_of st0 s = pdf_seen_of st s)
    as [Hroot Hidx]
      by (unfold st0; destruct (path_exists st q0); split; reflexivity).
  destruct (pdf_seen_of st src !! key) as [p0|] eqn:Hprev.
  - destruct (negb (str_eqb p0 []) && path_exists st p0).
    + intros [= <- <-]. split; [|exact Hinv]. apply (Hinv src key p0 Hprev).
    + intros [= <- <-]. split; [exists name; split; [reflexivity|exact Hname]|].
      rewrite (insert_or_ignore_present st0 src key q0 p0)
        by (rewrite Hidx; exact Hprev).
      intros s k q Hq. rewrite Hidx in Hq.
      destruct (Hinv s k q Hq) as (n & -> & Hn). exists n.
      split; [|exact Hn]. unfold pdf_path. rewrite Hroot. reflexivity.
  - intros [= <- <-]. split; [exists name; split; [reflexivity|exact Hname]|].
    assert (pdf_seen_of st0 src !! key = None) as Hnone
        by (rewrite Hidx; exact Hprev).
    destruct (insert_or_ignore_frame st0 src key q0) as (Hr & _ & _).
    intros s k q Hq.
    rewrite (pdf_seen_of_insert st0 src key q0 s Hnone) in Hq.
    assert (forall n, pdf_path (insert_or_ignore st0 src key q0) s n
                      = pdf_path st s n) as Hpath
        by (intros n; unfold pdf_path; rewrite Hr, Hroot; reflexivity).
    destruct (decide (src = s)) as [<-|Hs].
    + destruct (decide (key = k)) as [<-|Hk].
      * rewrite lookup_insert_eq in Hq. injection Hq as <-.
        exists name. rewrite Hpath. split; [reflexivity | exact Hname].
      * rewrite lookup_insert_ne in Hq by done. rewrite Hidx in Hq.
        destruct (Hinv src k q Hq) as (n & -> & Hn). exists n.
        rewrite Hpath. split; [reflexivity | exact Hn].
    + rewrite Hidx in Hq. destruct (Hinv s k q Hq) as (n & -> & Hn).
      exists n. rewrite Hpath. split; [reflexivity | exact Hn].
Qed.

End AttachmentPaths.

(** In a fresh store the first attachment of a source goes to its [pdf]
    directory under the name taken from the URL. *)
Lemma put_pdf_in_pdf_dir_witness :
  exists (st1 : Storage) (name : str),
    @put_pdf plain_runtime example_store (py "acpr") (py "d1")
             (py "https://x/files/report.pdf") [37; 80; 68; 70]
    = Ok (st1, pdf_path example_store (py "acpr") name)
    /\ attachment_name name /\ index_in_pdf_dir st1.
Proof.
  destruct (@put_pdf plain_runtime example_store (py "acpr") (py "d1")
              (py "https://x/files/report.pdf") [37; 80; 68; 70])
    as [[st1 p]|e] eqn:E; [|vm_compute in E; discriminate E].
  destruct (@put_pdf_in_pdf_dir plain_runtime example_store st1 (py "acpr")
              (py "d1") (py "https://x/files/report.pdf") p
              [37; 80; 68; 70] (index_in_pdf_dir_fresh (py "data")) E)
    as [(name & -> & Hname) Hinv].
  exists st1, name. split; [reflexivity|]. split; assumption.
Defined.

(** * Records as the harvesters build them *)

(** ** Publication dates *)

Lemma zero_padded_small :
  forallb (fun n => ((length (zero_padded 4 n) =? 4)%nat
                     && forallb is_digit_ascii (zero_padded 4 n))
                    && ((99 <? n) ||
                        ((length (zero_padded 2 n) =? 2)%nat
                         && forallb is_digit_ascii (zero_padded 2 n))))
          (List.map Z.of_nat (seq 0 (100 * 100))) = true.
Proof. vm_compute. reflexivity. Qed.

Lemma zero_padded_digits (n : Z) :
  0 <= n <= 9999 ->
  (exists a b c d : Z,
      zero_padded 4 n = [a; b; c; d]
      /\ forallb is_digit_ascii [a; b; c; d] = true)
  /\ (n <= 99 ->
      exists a b : Z,
        zero_padded 2 n = [a; b] /\ forallb is_digit_ascii [a; b] = true).
Proof.
  intros Hn. pose proof zero_padded_small as H.
  rewrite forallb_forall in H. specialize (H n).
  assert (In n (List.map Z.of_nat (seq 0 (100 * 100)))) as Hin.
  { rewrite <- (Z2Nat.id n) by lia. apply in_map, in_seq. cbn. lia. }
  specialize (H Hin). apply andb_true_iff in H as [H4 H2].
  apply andb_true_iff in H4 as [L4 D4]. apply Nat.eqb_eq in L4.
  split.
  - destruct (zero_padded 4 n) as [|a [|b [|c [|d [|e l]]]]];
      try discriminate L4. exists a, b, c, d. split; [reflexivity|exact D4].
  - intros Hsmall. apply orb_true_iff in H2 as [H2|H2];
      [apply Z.ltb_lt in H2; lia|].
    apply andb_true_iff in H2 as [L2 D2]. apply Nat.eqb_eq in L2.
    destruct (zero_padded 2 n) as [|a [|b [|c l]]]; try discriminate L2.
    exists a, b. split; [reflexivity | exact D2].
Qed.

Lemma rstrip_app_keep (f : char -> bool) (D rest : str) :
  D <> [] -> forallb (fun c => negb (f c)) D = true ->
  rstrip_by f (D ++ rest) = D ++ rstrip_by f rest.
Proof.
  intros Hne HD. unfold rstrip_by. rewrite rev_app_distr.
  rewrite <- forallb_rev in HD.
  destruct (rev D) as [|d r] eqn:Hr.
  - apply (f_equal (@rev Z)) in Hr. rewrite rev_involutive in Hr. done.
  - cbn [forallb] in HD. apply andb_true_iff in HD as [Hd _].
    apply negb_true_iff in Hd. rewrite dropwhile_app_stop by exact Hd.
    rewrite rev_app_distr. rewrite <- Hr, rev_involutive. reflexivity.
Qed.

Lemma digit_plain (c : char) :
  is_digit_ascii c = true ->
  isspace c = false /\ (c =? 46) = false /\ (c =? 47) = false.
Proof.
  unfold is_digit_ascii. intros H. apply andb_true_iff in H as [H1 H2].
  apply Z.leb_le in H1. apply Z.leb_le in H2. split; [|split].
  - unfold isspace.
    repeat (apply orb_false_iff; split);
      first [apply Z.eqb_neq; lia
            | apply andb_false_iff;
              first [left; apply Z.leb_gt; lia | right; apply Z.leb_gt; lia]].
  - apply Z.eqb_neq. lia.
  - apply Z.eqb_neq. lia.
Qed.

Lemma to_iso_date_prefix (d : pydate) (sep : char) (rest : str) :
  valid_date d -> sep = 45 \/ sep = 46 \/ sep = 47 ->
  _to_iso_date (DStr (zero_padded 4 (year d) ++ [sep]
                      ++ zero_padded 2 (month d) ++ [sep]
                      ++ zero_padded 2 (day d) ++ rest))
  = PyStr (isoformat d).
Proof.
  intros (Hy & Hm & Hd) Hsep. unfold isoformat.
  destruct (proj1 (zero_padded_digits (year d) ltac:(lia)))
    as (y1 & y2 & y3 & y4 & -> & Dy).
  destruct (proj2 (zero_padded_digits (month d) ltac:(lia)) ltac:(lia))
    as (m1 & m2 & -> & Dm).
  destruct (proj2 (zero_padded_digits (day d) ltac:(lia)) ltac:(lia))
    as (d1 & d2 & -> & Dd).
  cbn [forallb] in Dy, Dm, Dd.
  repeat match goal with
         | H : (_ && _) = true |- _ => apply andb_true_iff in H as [? ?]
         end.
  repeat match goal with
         | H : is_digit_ascii ?c = true |- _ =>
             let A := fresh in let B := fresh in let C := fresh in
             apply digit_plain in H as (A & B & C)
         end.
  assert (isspace sep = false /\ exists sep', sep' = sep) as [Hsp _]
      by (split; [destruct Hsep as [->|[->| ->]]; reflexivity | eauto]).
  cbn [app]. unfold _to_iso_date, strip, strip_by, lstrip_by.
  set (D := [y1; y2; y3; y4; sep; m1; m2; sep; d1; d2]).
  change (y1 :: y2 :: y3 :: y4 :: sep :: m1 :: m2 :: sep :: d1 :: d2 :: rest)
    with (D ++ rest).
  assert (dropwhile isspace (D ++ rest) = D ++ rest) as ->
      by (apply dropwhile_id; cbn; assumption).
  rewrite rstrip_app_keep;
    [|done|cbn [D forallb]; repeat match goal with
                | H : isspace _ = false |- _ => rewrite H; clear H
                end; reflexivity].
  rewrite !replace_char_app.
  assert (replace_char 47 [45] (replace_char 46 [45] D)
          = [y1; y2; y3; y4; 45; m1; m2; 45; d1; d2]) as ->.
  { unfold D, replace_char.
    destruct Hsep as [->|[->| ->]];
      repeat (simpl; match goal with
                     | H : (_ =? _) = false |- _ => rewrite H
                     end);
      reflexivity. }
  unfold D. cbn [app]. reflexivity.
Qed.

Lemma to_iso_date_isoformat (dt : pydatetime) :
  valid_date (dt_date dt) ->
  _to_iso_date (DStr (datetime_isoformat dt))
  = PyStr (isoformat (dt_date dt)).
Proof.
  intros Hv. unfold datetime_isoformat, isoformat. rewrite <- !app_assoc.
  apply (to_iso_date_prefix (dt_date dt) 45 _ Hv). left. reflexivity.
Qed.

(** X20. A text that begins with a date written [YYYY-MM-DD], [YYYY.MM.DD] or
    [YYYY/MM/DD] gives that date in ISO form, whatever follows; so the ISO
    text of a [datetime] gives the same as the [datetime] itself; a blank
    text gives [None]. *)
Theorem to_iso_date_spec :
  (forall (d : pydate) (sep : char) (rest : str),
      valid_date d -> sep = 45 \/ sep = 46 \/ sep = 47 ->
      _to_iso_date (DStr (zero_padded 4 (year d) ++ [sep]
                          ++ zero_padded 2 (month d) ++ [sep]
                          ++ zero_padded 2 (day d) ++ rest))
      = PyStr (isoformat d))
  /\ (forall dt : pydatetime,
         valid_date (dt_date dt) ->
         _to_iso_date (DStr (datetime_isoformat dt))
         = _to_iso_date (DDatetime dt))
  /\ (forall s : str, strip s = [] -> _to_iso_date (DStr s) = PyNone).
Proof.
  split; [exact to_iso_date_prefix|]. split.
  - intros dt Hv. apply to_iso_date_isoformat. exact Hv.
  - intros s Hs. unfold _to_iso_date. rewrite Hs. reflexivity.
Qed.

(** The date of 3 January 2024 written with dots and followed by a time. *)
Lemma to_iso_date_spec_witness :
  _to_iso_date (DStr (py "2024.01.03 10:00")) = PyStr (py "2024-01-03")
  /\ _to_iso_date (DStr (py "   ")) = PyNone.
Proof.
  destruct to_iso_date_spec as (Hdate & _ & Hblank). split.
  - apply (Hdate (mkDate 2024 1 3) 46 (py " 10:00")).
    + unfold valid_date. cbn. lia.
    + right. left. reflexivity.
  - apply Hblank. reflexivity.
Defined.

(** ** The record factory *)

(** X21. [make_record] never fails in the constructor: for the fields of
    [DocumentRecord] as they are, it builds the record whose date is the
    ISO form of the first date argument that is given, whose text is
    [text_path] when that is given and non-empty and [text] otherwise, and
    whose lists default to empty ones; [pdf_paths] is not kept, the record
    has no field for it. *)
Theorem make_record_spec (source doc_id url title : str)
  (published_dt published_at pub_dt date : date_arg)
  (language doc_type : str) (text text_path : optstr)
  (pdf_urls pdf_paths : option (list str))
  (meta : option (list (str * str))) :
  make_record source doc_id url title published_dt published_at pub_dt date
              language doc_type text text_path pdf_urls pdf_paths meta
  = Some (mkRecord doc_id source url title
            (_to_iso_date
               (date_arg_or published_dt
                  (date_arg_or published_at (date_arg_or pub_dt date))))
            (PyStr language) doc_type
            (match text_path with
             | PyStr (c :: p) => c :: p
             | _ => or_empty text
             end)
            (default [] pdf_urls) (default [] meta)).
Proof.
  unfold make_record.
  generalize (_to_iso_date
                (date_arg_or published_dt
                   (date_arg_or published_at (date_arg_or pub_dt date)))).
  intros dt_iso.
  generalize (default [] pdf_urls) (default [] meta) (default [] pdf_paths)
    (or_empty text).
  intros urls m paths t.
  destruct dt_iso as [|d]; destruct text_path as [|[|c p]];
    vm_compute; reflexivity.
Qed.

(** The same equation, for the proofs about the harvesters. *)
Lemma make_record_built (source doc_id url title : str)
  (published_dt published_at pub_dt date : date_arg)
  (language doc_type : str) (text text_path : optstr)
  (pdf_urls pdf_paths : option (list str))
  (meta : option (list (str * str))) :
  make_record source doc_id url title published_dt published_at pub_dt date
              language doc_type text text_path pdf_urls pdf_paths meta
  = Some (mkRecord doc_id source url title
            (_to_iso_date
               (date_arg_or published_dt
                  (date_arg_or published_at (date_arg_or pub_dt date))))
            (PyStr language) doc_type
            (match text_path with
             | PyStr (c :: p) => c :: p
             | _ => or_empty text
             end)
            (default [] pdf_urls) (default [] meta)).
Proof.
  unfold make_record.
  generalize (_to_iso_date
                (date_arg_or published_dt
                   (date_arg_or published_at (date_arg_or pub_dt date)))).
  intros dt_iso.
  generalize (default [] pdf_urls) (default [] meta) (default [] pdf_paths)
    (or_empty text).
  intros urls m paths t.
  destruct dt_iso as [|d]; destruct text_path as [|[|c p]];
    vm_compute; reflexivity.
Qed.

(** * The NBKZ harvester *)

Lemma store_grows_refl (st : Storage) : store_grows st st.
Proof. repeat split; auto. Qed.

Lemma store_grows_trans (a b c : Storage) :
  store_grows a b -> store_grows b c -> store_grows a c.
Proof.
  intros (L1 & S1 & P1) (L2 & S2 & P2). split; [congruence|].
  split; [congruence|]. auto.
Qed.

Lemma exists_store_grows (st st' : Storage) (src id : str) :
  store_grows st st' -> exists_ st' src id = exists_ st src id.
Proof. intros (_ & S & _). unfold exists_, seen_of. rewrite S. reflexivity. Qed.

Lemma datetime_isoformat_nonempty (d : pydatetime) :
  datetime_isoformat d <> [].
Proof.
  unfold datetime_isoformat. intros H. apply (f_equal (@length Z)) in H.
  rewrite !length_app in H. cbn [length] in H. lia.
Qed.

Lemma date_arg_or_str (s : str) (rest : date_arg) :
  s <> [] -> date_arg_or DNone (date_arg_or (DStr s) rest) = DStr s.
Proof. destruct s; [done | reflexivity]. Qed.

Section NBKZFacts.
Context {rt : Runtime}.

Lemma put_pdf_store_grows (st st1 : Storage) (src doc_id pdf_url p : str)
  (content : bytes) :
  put_pdf st src doc_id pdf_url content = Ok (st1, p) -> store_grows st st1.
Proof.
  unfold put_pdf, _pdf_seen_path.
  destruct (_pdf_key (PyStr pdf_url)) as [key|e]; cbn [bind]; [|discriminate].
  set (name := match _pdf_name_from_url (PyStr pdf_url) with
               | PyStr (c :: n) => c :: n
               | _ => _safe_filename (doc_id ++ py ".pdf") 160
               end).
  set (q0 := pdf_path st src name).
  set (st0 := if path_exists st q0 then st else write_bytes st q0 content).
  assert (store_grows st st0) as Hst0
      by (unfold st0; destruct (path_exists st q0); repeat split; auto).
  destruct (pdf_seen_of st src !! key) as [p0|] eqn:Hprev.
  - destruct (negb (str_eqb p0 []) && path_exists st p0).
    + intros [= <- <-]. apply store_grows_refl.
    + intros [= <- <-].
      rewrite (insert_or_ignore_present st0 src key q0 p0); [exact Hst0|].
      apply Hst0. exact Hprev.
  - intros [= <- <-]. apply (store_grows_trans _ st0); [exact Hst0|].
    assert (pdf_seen_of st0 src !! key = None) as Hnone
        by (unfold st0; destruct (path_exists st q0); exact Hprev).
    destruct (insert_or_ignore_frame st0 src key q0) as (_ & Hl & Hs).
    split; [exact Hl|]. split; [exact Hs|].
    intros s k q Hq. rewrite (pdf_seen_of_insert st0 src key q0 s Hnone).
    destruct (decide (src = s)) as [<-|Hne]; [|exact Hq].
    destruct (decide (key = k)) as [<-|Hk]; [congruence|].
    rewrite lookup_insert_ne by done. exact Hq.
Qed.

Lemma pdf_seen_store_grows (st st' : Storage) (src pdf_url : str) :
  store_grows st st' ->
  pdf_seen st src pdf_url = Ok true -> pdf_seen st' src pdf_url = Ok true.
Proof.
  intros (_ & _ & Hp). unfold pdf_seen.
  destruct (_pdf_key (PyStr pdf_url)) as [key|e]; cbn [bind]; [|done].
  intros [= H]. apply bool_decide_eq_true in H as [q Hq].
  rewrite bool_decide_eq_true_2; [reflexivity|]. exists q. auto.
Qed.

Lemma pdf_seen_total (st st' : Storage) (src pdf_url : str) (b : bool) :
  pdf_seen st src pdf_url = Ok b ->
  exists b' : bool, pdf_seen st' src pdf_url = Ok b'.
Proof.
  unfold pdf_seen. destruct (_pdf_key (PyStr pdf_url)); cbn [bind];
    [eauto | discriminate].
Qed.

Variable secret : hash_secret.
Variable _get_binary : nat -> str -> option bytes.
Variable _extract_text_from_html : nat -> str -> str.

Lemma nbkz_item_spec (start_dt end_dt : pydatetime) (st st' : Storage)
  (i : nat) (it : listing_item) (o : option DocumentRecord) :
  nbkz_item secret _get_binary _extract_text_from_html start_dt end_dt st i it
  = Ok (st', o) ->
  store_grows st st'
  /\ match o with
     | None => st' = st /\ skipped secret start_dt end_dt st it
     | Some r =>
         built_from secret it r
         /\ in_window start_dt end_dt (it_date_dt it) = true
         /\ exists_ st nbkz_name (doc_id r) = false
         /\ (it_is_pdf it = true ->
             pdf_seen st nbkz_name (it_url it) = Ok false)
     end.
Proof.
  unfold nbkz_item.
  destruct (in_window start_dt end_dt (it_date_dt it)) eqn:Hwin; cbn [negb].
  2:{ intros [= <- <-]. split; [apply store_grows_refl|].
      split; [reflexivity|]. left. exact Hwin. }
  set (id := nbkz_doc_id secret (dt_date (it_date_dt it)) (it_url it)).
  destruct (it_is_pdf it) eqn:Hpdf.
  - destruct (pdf_seen st nbkz_name (it_url it)) as [seen|e] eqn:Hseen;
      cbn [bind]; [|discriminate].
    destruct seen.
    { intros [= <- <-]. split; [apply store_grows_refl|].
      split; [reflexivity|]. right. left. done. }
    destruct (exists_ st nbkz_name id) eqn:Hex.
    { intros [= <- <-]. split; [apply store_grows_refl|].
      split; [reflexivity|]. right. right. split; [eauto | exact Hex]. }
    assert ((exists st1 paths,
               match _get_binary i (it_url it) with
               | Some (b :: content) =>
                   let* sp := put_pdf st nbkz_name id (it_url it)
                                      (b :: content) in
                   Ok (fst sp, [snd sp])
               | _ => Ok (st, [])
               end = Ok (st1, paths) /\ store_grows st st1)
            \/ exists e,
               match _get_binary i (it_url it) with
               | Some (b :: content) =>
                   let* sp := put_pdf st nbkz_name id (it_url it)
                                      (b :: content) in
                   Ok (fst sp, [snd sp])
               | _ => Ok (st, [])
               end = Raise e) as Hstored.
    { destruct (_get_binary i (it_url it)) as [[|b content]|];
        try (left; exists st, []; split; [reflexivity|apply store_grows_refl]).
      destruct (put_pdf st nbkz_name id (it_url it) (b :: content))
        as [[st1 p]|e] eqn:Hput; cbn [bind fst snd].
      - left. exists st1, [p]. split; [reflexivity|].
        apply (put_pdf_store_grows _ _ _ _ _ _ _ Hput).
      - right. eauto. }
    destruct Hstored as [(st1 & paths & -> & Hgrow)|[e ->]];
      cbn [bind fst snd]; [|discriminate].
    rewrite make_record_built, date_arg_or_str
      by apply datetime_isoformat_nonempty.
    intros [= <- <-].
    split; [exact Hgrow|]. split; [|split; [reflexivity|split]].
    + repeat split; reflexivity.
    + exact Hex.
    + intros _. reflexivity.
  - cbn [bind]. destruct (exists_ st nbkz_name id) eqn:Hex.
    { intros [= <- <-]. split; [apply store_grows_refl|].
      split; [reflexivity|]. right. right.
      split; [intros H; congruence | exact Hex]. }
    rewrite make_record_built, date_arg_or_str
      by apply datetime_isoformat_nonempty.
    intros [= <- <-].
    split; [apply store_grows_refl|]. split; [|split; [reflexivity|split]].
    + repeat split; reflexivity.
    + exact Hex.
    + intros H. congruence.
Qed.

End NBKZFacts.

Lemma pdf_seen_same_index {rt : Runtime} (st st' : Storage)
  (src pdf_url : str) :
  pdf_seen_table st' = pdf_seen_table st ->
  pdf_seen st' src pdf_url = pdf_seen st src pdf_url.
Proof. intros H. unfold pdf_seen, pdf_seen_of. rewrite H. reflexivity. Qed.

Lemma fold_put_record_index (records : list DocumentRecord) (st : Storage) :
  pdf_seen_table (fold_left put_record records st) = pdf_seen_table st.
Proof.
  revert st. induction records as [|r records IH]; intros st; [reflexivity|].
  cbn [fold_left]. rewrite IH. reflexivity.
Qed.

Lemma fold_put_record_exists (records : list DocumentRecord) (st : Storage)
  (src id : str) :
  exists_ st src id = true
  \/ (exists r, In r records /\ source r = src /\ doc_id r = id) ->
  exists_ (fold_left put_record records st) src id = true.
Proof.
  revert st. induction records as [|r records IH]; intros st.
  - intros [H|(r & [] & _)]. exact H.
  - cbn [fold_left]. intros H. apply IH.
    rewrite exists_put_record. unfold of_source. cbn [List.filter].
    destruct H as [H|(x & [<-|Hx] & Hs & Hi)].
    + left. rewrite H. reflexivity.
    + left. subst src id. rewrite str_eqb_refl. cbn [existsb].
      rewrite str_eqb_refl. apply orb_true_r.
    + right. eauto.
Qed.

Section NBKZLoop.
Context {rt : Runtime}.
Variable secret : hash_secret.

Lemma skipped_store_grows (start_dt end_dt : pydatetime) (st st' : Storage)
  (it : listing_item) :
  store_grows st st' ->
  skipped secret start_dt end_dt st it ->
  skipped secret start_dt end_dt st' it.
Proof.
  intros Hg [H|[[Hp H]|[Hp H]]].
  - left. exact H.
  - right. left. split; [exact Hp|].
    apply (pdf_seen_store_grows st st' _ _ Hg H).
  - right. right. split.
    + intros Hpdf. destruct (Hp Hpdf) as [b Hb].
      apply (pdf_seen_total st st' _ _ b Hb).
    + rewrite (exists_store_grows st st' _ _ Hg). exact H.
Qed.

Lemma settled_store_grows (start_dt end_dt : pydatetime) (st st' : Storage)
  (out out' : list DocumentRecord) (it : listing_item) :
  store_grows st st' ->
  settled secret start_dt end_dt st out it ->
  settled secret start_dt end_dt st' (out ++ out') it.
Proof.
  intros Hg [H|[Hp (r & Hr & Hs & Hid)]].
  - left. apply (skipped_store_grows _ _ st st' it Hg H).
  - right. split.
    + intros Hpdf. destruct (Hp Hpdf) as [b Hb].
      apply (pdf_seen_total st st' _ _ b Hb).
    + exists r. split; [apply in_or_app; left; exact Hr|]. done.
Qed.

Variable _get_binary : nat -> str -> option bytes.
Variable _extract_text_from_html : nat -> str -> str.

Lemma nbkz_loop_spec (start_dt end_dt : pydatetime)
  (items : list listing_item) (i : nat) (st st1 : Storage)
  (out recs : list DocumentRecord) :
  nbkz_loop secret _get_binary _extract_text_from_html start_dt end_dt
            items i st out = (st1, Ok recs) ->
  exists new : list DocumentRecord,
    recs = out ++ new
    /\ store_grows st st1
    /\ Forall (new_record secret items start_dt end_dt st) new
    /\ Forall (settled secret start_dt end_dt st1 new) items.
Proof.
  revert i st out. induction items as [|it items IH]; intros i st out.
  - cbn [nbkz_loop]. intros [= <- <-]. exists []. rewrite app_nil_r.
    split; [reflexivity|]. split; [apply store_grows_refl|].
    split; constructor.
  - cbn [nbkz_loop].
    destruct (nbkz_item secret _get_binary _extract_text_from_html
                start_dt end_dt st i it) as [[st' o]|e] eqn:Hit;
      [|discriminate].
    destruct (nbkz_item_spec _ _ _ _ _ _ _ _ _ _ Hit) as [Hg Ho].
    assert (forall new,
               Forall (new_record secret items start_dt end_dt st') new ->
               Forall (new_record secret (it :: items) start_dt end_dt st)
                      new) as Hlift.
    { intros new Hnew. eapply Forall_impl; [exact Hnew|].
      intros r (x & Hx & Hb & Hw & He). exists x.
      split; [right; exact Hx|]. split; [exact Hb|]. split; [exact Hw|].
      rewrite <- (exists_store_grows st st' _ _ Hg). exact He. }
    destruct o as [r|].
    + intros Hloop. destruct (IH _ _ _ Hloop) as (new & -> & Hg1 & Hnew & Hset).
      destruct Ho as (Hb & Hw & He & Hp).
      exists (r :: new). rewrite <- app_assoc. split; [reflexivity|].
      split; [apply (store_grows_trans _ st'); assumption|].
      split; [|constructor].
      * constructor; [|apply Hlift; exact Hnew].
        exists it. split; [left; reflexivity|]. done.
      * right. split.
        -- intros Hpdf. apply (pdf_seen_total st st1 _ _ false).
           apply Hp. exact Hpdf.
        -- exists r. split; [left; reflexivity|].
           destruct Hb as (Hs & _ & Hid & _). done.
      * eapply Forall_impl; [exact Hset|]. intros x Hx.
        apply (settled_store_grows _ _ st1 st1 new [] x (store_grows_refl _))
          in Hx.
        rewrite app_nil_r in Hx.
        destruct Hx as [Hx|[Hp' (y & Hy & Hys)]]; [left; exact Hx|].
        right. split; [exact Hp'|]. exists y. split; [right; exact Hy|done].
    + destruct Ho as [-> Hsk].
      intros Hloop. destruct (IH _ _ _ Hloop) as (new & -> & Hg1 & Hnew & Hset).
      exists new. split; [reflexivity|]. split; [exact Hg1|].
      split; [apply Hlift; exact Hnew|]. constructor; [|exact Hset].
      left. apply (skipped_store_grows _ _ st st1 it Hg1 Hsk).
Qed.

Lemma nbkz_item_skipped (start_dt end_dt : pydatetime) (st : Storage)
  (i : nat) (it : listing_item) :
  skipped secret start_dt end_dt st it ->
  nbkz_item secret _get_binary _extract_text_from_html start_dt end_dt st i it
  = Ok (st, None).
Proof.
  unfold nbkz_item. intros [H|[[Hp H]|[Hp H]]].
  - rewrite H. reflexivity.
  - destruct (in_window start_dt end_dt (it_date_dt it)); [|reflexivity].
    cbn [negb]. rewrite Hp, H. reflexivity.
  - destruct (in_window start_dt end_dt (it_date_dt it)); [|reflexivity].
    cbn [negb]. destruct (it_is_pdf it) eqn:Hpdf.
    + destruct (Hp eq_refl) as [b ->]. cbn [bind].
      destruct b; [reflexivity|]. rewrite H. reflexivity.
    + cbn [bind]. rewrite H. reflexivity.
Qed.

Lemma nbkz_loop_skipped (start_dt end_dt : pydatetime)
  (items : list listing_item) (i : nat) (st : Storage)
  (out : list DocumentRecord) :
  Forall (skipped secret start_dt end_dt st) items ->
  nbkz_loop secret _get_binary _extract_text_from_html start_dt end_dt
            items i st out = (st, Ok out).
Proof.
  revert i. induction items as [|it items IH]; intros i H; [reflexivity|].
  inversion H as [|? ? Hit Hrest]; subst. cbn [nbkz_loop].
  rewrite (nbkz_item_skipped _ _ _ _ _ Hit). apply IH. exact Hrest.
Qed.

End NBKZLoop.

Section NBKZ_fetch_range.
Context {rt : Runtime}.
Variable secret : hash_secret.

(** X22. The records that [fetch_range] returns are new and in the window:
    each is built from an item of the listing whose date lies in
    [start_dt <= pub < end_dt], carries the source name and the URL of the
    item, and has an id that [exists] did not know when [fetch_range] was
    called; its date is the ISO date of the item, the text before the
    underscore of its id. [fetch_range] itself writes nothing to the record
    log or to the document index and removes nothing from the attachment
    index. *)
Theorem nbkz_fetch_range_new_only
  (_get_binary : nat -> str -> option bytes)
  (_extract_text_from_html : nat -> str -> str)
  (listing : list listing_item) (start_dt end_dt : pydatetime)
  (st st1 : Storage) (recs : list DocumentRecord) :
  nbkz_fetch_range secret _get_binary _extract_text_from_html listing
                   start_dt end_dt st = (st1, Ok recs) ->
  store_grows st st1
  /\ Forall (new_record secret listing start_dt end_dt st) recs
  /\ Forall (fun r => forall it : listing_item,
                 built_from secret it r ->
                 valid_date (dt_date (it_date_dt it)) ->
                 date r = PyStr (isoformat (dt_date (it_date_dt it)))
                 /\ exists n : str,
                      doc_id r
                      = isoformat (dt_date (it_date_dt it)) ++ [95] ++ n)
            recs.
Proof.
  intros H.
  assert (store_grows st st1
          /\ Forall (new_record secret listing start_dt end_dt st) recs)
    as [Hg Hnew].
  { unfold nbkz_fetch_range in H. destruct listing as [|it listing].
    - injection H as <- <-. split; [apply store_grows_refl | constructor].
    - destruct (nbkz_loop_spec _ _ _ _ _ _ _ _ _ _ _ H)
        as (new & -> & Hg & Hnew & _).
      split; [exact Hg | exact Hnew]. }
  split; [exact Hg|]. split; [exact Hnew|].
  apply Forall_forall. intros r _ it (_ & _ & Hid & _ & Hdate) Hv.
  split.
  - rewrite Hdate. apply to_iso_date_isoformat. exact Hv.
  - rewrite Hid. unfold nbkz_doc_id. eauto.
Qed.

(** X23. Once the records that [fetch_range] returned are put into the store, a
    second [fetch_range] over the same listing and window in the same
    process returns nothing and leaves the store as it is, whatever the
    network answers: every item is passed over, because it lies outside the
    window, or its attachment is in the index, or its id is marked seen. *)
Theorem nbkz_second_pass_empty
  (_get_binary _get_binary' : nat -> str -> option bytes)
  (_extract_text_from_html _extract_text_from_html' : nat -> str -> str)
  (listing : list listing_item) (start_dt end_dt : pydatetime)
  (st st1 : Storage) (recs : list DocumentRecord) :
  nbkz_fetch_range secret _get_binary _extract_text_from_html listing
                   start_dt end_dt st = (st1, Ok recs) ->
  nbkz_fetch_range secret _get_binary' _extract_text_from_html' listing
                   start_dt end_dt (fold_left put_record recs st1)
  = (fold_left put_record recs st1, Ok []).
Proof.
  intros H. unfold nbkz_fetch_range in *.
  destruct listing as [|it listing]; [reflexivity|].
  destruct (nbkz_loop_spec _ _ _ _ _ _ _ _ _ _ _ H)
    as (new & -> & _ & _ & Hset).
  cbn [app] in *. apply nbkz_loop_skipped.
  eapply Forall_impl; [exact Hset|]. intros x Hx.
  set (st2 := fold_left put_record new st1).
  assert (pdf_seen_table st2 = pdf_seen_table st1) as Hidx
      by apply fold_put_record_index.
  destruct Hx as [[Hw|[[Hp Hs]|[Hp He]]]|[Hp (r & Hr & Hsrc & Hid)]].
  - left. exact Hw.
  - right. left. split; [exact Hp|].
    rewrite (pdf_seen_same_index st1 st2 _ _ Hidx). exact Hs.
  - right. right. split.
    + intros Hpdf. rewrite (pdf_seen_same_index st1 st2 _ _ Hidx). auto.
    + apply fold_put_record_exists. left. exact He.
  - right. right. split.
    + intros Hpdf. rewrite (pdf_seen_same_index st1 st2 _ _ Hidx). auto.
    + apply fold_put_record_exists. right. exists r. done.
Qed.

End NBKZ_fetch_range.

(** On the example listing the first pass returns the two items of January
    2024 and stores one attachment. *)
Lemma nbkz_fetch_range_new_only_witness :
  exists (st1 : Storage) (recs : list DocumentRecord),
    @nbkz_fetch_range plain_runtime (0, 0) example_binary example_text
      example_listing example_start example_end example_store
    = (st1, Ok recs)
    /\ length recs = 2%nat
    /\ store_grows example_store st1
    /\ Forall (new_record (0, 0) example_listing example_start example_end
                          example_store) recs.
Proof.
  destruct (@nbkz_fetch_range plain_runtime (0, 0) example_binary
              example_text example_listing example_start example_end
              example_store) as [st1 [recs|e]] eqn:E;
    [|vm_compute in E; discriminate E].
  exists st1, recs. split; [reflexivity|]. split.
  - pose proof E as E'. vm_compute in E'. injection E' as _ <-. reflexivity.
  - pose proof (@nbkz_fetch_range_new_only plain_runtime (0, 0)
                  example_binary example_text example_listing example_start
                  example_end example_store st1 recs E) as (Hg & Hnew & _).
    split; assumption.
Defined.

(** After the two records are put, a second pass over the example listing
    returns nothing, also when the network is down. *)
Lemma nbkz_second_pass_empty_witness :
  exists (st1 : Storage) (recs : list DocumentRecord),
    @nbkz_fetch_range plain_runtime (0, 0) example_binary example_text
      example_listing example_start example_end example_store
    = (st1, Ok recs)
    /\ length recs = 2%nat
    /\ @nbkz_fetch_range plain_runtime (0, 0) no_binary no_text
         example_listing example_start example_end
         (fold_left put_record recs st1)
       = (fold_left put_record recs st1, Ok []).
Proof.
  destruct (@nbkz_fetch_range plain_runtime (0, 0) example_binary
              example_text example_listing example_start example_end
              example_store) as [st1 [recs|e]] eqn:E;
    [|vm_compute in E; discriminate E].
  exists st1, recs. split; [reflexivity|]. split.
  - pose proof E as E'. vm_compute in E'. injection E' as _ <-. reflexivity.
  - apply (@nbkz_second_pass_empty plain_runtime (0, 0) example_binary
             no_binary example_text no_text example_listing example_start
             example_end example_store st1 recs E).
Defined.

(** * The runner of [master.py] *)

Section MasterFacts.
Variable Store : Type.
Variable put : Store -> DocumentRecord -> Store * result unit.

Lemma put_all_save_records (records : list DocumentRecord) (st st' : Store)
  (saved : Z) :
  put_all put st records = (st', Ok tt) ->
  save_records put st records saved
  = (st', Ok (saved + Z.of_nat (length records))).
Proof.
  revert st saved. induction records as [|r records IH]; intros st saved.
  - cbn. intros [= <-]. rewrite Z.add_0_r. reflexivity.
  - cbn [put_all save_records]. destruct (put st r) as [st1 [[]|e]];
      [|discriminate].
    intros H. rewrite (IH _ _ H). cbn [length]. do 2 f_equal. lia.
Qed.

Lemma run_roster_run_parsers (parsers : list (Harvester Store))
  (start_dt end_dt : datetime) (st st' : Store) (total n : Z) :
  run_roster put parsers start_dt end_dt st total = (st', Ok n) ->
  run_parsers put parsers start_dt end_dt st total = (st', Ok n).
Proof.
  revert st total. induction parsers as [|p parsers IH]; intros st total.
  - cbn. done.
  - cbn [run_roster run_parsers].
    destruct (fetch_range p start_dt end_dt st) as [st1 [records|e]];
      [|discriminate].
    destruct (put_all put st1 records) as [st2 [[]|e]] eqn:Hput;
      [|discriminate].
    rewrite (put_all_save_records _ _ _ 0 Hput). cbn [Z.add].
    intros H. apply IH. exact H.
Qed.

(** X17. [run_last_week] has no handlers: the first exception of a harvester or
    of [put_record] ends the run and the harvesters behind it are not
    called. Whenever it does complete, [run_once] over the same 60 days,
    from the same store, ends in the same store with the same total. *)
Theorem run_last_week_unprotected :
  (forall (PARSERS : list (Harvester Store)) (now : datetime)
          (st st' : Store) (n : Z),
      run_last_week put PARSERS now st = (st', Ok n) ->
      run_once put PARSERS now 60 st = (st', Ok n))
  /\ (forall (A : Harvester Store) (rest : list (Harvester Store))
             (start_dt end_dt : datetime) (st st1 : Store) (e : exn)
             (total : Z),
         fetch_range A start_dt end_dt st = (st1, Raise e) ->
         run_roster put (A :: rest) start_dt end_dt st total
         = (st1, Raise e))
  /\ (forall (rec : DocumentRecord) (records : list DocumentRecord)
             (st st1 : Store) (e : exn),
         put st rec = (st1, Raise e) ->
         put_all put st (rec :: records) = (st1, Raise e)).
Proof.
  split; [|split].
  - intros PARSERS now st st' n. unfold run_last_week, run_once.
    change (Z.opp 60) with (Z.neg 60). destruct (add_days now (- 60)) as [start_dt|e]; [|discriminate].
    apply run_roster_run_parsers.
  - intros A rest start_dt end_dt st st1 e total H.
    cbn [run_roster]. rewrite H. reflexivity.
  - intros rec records st st1 e H. cbn [put_all]. rewrite H. reflexivity.
Qed.

End MasterFacts.

(** On the local store the healthy harvester alone is run to the end by
    both runners; behind the harvester that raises, [run_last_week] stops
    where [run_once] goes on. *)
Lemma run_last_week_unprotected_witness :
  run_once local_put [healthy_harvester] example_now 60 example_store
  = run_last_week local_put [healthy_harvester] example_now example_store
  /\ run_roster local_put [crashing_harvester; healthy_harvester]
                example_now example_now example_store 0
     = (example_store, Raise HarvesterError).
Proof.
  destruct (run_last_week_unprotected Storage local_put) as (Hsame & Hstop & _).
  split.
  - destruct (run_last_week local_put [healthy_harvester] example_now
                example_store) as [st' [n|e]] eqn:E;
      [|vm_compute in E; discriminate E].
    apply Hsame. exact E.
  - apply Hstop. reflexivity.
Defined.

(** * Further properties of the canonical form and of the attachment key *)

Section CanonicalForm.
Context {rt : Runtime}.

(** X10. The canonical form of a URL contains no [#], no tab, no carriage
    return and no newline; it is put together from the scheme, authority
    and path of the stripped input and a query that decodes to the kept
    parameters of the input: in sorted order and free of tracking keys. *)
Theorem normalize_clean_query (u : optstr) (r : str) :
  _normalize_pdf_url u = Ok r ->
  char_in 35 r = false
  /\ no_tab_cr_lf r
  /\ exists (parts : SplitResult) (nq : str),
       urlsplit (strip (or_empty u)) = Ok parts
       /\ r = urlunsplit (mkSplit (scheme parts) (netloc parts) (path parts)
                                  nq [])
       /\ parse_qsl nq
          = list_sort (drop_tracking (parse_qsl (query parts)))
       /\ drop_tracking (parse_qsl nq) = parse_qsl nq
       /\ list_sort (parse_qsl nq) = parse_qsl nq.
Proof.
  rewrite normalize_unfold.
  destruct (urlsplit (strip (or_empty u))) as [parts|e] eqn:Hsplit;
    cbn [bind]; [|discriminate].
  set (q2 := list_sort (drop_tracking (parse_qsl (query parts)))).
  destruct (urlencode q2) as [nq|e] eqn:Henc; cbn [bind]; [|discriminate].
  intros [= <-].
  destruct (parse_qsl_urlencode q2 nq Henc) as [Hparse Hchars].
  destruct (urlsplit_wf _ _ Hsplit)
    as [Hcs Hcn Hcp Hsch Hnet Hpath _ _ _ _].
  destruct (rooted_shape (path parts)) as (_ & Hr2 & Hr3 & _).
  split; [|split].
  - rewrite urlunsplit_unfold, !char_in_app.
    assert (char_in 35 (scheme_prefix (scheme parts)) = false) as ->.
    { unfold scheme_prefix. destruct (negb (str_eqb (scheme parts) []));
        [|reflexivity].
      rewrite char_in_app. cbn. rewrite orb_false_r.
      destruct Hsch as [->|(_ & _ & Hs & _)]; [reflexivity|].
      apply (forallb_char_in _ 35 _ Hs). reflexivity. }
    rewrite (query_suffix_lacks 35 nq Hchars) by done.
    rewrite orb_false_r. cbn [orb].
    destruct Hnet as (_ & _ & Hn). destruct Hpath as [Hp63 Hp].
    destruct (with_authority (scheme parts) (netloc parts) (path parts));
      [|exact Hp].
    rewrite !char_in_app, Hn, (proj2 (Hr2 (conj Hp63 Hp))). reflexivity.
  - rewrite urlunsplit_unfold. apply no_tab_cr_lf_app.
    split; [apply scheme_prefix_clean; exact Hcs|].
    apply no_tab_cr_lf_app. split; [|apply query_suffix_clean; exact Hchars].
    destruct (with_authority (scheme parts) (netloc parts) (path parts));
      [|exact Hcp].
    apply no_tab_cr_lf_app. split; [repeat split|].
    apply no_tab_cr_lf_app. split; [exact Hcn | auto].
  - exists parts, nq. split; [reflexivity|]. split; [reflexivity|].
    split; [exact Hparse|]. rewrite Hparse. unfold q2. split.
    + apply drop_tracking_idempotent_sorted.
    + apply list_sort_idempotent.
Qed.

(** X9. The key of an attachment is a string of 40 lower-case hex digits; all
    blank URLs, and [None], share the key of the empty string; a fragment
    behind a URL does not change its key. *)
Theorem pdf_key_format (u : optstr) :
  (forall k : str,
      _pdf_key u = Ok k -> length k = 40%nat /\ is_hex k = true)
  /\ (strip (or_empty u) = [] -> _pdf_key u = Ok (sha1_hexdigest []))
  /\ (forall b f : str,
         char_in 35 b = false -> rstrip_by isspace b = b ->
         _pdf_key (PyStr (b ++ [35] ++ f)) = _pdf_key (PyStr b)).
Proof.
  split; [|split].
  - intros k. unfold _pdf_key.
    destruct (_normalize_pdf_url u) as [norm|e]; cbn [bind]; [|discriminate].
    destruct (utf8_encode norm) as [bs|e]; cbn [bind]; [|discriminate].
    intros [= <-]. apply sha1_hexdigest_format.
  - intros H. unfold _pdf_key, _normalize_pdf_url. rewrite H. reflexivity.
  - intros b f Hb Hr. unfold _pdf_key.
    rewrite (normalize_fragment b f Hb Hr). reflexivity.
Qed.

End CanonicalForm.

(** The canonical form of a URL with a tab, a tracking parameter and a
    fragment. *)
Lemma normalize_clean_query_witness :
  @_normalize_pdf_url plain_runtime
    (PyStr (py "https://x/a?b=1&ts=9&a=2#top" ++ [9]))
  = Ok (py "https://x/a?a=2&b=1")
  /\ char_in 35 (py "https://x/a?a=2&b=1") = false
  /\ no_tab_cr_lf (py "https://x/a?a=2&b=1").
Proof.
  assert (@_normalize_pdf_url plain_runtime
            (PyStr (py "https://x/a?b=1&ts=9&a=2#top" ++ [9]))
          = Ok (py "https://x/a?a=2&b=1")) as E by (vm_compute; reflexivity).
  destruct (@normalize_clean_query plain_runtime _ _ E) as (H1 & H2 & _).
  split; [exact E|]. split; assumption.
Defined.

(** * Witnesses for the store *)

(** With a [put_record] that fails on one record of three, two are
    counted. *)
Lemma save_records_count_witness :
  exists (st' : Storage) (n : Z),
    save_records flaky_put example_store
                 [example_record (py "r1"); example_record (py "bad");
                  example_record (py "r2")] 0
    = (st', Ok n)
    /\ 0 <= n <= 0 + Z.of_nat 3.
Proof.
  destruct (save_records flaky_put example_store
              [example_record (py "r1"); example_record (py "bad");
               example_record (py "r2")] 0) as [st' [n|e]] eqn:E;
    [|vm_compute in E; discriminate E].
  exists st', n. split; [reflexivity|].
  apply (save_records_count Storage flaky_put _ _ _ _ _ E).
Defined.

(** The first attachment of a fresh store: one file is created, at the
    path that is returned, and nothing else changes. *)
Lemma put_pdf_frame_witness :
  exists (st1 : Storage) (p : str),
    @put_pdf plain_runtime example_store (py "acpr") (py "d1")
             (py "https://x/files/report.pdf") [37; 80; 68; 70]
    = Ok (st1, p)
    /\ records_jsonl st1 = records_jsonl example_store
    /\ seen_table st1 = seen_table example_store
    /\ path_exists st1 p = true.
Proof.
  destruct (@put_pdf plain_runtime example_store (py "acpr") (py "d1")
              (py "https://x/files/report.pdf") [37; 80; 68; 70])
    as [[st1 p]|e] eqn:E; [|vm_compute in E; discriminate E].
  destruct (@put_pdf_frame plain_runtime example_store st1 (py "acpr")
              (py "d1") (py "https://x/files/report.pdf") p
              [37; 80; 68; 70] E) as (_ & Hl & Hs & _ & _ & Hp & _).
  exists st1, p. split; [reflexivity|]. split; [exact Hl|].
  split; [exact Hs | exact Hp].
Defined.

(** After the first attachment of a fresh store, the same URL with a
    tracking parameter, and with a fragment, is seen. *)
Lemma pdf_seen_after_put_pdf_witness :
  exists (st1 : Storage) (p : str),
    @put_pdf plain_runtime example_store (py "acpr") (py "d1")
             (py "https://x/files/report.pdf") [37; 80; 68; 70]
    = Ok (st1, p)
    /\ @pdf_seen plain_runtime st1 (py "acpr")
         (py "https://x/files/report.pdf?utm_source=mail") = Ok true
    /\ @pdf_seen plain_runtime st1 (py "acpr")
         (py "https://x/files/report.pdf" ++ [35] ++ py "page=2") = Ok true.
Proof.
  destruct (@put_pdf plain_runtime example_store (py "acpr") (py "d1")
              (py "https://x/files/report.pdf") [37; 80; 68; 70])
    as [[st1 p]|e] eqn:E; [|vm_compute in E; discriminate E].
  destruct (@pdf_seen_after_put_pdf plain_runtime example_store st1
              (py "acpr") (py "d1") (py "https://x/files/report.pdf") p
              [37; 80; 68; 70] E) as (Hsame & Hfrag).
  exists st1, p. split; [reflexivity|]. split.
  - apply Hsame. vm_compute. reflexivity.
  - apply Hfrag; vm_compute; reflexivity.
Defined.

(** * The pass of [run_once] *)

(** ** The log only grows *)

Lemma log_extends_refl (st : Storage) : log_extends st st.
Proof. intros src. exists []. rewrite app_nil_r. reflexivity. Qed.

Lemma log_extends_trans (a b c : Storage) :
  log_extends a b -> log_extends b c -> log_extends a c.
Proof.
  intros Hab Hbc src. destruct (Hab src) as [m1 H1].
  destruct (Hbc src) as [m2 H2]. exists (m1 ++ m2).
  rewrite H2, H1, app_assoc. reflexivity.
Qed.

Lemma log_extends_same (st st' : Storage) :
  records_jsonl st' = records_jsonl st -> log_extends st st'.
Proof.
  intros H src. exists []. unfold lines_of. rewrite H, app_nil_r.
  reflexivity.
Qed.

Lemma in_log_extends (st st' : Storage) (r : DocumentRecord) :
  log_extends st st' -> in_log st r -> in_log st' r.
Proof.
  intros H Hr. unfold in_log in *. destruct (H (source r)) as [more ->].
  apply in_or_app. left. exact Hr.
Qed.

Lemma log_extends_append_line (st : Storage) (r : DocumentRecord) :
  log_extends st (append_line st r).
Proof.
  intros src. destruct (str_eqb (source r) src) eqn:E.
  - apply str_eqb_eq in E. subst src. exists [r]. apply lines_of_append_line.
  - apply str_eqb_neq in E. exists []. rewrite app_nil_r.
    apply lines_of_append_line_ne. exact E.
Qed.

Lemma log_extends_put_record (st : Storage) (r : DocumentRecord) :
  log_extends st (put_record st r).
Proof.
  intros src. exists (of_source src [r]). apply lines_of_put_record.
Qed.

Lemma put_record_crash_cases (k : nat) (st : Storage) (r : DocumentRecord) :
  (k = 0%nat /\ put_record_crash k st r = st)
  \/ (k = 1%nat /\ put_record_crash k st r = append_line st r)
  \/ ((2 <= k)%nat /\ put_record_crash k st r = put_record st r).
Proof.
  destruct k as [|[|k]].
  - left. split; reflexivity.
  - right. left. split; reflexivity.
  - right. right. split; [lia|].
    unfold put_record_crash, put_record, put_record_effects.
    cbn [firstn]. rewrite firstn_nil. reflexivity.
Qed.

Lemma log_extends_put_record_crash (k : nat) (st : Storage)
  (r : DocumentRecord) :
  log_extends st (put_record_crash k st r).
Proof.
  destruct (put_record_crash_cases k st r) as [[_ ->]|[[_ ->]|[_ ->]]].
  - apply log_extends_refl.
  - apply log_extends_append_line.
  - apply log_extends_put_record.
Qed.

Lemma in_log_put_record (st : Storage) (r : DocumentRecord) :
  in_log (put_record st r) r.
Proof.
  unfold in_log. rewrite put_record_unfold, lines_of_mark_seen,
    lines_of_append_line.
  apply in_or_app. right. left. reflexivity.
Qed.

(** ** The two loops of [run_once] go to their end *)

Section Pass.
Variable put : Storage -> DocumentRecord -> Storage * result unit.
Hypothesis put_spec : put_record_or_raise put.

Lemma put_log_extends (st : Storage) (r : DocumentRecord) :
  log_extends st (fst (put st r)).
Proof.
  destruct (put_spec st r) as [->|(k & e & _ & ->)]; cbn [fst].
  - apply log_extends_put_record.
  - apply log_extends_put_record_crash.
Qed.

Lemma put_raises_Exception (st st' : Storage) (r : DocumentRecord) (e : exn) :
  put st r = (st', Raise e) -> is_Exception e = true.
Proof.
  destruct (put_spec st r) as [->|(k & e' & He & ->)].
  - discriminate.
  - intros [= _ <-]. exact He.
Qed.

Lemma put_ok_in_log (st st' : Storage) (r : DocumentRecord) :
  put st r = (st', Ok tt) -> in_log st' r.
Proof.
  destruct (put_spec st r) as [->|(k & e' & He & ->)].
  - intros [= <-]. apply in_log_put_record.
  - discriminate.
Qed.

(** The inner loop tries every record of the batch: it ends without an
    exception, the records on which [put] cannot raise are in the log, and
    each of them is counted. *)
Lemma save_records_persists (records : list DocumentRecord) (st : Storage)
  (saved : Z) :
  exists (st2 : Storage) (n : Z),
    save_records put st records saved = (st2, Ok n)
    /\ log_extends st st2
    /\ (forall r : DocumentRecord,
           In r records -> always_saved put r -> in_log st2 r)
    /\ (forall P : DocumentRecord -> bool,
           (forall r : DocumentRecord, P r = true -> always_saved put r) ->
           saved + Z.of_nat (length (List.filter P records)) <= n).
Proof.
  revert st saved. induction records as [|rec records IH]; intros st saved.
  - exists st, saved. split; [reflexivity|].
    split; [apply log_extends_refl|]. split.
    + intros r [].
    + intros P _. cbn. lia.
  - cbn [save_records]. pose proof (put_log_extends st rec) as Hext.
    destruct (put st rec) as [st1 [[]|e]] eqn:Hput; cbn [fst] in Hext.
    + destruct (IH st1 (saved + 1)) as (st2 & n & -> & Hext2 & Hin & Hcnt).
      exists st2, n. split; [reflexivity|].
      split; [apply (log_extends_trans _ _ _ Hext Hext2)|]. split.
      * intros r [<-|Hr] Hr'.
        -- apply (in_log_extends _ _ _ Hext2).
           apply (put_ok_in_log _ _ _ Hput).
        -- apply (Hin r Hr Hr').
      * intros P HP. specialize (Hcnt P HP). cbn [List.filter].
        destruct (P rec); cbn [length]; lia.
    + rewrite (put_raises_Exception _ _ _ _ Hput).
      destruct (IH st1 saved) as (st2 & n & -> & Hext2 & Hin & Hcnt).
      exists st2, n. split; [reflexivity|].
      split; [apply (log_extends_trans _ _ _ Hext Hext2)|]. split.
      * intros r [<-|Hr] Hr'.
        -- specialize (Hr' st). rewrite Hput in Hr'. discriminate.
        -- apply (Hin r Hr Hr').
      * intros P HP. specialize (Hcnt P HP). cbn [List.filter].
        destruct (P rec) eqn:HPrec; [|exact Hcnt].
        specialize (HP rec HPrec st). rewrite Hput in HP. discriminate.
Qed.

Lemma fetch_range_log_extends (B : Harvester Storage)
  (start_dt end_dt : datetime) (st : Storage) :
  keeps_log B -> log_extends st (fst (fetch_range B start_dt end_dt st)).
Proof.
  intros H. apply log_extends_same. apply (H start_dt end_dt st).
Qed.

(** The outer loop calls every harvester of the roster: it ends without an
    exception, and neither the log nor the total shrinks. *)
Lemma run_parsers_completes (parsers : list (Harvester Storage))
  (start_dt end_dt : datetime) (st : Storage) (total : Z) :
  Forall keeps_log parsers ->
  exists (final : Storage) (n : Z),
    run_parsers put parsers start_dt end_dt st total = (final, Ok n)
    /\ log_extends st final /\ total <= n.
Proof.
  intros Hall. revert st total.
  induction Hall as [|B parsers HB Hall IH]; intros st total.
  - exists st, total. split; [reflexivity|].
    split; [apply log_extends_refl | lia].
  - cbn [run_parsers].
    pose proof (fetch_range_log_extends B start_dt end_dt st HB) as Hext.
    destruct (HB start_dt end_dt st) as [_ Hexn].
    destruct (fetch_range B start_dt end_dt st) as [st1 [records|e]];
      cbn [fst snd] in Hext, Hexn.
    + destruct (save_records_persists records st1 0)
        as (st2 & saved & -> & Hext2 & _ & Hcnt).
      specialize (Hcnt (fun _ => false) ltac:(discriminate)).
      destruct (IH st2 (total + saved)) as (final & n & -> & Hext3 & Hn).
      exists final, n. split; [reflexivity|]. split.
      * apply (log_extends_trans _ _ _ Hext).
        apply (log_extends_trans _ _ _ Hext2 Hext3).
      * assert (List.filter (fun _ : DocumentRecord => false) records = [])
          as Hnil by (clear; induction records; auto).
        rewrite Hnil in Hcnt. cbn in Hcnt. lia.
    + rewrite (Hexn e eq_refl).
      destruct (IH st1 total) as (final & n & -> & Hext3 & Hn).
      exists final, n. split; [reflexivity|].
      split; [apply (log_extends_trans _ _ _ Hext Hext3) | exact Hn].
Qed.

Lemma run_parsers_app (before after : list (Harvester Storage))
  (start_dt end_dt : datetime) (st : Storage) (total : Z) :
  run_parsers put (before ++ after) start_dt end_dt st total
  = match run_parsers put before start_dt end_dt st total with
    | (st1, Ok n) => run_parsers put after start_dt end_dt st1 n
    | (st1, Raise e) => (st1, Raise e)
    end.
Proof.
  revert st total. induction before as [|A before IH]; intros st total.
  - reflexivity.
  - cbn [app run_parsers].
    destruct (fetch_range A start_dt end_dt st) as [st1 [records|e]].
    + destruct (save_records put st1 records 0) as [st2 [saved|e]];
        [apply IH | reflexivity].
    + destruct (is_Exception e); [apply IH | reflexivity].
Qed.

(** C5. In a pass of [run_once] over a roster, every harvester [B] is
    called, on the store that the harvesters before it left, whether or
    not some of them raised in [fetch_range] or lost records in
    [put_record]: the loop over the harvesters before [B] and the whole
    pass end without an exception. When [fetch_range] of [B] raises, the
    pass goes on with the harvesters behind [B], from the store as the
    failed call left it and with the total unchanged. When it returns,
    every returned record on which [put_record] does not raise is in the
    log at the end of the pass, whatever happened to the other records of
    the batch, and each such record is counted in the total that the pass
    returns. The exceptions are those that derive from [Exception]. *)
Theorem run_once_isolates_failures
  (before after : list (Harvester Storage)) (B : Harvester Storage)
  (now start_dt : datetime) (days : Z) (st : Storage) :
  Forall keeps_log (before ++ B :: after) ->
  add_days now (- days) = Ok start_dt ->
  exists (stB final : Storage) (nB n : Z),
    run_parsers put before start_dt now st 0 = (stB, Ok nB)
    /\ run_once put (before ++ B :: after) now days st = (final, Ok n)
    /\ 0 <= nB <= n
    /\ match fetch_range B start_dt now stB with
       | (st1, Raise _) =>
           run_parsers put after start_dt now st1 nB = (final, Ok n)
       | (st1, Ok records) =>
           (forall r : DocumentRecord,
               In r records -> always_saved put r -> in_log final r)
           /\ (forall P : DocumentRecord -> bool,
                  (forall r : DocumentRecord,
                      P r = true -> always_saved put r) ->
                  nB + Z.of_nat (length (List.filter P records)) <= n)
       end.
Proof.
  intros Hall Hstart.
  apply Forall_app in Hall as [Hbefore Hrest].
  apply Forall_cons_iff in Hrest as [HB Hafter].
  destruct (run_parsers_completes before start_dt now st 0 Hbefore)
    as (stB & nB & Hrun & _ & HnB).
  exists stB. unfold run_once. rewrite Hstart, run_parsers_app, Hrun.
  cbn [run_parsers].
  destruct (HB start_dt now stB) as [_ Hexn].
  destruct (fetch_range B start_dt now stB) as [st1 [records|e]];
    cbn [snd] in Hexn.
  - destruct (save_records_persists records st1 0)
      as (st2 & saved & -> & _ & Hin & Hcnt).
    destruct (run_parsers_completes after start_dt now st2 (nB + saved)
                Hafter) as (final & n & -> & Hext & Hn).
    pose proof (Hcnt (fun _ => false) ltac:(discriminate)) as H0.
    assert (List.filter (fun _ : DocumentRecord => false) records = [])
      as Hnil by (clear; induction records; auto).
    rewrite Hnil in H0. cbn in H0.
    exists final, nB, n. split; [reflexivity|]. split; [reflexivity|].
    split; [lia|]. split.
    + intros r Hr Hr'. apply (in_log_extends _ _ _ Hext). auto.
    + intros P HP. specialize (Hcnt P HP). lia.
  - rewrite (Hexn e eq_refl).
    destruct (run_parsers_completes after start_dt now st1 nB Hafter)
      as (final & n & Hfinal & _ & Hn).
    exists final, nB, n. split; [reflexivity|]. split; [exact Hfinal|].
    split; [lia | exact Hfinal].
Qed.

End Pass.

(** * A crash inside [put_record] and the next pass of the harvester *)

Lemma entries_same_log (st st' : Storage) (src id : str) :
  records_jsonl st' = records_jsonl st -> entries st' src id = entries st src id.
Proof. intros H. unfold entries, lines_of. rewrite H. reflexivity. Qed.

Lemma exists_same_index (st st' : Storage) (src id : str) :
  seen_table st' = seen_table st -> exists_ st' src id = exists_ st src id.
Proof. intros H. unfold exists_, seen_of. rewrite H. reflexivity. Qed.

Lemma entries_put_record (st : Storage) (r : DocumentRecord) (src id : str) :
  entries (put_record st r) src id
  = (entries st src id
     + if str_eqb (source r) src && str_eqb (doc_id r) id then 1 else 0)%nat.
Proof.
  unfold entries. rewrite lines_of_put_record, List.filter_app, length_app.
  f_equal. unfold of_source. cbn [List.filter].
  destruct (str_eqb (source r) src); cbn [andb List.filter length];
    [|reflexivity].
  destruct (str_eqb (doc_id r) id); reflexivity.
Qed.

Lemma entries_fold_put_record (records : list DocumentRecord) (st : Storage)
  (src id : str) :
  (entries st src id <= entries (fold_left put_record records st) src id)%nat
  /\ ((exists r : DocumentRecord,
          In r records /\ source r = src /\ doc_id r = id) ->
      (entries st src id + 1
       <= entries (fold_left put_record records st) src id)%nat).
Proof.
  revert st. induction records as [|x records IH]; intros st.
  - split; [cbn; lia|]. intros (r & [] & _).
  - cbn [fold_left]. destruct (IH (put_record st x)) as [Hle Hone].
    pose proof (entries_put_record st x src id) as Hx.
    split; [lia|].
    intros (r & [<-|Hr] & Hs & Hi).
    + subst src id. rewrite !str_eqb_refl in Hx. cbn [andb] in Hx. lia.
    + assert ((entries (put_record st x) src id + 1
               <= entries (fold_left put_record records (put_record st x))
                          src id)%nat) by (apply Hone; eauto).
      lia.
Qed.

Section CrashAndRerun.
Context {rt : Runtime}.
Variable secret : hash_secret.
Variable _get_binary : nat -> str -> option bytes.
Variable _extract_text_from_html : nat -> str -> str.

(** C2, as amended. [put_record] appends the line first and marks the id
    seen second, with no transaction around the two. Take the record of a
    page of the NBKZ listing whose id is not marked seen, and let only the
    first [k] of the two effects reach the disk. After a crash between the
    two ([k = 1]) the line is in the log, so the record is not dropped, but
    the id is not marked: the next pass of the harvester under the same
    hash key emits the record again, and when the scheduler has put what
    the pass returned, the log holds a second line for the id. After a
    crash before the append ([k = 0]) the next pass emits the page again
    and the log gains its line. After both effects the id is marked and
    the harvester passes over the item. *)
Theorem put_record_crash_then_rerun
  (listing : list listing_item) (start_dt end_dt : pydatetime)
  (it : listing_item) (r : DocumentRecord) (st : Storage) (k : nat) :
  In it listing ->
  it_is_pdf it = false ->
  in_window start_dt end_dt (it_date_dt it) = true ->
  built_from secret it r ->
  exists_ st nbkz_name (doc_id r) = false ->
  entries (put_record_crash k st r) nbkz_name (doc_id r)
  = (entries st nbkz_name (doc_id r) + Nat.min k 1)%nat
  /\ exists_ (put_record_crash k st r) nbkz_name (doc_id r) = (2 <=? k)%nat
  /\ (forall (st1 : Storage) (recs : list DocumentRecord),
         (k <= 1)%nat ->
         nbkz_fetch_range secret _get_binary _extract_text_from_html
                          listing start_dt end_dt (put_record_crash k st r)
         = (st1, Ok recs) ->
         (exists r' : DocumentRecord,
             In r' recs /\ source r' = nbkz_name /\ doc_id r' = doc_id r)
         /\ exists_ (fold_left put_record recs st1) nbkz_name (doc_id r)
            = true
         /\ (entries st nbkz_name (doc_id r) + k + 1
             <= entries (fold_left put_record recs st1)
                        nbkz_name (doc_id r))%nat)
  /\ (forall i : nat,
         (2 <= k)%nat ->
         nbkz_item secret _get_binary _extract_text_from_html
                   start_dt end_dt (put_record_crash k st r) i it
         = Ok (put_record st r, None)).
Proof.
  intros Hin Hpage Hwin Hbuilt Hnew.
  destruct Hbuilt as (Hsrc & _ & Hid & _).
  assert (entries (put_record_crash k st r) nbkz_name (doc_id r)
          = (entries st nbkz_name (doc_id r) + Nat.min k 1)%nat
          /\ exists_ (put_record_crash k st r) nbkz_name (doc_id r)
             = (2 <=? k)%nat) as [Hentries Hexists].
  { destruct (put_record_crash_cases k st r)
      as [[-> ->]|[[-> ->]|[Hk ->]]].
    - split; [cbn; lia | exact Hnew].
    - split.
      + rewrite <- Hsrc, entries_append_line. cbn. lia.
      + exact Hnew.
    - split.
      + rewrite entries_put_record, Hsrc, !str_eqb_refl. cbn [andb].
        rewrite Nat.min_r by lia. reflexivity.
      + rewrite <- Hsrc at 1. rewrite put_record_unfold, exists_mark_seen.
        symmetry. apply Nat.leb_le. exact Hk. }
  split; [exact Hentries|]. split; [exact Hexists|]. split.
  - intros st1 recs Hk Hrun.
    unfold nbkz_fetch_range in Hrun.
    destruct listing as [|it0 listing']; [destruct Hin|].
    apply nbkz_loop_spec in Hrun as (new & -> & Hgrows & _ & Hsettled).
    cbn [app].
    rewrite List.Forall_forall in Hsettled.
    assert (exists r' : DocumentRecord,
               In r' new /\ source r' = nbkz_name /\ doc_id r' = doc_id r)
      as Hagain.
    { destruct (Hsettled it Hin) as [Hskip|[_ (r' & Hr' & Hs' & Hi')]].
      - exfalso. destruct Hskip as [H|[[H _]|[_ H]]].
        + congruence.
        + congruence.
        + rewrite (exists_store_grows _ _ _ _ Hgrows), <- Hid, Hexists in H.
          apply Nat.leb_le in H. lia.
      - exists r'. rewrite Hid. auto. }
    split; [exact Hagain|]. split.
    + apply fold_put_record_exists. right. exact Hagain.
    + destruct (entries_fold_put_record new st1 nbkz_name (doc_id r))
        as [_ Hone].
      specialize (Hone Hagain).
      destruct Hgrows as (Hlog & _ & _).
      rewrite (entries_same_log _ _ _ _ Hlog), Hentries in Hone.
      rewrite Nat.min_l in Hone by lia. exact Hone.
  - intros i Hk.
    destruct (put_record_crash_cases k st r)
      as [[-> _]|[[-> _]|[_ Hfull]]]; [lia | lia |].
    rewrite Hfull in *.
    apply nbkz_item_skipped. right. right. split.
    + rewrite Hpage. discriminate.
    + rewrite <- Hid, Hexists. apply Nat.leb_le. exact Hk.
Qed.

End CrashAndRerun.

(** C2 on the example listing, for a crash between the two effects in a
    fresh store: the line of the page is in the log and its id is not
    marked; every next pass that returns emits the page again, and the log
    then holds two lines for the id. *)
Lemma put_record_crash_then_rerun_witness :
  entries (put_record_crash 1 example_store example_page_record) nbkz_name
          (doc_id example_page_record) = 1%nat
  /\ exists_ (put_record_crash 1 example_store example_page_record)
             nbkz_name (doc_id example_page_record) = false
  /\ (forall (st1 : Storage) (recs : list DocumentRecord),
         @nbkz_fetch_range plain_runtime (0, 0) example_binary example_text
           example_listing example_start example_end
           (put_record_crash 1 example_store example_page_record)
         = (st1, Ok recs) ->
         (2 <= entries (fold_left put_record recs st1) nbkz_name
                       (doc_id example_page_record))%nat).
Proof.
  destruct (@put_record_crash_then_rerun plain_runtime (0, 0)
              example_binary example_text example_listing example_start
              example_end example_page example_page_record example_store 1)
    as (Hentries & Hexists & Hrerun & _).
  - left. reflexivity.
  - reflexivity.
  - vm_compute. reflexivity.
  - repeat split; vm_compute; reflexivity.
  - vm_compute. reflexivity.
  - split; [exact Hentries|]. split; [exact Hexists|].
    intros st1 recs Hrun.
    destruct (Hrerun st1 recs (le_n 1) Hrun) as (_ & _ & Hge).
    exact Hge.
Defined.

(** C2 as stated fails. On the example listing the first pass returns the
    page and the attachment. When the [put_record] of the page dies after
    the line is written and before the id is marked, the next pass finds
    the id unseen and returns the page again, and the scheduler's
    [put_record] writes its line a second time. *)
Lemma crash_between_effects_duplicates :
  exists (st1 st2 : Storage) (r2 : DocumentRecord),
    @nbkz_fetch_range plain_runtime (0, 0) example_binary example_text
      example_listing example_start example_end example_store
    = (st1, Ok [example_page_record; r2])
    /\ @nbkz_fetch_range plain_runtime (0, 0) example_binary example_text
         example_listing example_start example_end
         (put_record_crash 1 st1 example_page_record)
       = (st2, Ok [example_page_record])
    /\ entries (put_record_crash 1 st1 example_page_record) nbkz_name
               (doc_id example_page_record) = 1%nat
    /\ entries (put_record st2 example_page_record) nbkz_name
               (doc_id example_page_record) = 2%nat.
Proof.
  do 3 eexists. split; [vm_compute; reflexivity|].
  split; [vm_compute; reflexivity|].
  split; vm_compute; reflexivity.
Qed.

(** C5 on a roster of two: the first harvester raises in [fetch_range],
    the second returns three records of which the middle one cannot be
    saved. The pass ends without an exception, the two other records are
    in the log and both are counted. *)
Lemma run_once_isolates_failures_witness :
  exists (final : Storage) (n : Z),
    run_once flaky_put [crashing_harvester; healthy_harvester]
             example_now 7 example_store = (final, Ok n)
    /\ in_log final (example_record (py "r1"))
    /\ in_log final (example_record (py "r2"))
    /\ 2 <= n.
Proof.
  assert (put_record_or_raise flaky_put) as Hput.
  { intros st r. unfold flaky_put.
    destruct (str_eqb (doc_id r) (py "bad")).
    - right. exists 1%nat, OSError. split; reflexivity.
    - left. reflexivity. }
  assert (Forall keeps_log [crashing_harvester; healthy_harvester]) as Hall.
  { repeat constructor; intros e; cbn; intros [= <-]; reflexivity. }
  assert (forall r : DocumentRecord,
             negb (str_eqb (doc_id r) (py "bad")) = true ->
             always_saved flaky_put r) as Hgood.
  { intros r Hr st. unfold flaky_put.
    destruct (str_eqb (doc_id r) (py "bad")); [discriminate Hr|reflexivity]. }
  destruct (run_once_isolates_failures flaky_put Hput
              [crashing_harvester] [] healthy_harvester example_now
              (mkDatetime 738880 10 30 15 0) 7 example_store Hall eq_refl)
    as (stB & final & nB & n & HrunB & Hrun & Hn & Hin & Hcnt).
  exists final, n. split; [exact Hrun|].
  split; [apply Hin; [left; reflexivity | apply Hgood; vm_compute; reflexivity]|].
  split; [apply Hin; [right; right; left; reflexivity
                     | apply Hgood; vm_compute; reflexivity]|].
  specialize (Hcnt _ Hgood). change (nB + 2 <= n) in Hcnt. lia.
Defined.
